(** * snowflake-revoke-session: a shallow embedding of [src/script.mjs]

    The action disables and re-enables a Snowflake user through two calls of
    the SQL statement API.  This development embeds the script (and the
    helper functions of [@sgnl-actions/utils] that are bundled after it in
    the same file) in Rocq and proves the properties the specification
    states about it.

    Conventions.
    - A JavaScript string is a [string]; every character stands for the
      UTF-16 code unit of the same number (U+0000 .. U+00FF).
    - A JavaScript number is a binary64 [float]; an HTTP status, which is an
      integer by construction, is a [Z].
    - A plain object used as a dictionary ([params], [secrets],
      [environment]) is a [gmap]; a parsed JSON value is a [JsValue].
    - Effects (console, [fetch], [setTimeout], [Date]) are threaded through a
      state-and-exception monad [M] whose state is the trace of the events
      performed so far. *)

From Stdlib Require Import ZArith Ascii String List Bool Lia.
From Stdlib Require Import PrimFloat SpecFloat FloatOps.
From Stdlib Require Import DecimalString.
From stdpp Require Import base option strings gmap.

Local Open Scope Z_scope.

Set Warnings "-register-all".

(** ** Strings *)

Module Str.

Definition code (c : ascii) : Z := Z.of_N (N_of_ascii c).

Definition chr (n : Z) : ascii := ascii_of_N (Z.to_N n).

Definition is_empty (s : string) : bool :=
  match s with EmptyString => true | String _ _ => false end.

(** [WhiteSpace] and [LineTerminator] of ECMAScript below U+0100:
    TAB, LF, VT, FF, CR, SP and NBSP. *)
Definition is_white (c : ascii) : bool :=
  let n := code c in
  ((9 <=? n) && (n <=? 13)) || (n =? 32) || (n =? 160).

Definition is_digit (c : ascii) : bool :=
  let n := code c in (48 <=? n) && (n <=? 57).

Definition is_upper (c : ascii) : bool :=
  let n := code c in (65 <=? n) && (n <=? 90).

Definition is_lower (c : ascii) : bool :=
  let n := code c in (97 <=? n) && (n <=? 122).

Definition is_alnum (c : ascii) : bool :=
  is_digit c || is_upper c || is_lower c.

(** Lower-casing of the ASCII letters; this is all [toLowerCase] does to
    the strings it is applied to here, which are matches of [ms|s|m|h]. *)
Definition lower (c : ascii) : ascii :=
  if is_upper c then chr (code c + 32) else c.

Fixpoint toLowerCase (s : string) : string :=
  match s with
  | EmptyString => EmptyString
  | String c r => String (lower c) (toLowerCase r)
  end.

(** Equality of two code units under the [i] flag of a regular
    expression, for a pattern character that is an ASCII letter. *)
Definition eqb_nocase (a b : ascii) : bool := Ascii.eqb (lower a) (lower b).

Fixpoint all (p : ascii -> bool) (s : string) : bool :=
  match s with
  | EmptyString => true
  | String c r => p c && all p r
  end.

Fixpoint dropWhile (p : ascii -> bool) (s : string) : string :=
  match s with
  | EmptyString => EmptyString
  | String c r => if p c then dropWhile p r else s
  end.

Fixpoint takeWhile (p : ascii -> bool) (s : string) : string :=
  match s with
  | EmptyString => EmptyString
  | String c r => if p c then String c (takeWhile p r) else EmptyString
  end.

Fixpoint rev_onto (s acc : string) : string :=
  match s with
  | EmptyString => acc
  | String c r => rev_onto r (String c acc)
  end.

Definition rev (s : string) : string := rev_onto s EmptyString.

Definition trimStart (s : string) : string := dropWhile is_white s.

Definition trimEnd (s : string) : string := rev (dropWhile is_white (rev s)).

(** [String.prototype.trim] *)
Definition trim (s : string) : string := trimEnd (trimStart s).

(** [s.startsWith(p)] *)
Fixpoint startsWith (p s : string) : bool :=
  match p, s with
  | EmptyString, _ => true
  | String a p', String b s' => Ascii.eqb a b && startsWith p' s'
  | String _ _, EmptyString => false
  end.

(** [s.endsWith(p)] *)
Definition endsWith (p s : string) : bool := startsWith (rev p) (rev s).

(** [s.slice(0, -1)] *)
Fixpoint dropLast (s : string) : string :=
  match s with
  | EmptyString => EmptyString
  | String c EmptyString => EmptyString
  | String c r => String c (dropLast r)
  end.

(** [s.split(sep)] for a separator of one character. *)
Fixpoint split (sep : ascii) (s : string) : list string :=
  match s with
  | EmptyString => [EmptyString]
  | String c r =>
      if Ascii.eqb c sep then EmptyString :: split sep r
      else match split sep r with
           | seg :: segs => String c seg :: segs
           | [] => [String c EmptyString]
           end
  end.

Fixpoint count (c : ascii) (s : string) : nat :=
  match s with
  | EmptyString => O
  | String a r => (if Ascii.eqb a c then 1 else 0) + count c r
  end.

(** [sub] occurs in [s]. *)
Definition includes (sub s : string) : Prop :=
  exists pre post, s = pre +:+ sub +:+ post.

Fixpoint of_list (l : list ascii) : string :=
  match l with
  | [] => EmptyString
  | c :: r => String c (of_list r)
  end.

Fixpoint to_list (s : string) : list ascii :=
  match s with
  | EmptyString => []
  | String c r => c :: to_list r
  end.

Fixpoint concat (l : list string) : string :=
  match l with
  | [] => EmptyString
  | s :: r => s +:+ concat r
  end.

(** [Array.prototype.join] *)
Fixpoint join (sep : string) (l : list string) : string :=
  match l with
  | [] => EmptyString
  | [s] => s
  | s :: r => s +:+ sep +:+ join sep r
  end.

(** Decimal numeral of an integer, as [Number::toString] prints it. *)
Definition of_Z (n : Z) : string := NilZero.string_of_int (Z.to_int n).

End Str.

(** ** JavaScript values *)

Inductive JsValue : Type :=
| JUndefined
| JNull
| JBool (b : bool)
| JNum (x : float)
| JStr (s : string)
| JArr (items : list JsValue)
| JObj (props : list (string * JsValue)).

(** [ToBoolean]: what [!v], [v || w] and [if (v)] test. *)
Definition ToBoolean (v : JsValue) : bool :=
  match v with
  | JUndefined | JNull => false
  | JBool b => b
  | JNum x => negb (PrimFloat.eqb x 0%float || PrimFloat.is_nan x)
  | JStr s => negb (Str.is_empty s)
  | JArr _ | JObj _ => true
  end.

(** [a || b] *)
Definition js_or (a b : JsValue) : JsValue := if ToBoolean a then a else b.

(** [typeof v === 'string'] *)
Definition is_string (v : JsValue) : bool :=
  match v with JStr _ => true | _ => false end.

(** A property of a dictionary object; a missing key reads as [undefined]. *)
Definition prop (o : gmap string JsValue) (k : string) : JsValue :=
  default JUndefined (o !! k).

Fixpoint assoc (k : string) (l : list (string * JsValue)) : JsValue :=
  match l with
  | [] => JUndefined
  | (k', v) :: r => if String.eqb k k' then v else assoc k r
  end.

(** ** Exceptions *)

(** The two classes of the script, and the built-in error classes its code
    and its runtime throw. *)
Inductive ErrorClass := RetryableError | FatalError | Error | TypeError | SyntaxError.

Record Exn := { ctor : ErrorClass; message : string }.

(** The [retryable] property: the constructors of the two classes of the
    script set it, the built-in errors do not have it. *)
Definition retryable (e : Exn) : option bool :=
  match ctor e with
  | RetryableError => Some true
  | FatalError => Some false
  | _ => None
  end.

(** [e instanceof RetryableError || e instanceof FatalError] *)
Definition classified (e : Exn) : bool :=
  match ctor e with
  | RetryableError | FatalError => true
  | _ => false
  end.

Definition new (c : ErrorClass) (msg : string) : Exn := {| ctor := c; message := msg |}.

(** ** The outside world *)

Record Request := {
  url : string;
  method : string;
  headers : gmap string string;
  body : string
}.

(** A [Response]: [text] is what [response.text()] settles to, and [json]
    what [response.json()] settles to, a parsed value or the message of the
    [SyntaxError] it rejects with. *)
Record Response := {
  status : Z;
  statusText : string;
  text : string;
  json : string + JsValue
}.

(** [response.ok], as the Fetch standard defines it. *)
Definition ok (r : Response) : bool := (200 <=? status r) && (status r <=? 299).

Inductive FetchOutcome :=
| Resolved (r : Response)
| Rejected (msg : string).

Inductive Level := LLog | LWarn | LError.

(** Who called [fetch]: [executeStatement] or [getClientCredentialsToken]. *)
Inductive Site := StatementCall | TokenCall.

Inductive Event :=
| Console (l : Level) (args : list JsValue)
| Fetch (site : Site) (req : Request) (out : FetchOutcome)
| Sleep (ms : float).

Definition Trace := list Event.

Definition is_fetch (e : Event) : bool :=
  match e with Fetch _ _ _ => true | _ => false end.

(** The calls of the statement API in a trace, oldest first. *)
Fixpoint statement_calls (t : Trace) : list (Request * FetchOutcome) :=
  match t with
  | [] => []
  | Fetch StatementCall req out :: r => (req, out) :: statement_calls r
  | _ :: r => statement_calls r
  end.

(** ** The monad of effects *)

Inductive Outcome (A : Type) :=
| Return (a : A)
| Throw (e : Exn).

Arguments Return {A} a.
Arguments Throw {A} e.

(** A computation takes the trace so far and gives its outcome and the
    extended trace. *)
Definition M (A : Type) : Type := Trace -> Outcome A * Trace.

Definition ret {A} (a : A) : M A := fun t => (Return a, t).

Definition throw {A} (e : Exn) : M A := fun t => (Throw e, t).

Definition bind {A B} (m : M A) (k : A -> M B) : M B :=
  fun t =>
    match m t with
    | (Return a, t') => k a t'
    | (Throw e, t') => (Throw e, t')
    end.

(** [try { m } catch (error) { h error }] *)
Definition try_catch {A} (m : M A) (h : Exn -> M A) : M A :=
  fun t =>
    match m t with
    | (Return a, t') => (Return a, t')
    | (Throw e, t') => h e t'
    end.

Definition emit (e : Event) : M unit := fun t => (Return tt, t ++ [e]).

Notation "'let*' x := m 'in' k" := (bind m (fun x => k))
  (at level 10, x name, m at level 100, k at level 200).
Notation "'run' m ; k" := (bind m (fun _ => k))
  (at level 10, m at level 100, k at level 200).

Definition console_log (args : list JsValue) : M unit := emit (Console LLog args).
Definition console_warn (args : list JsValue) : M unit := emit (Console LWarn args).
Definition console_error (args : list JsValue) : M unit := emit (Console LError args).

(** Lifting of a computation without effects that may throw. *)
Definition lift {A} (o : Outcome A) : M A := fun t => (o, t).

(** ** Built-in functions of the runtime *)

Module Builtin.

(** *** Regular expressions of the script *)

(** [(ms|s|m|h)?$] under the [i] flag, at the end of the match: [None] when
    it does not match, [Some None] when the group does not take part. *)
Definition match_unit (s : string) : option (option string) :=
  if Str.is_empty s then Some None
  else
    let l := Str.toLowerCase s in
    if String.eqb l "ms" || String.eqb l "s" || String.eqb l "m" || String.eqb l "h"
    then Some (Some s)
    else None.

(** [str.match(/^(\d+(?:\.\d+)?)(ms|s|m|h)?$/i)]: the two capture groups. *)
Definition match_duration (s : string) : option (string * option string) :=
  let int := Str.takeWhile Str.is_digit s in
  let rest := Str.dropWhile Str.is_digit s in
  if Str.is_empty int then None
  else
    match rest with
    | String "."%char rest' =>
        let frac := Str.takeWhile Str.is_digit rest' in
        if Str.is_empty frac then None
        else
          match match_unit (Str.dropWhile Str.is_digit rest') with
          | Some u => Some (int +:+ "." +:+ frac, u)
          | None => None
          end
    | _ =>
        match match_unit rest with
        | Some u => Some (int, u)
        | None => None
        end
    end.

(** The prefix of [s] that equals [p] up to the case of ASCII letters is
    removed. *)
Fixpoint strip_prefix_nocase (p s : string) : option string :=
  match p, s with
  | EmptyString, _ => Some s
  | String a p', String b s' =>
      if Str.eqb_nocase a b then strip_prefix_nocase p' s' else None
  | String _ _, EmptyString => None
  end.

(** [str.replace(/^Bearer\s+/i, '')] *)
Definition strip_bearer (s : string) : string :=
  match strip_prefix_nocase "Bearer" s with
  | Some (String c r) =>
      if Str.is_white c then Str.dropWhile Str.is_white r else s
  | _ => s
  end.

(** *** Numbers *)

Fixpoint digits_value (s : string) (acc : Z) : Z :=
  match s with
  | EmptyString => acc
  | String c r => digits_value r (10 * acc + (Str.code c - 48))
  end.

(** The binary64 number nearest to [n / 10 ^ k] (ties to even). *)
Definition decimal_to_float (n : Z) (k : Z) : float :=
  match n with
  | Zpos p =>
      SF2Prim (SFdiv 53 1024 (S754_finite false p 0)
                             (S754_finite false (Z.to_pos (10 ^ k)) 0))
  | _ => 0%float
  end.

(** [parseFloat] on a numeral [digits] or [digits.digits], which is what
    the first capture group of the duration syntax holds. *)
Definition parseFloat (s : string) : float :=
  let int := Str.takeWhile Str.is_digit s in
  let frac :=
    match Str.dropWhile Str.is_digit s with
    | String "."%char r => Str.takeWhile Str.is_digit r
    | _ => EmptyString
    end in
  if Str.is_empty int then nan
  else decimal_to_float (digits_value (int +:+ frac) 0)
                        (Z.of_nat (String.length frac)).

(** *** Bytes *)

(** [Buffer.from(str)]: the UTF-8 encoding of the code units. *)
Fixpoint utf8 (s : string) : list Z :=
  match s with
  | EmptyString => []
  | String c r =>
      let n := Str.code c in
      if n <? 128 then n :: utf8 r
      else Z.lor 192 (Z.shiftr n 6) :: Z.lor 128 (Z.land n 63) :: utf8 r
  end.

Definition base64_digit (n : Z) : ascii :=
  if n <? 26 then Str.chr (65 + n)
  else if n <? 52 then Str.chr (97 + (n - 26))
  else if n <? 62 then Str.chr (48 + (n - 52))
  else if n =? 62 then "+"%char
  else "/"%char.

(** [buf.toString('base64')] *)
Fixpoint base64 (bytes : list Z) : string :=
  match bytes with
  | [] => EmptyString
  | [a] =>
      String (base64_digit (Z.shiftr a 2))
        (String (base64_digit (Z.shiftl (Z.land a 3) 4)) "==")
  | [a; b] =>
      String (base64_digit (Z.shiftr a 2))
        (String (base64_digit (Z.lor (Z.shiftl (Z.land a 3) 4) (Z.shiftr b 4)))
           (String (base64_digit (Z.shiftl (Z.land b 15) 2)) "="))
  | a :: b :: c :: r =>
      String (base64_digit (Z.shiftr a 2))
        (String (base64_digit (Z.lor (Z.shiftl (Z.land a 3) 4) (Z.shiftr b 4)))
           (String (base64_digit (Z.lor (Z.shiftl (Z.land b 15) 2) (Z.shiftr c 6)))
              (String (base64_digit (Z.land c 63)) (base64 r))))
  end.

Definition hex_digit (upper : bool) (n : Z) : ascii :=
  if n <? 10 then Str.chr (48 + n)
  else Str.chr ((if upper then 55 else 87) + n).

(** *** [URLSearchParams] *)

Definition urlencode_byte (b : Z) : string :=
  let c := Str.chr b in
  if b =? 32 then "+"
  else if Str.is_alnum c || (b =? 42) || (b =? 45) || (b =? 46) || (b =? 95)
  then String c EmptyString
  else String "%"%char
         (String (hex_digit true (Z.shiftr b 4))
            (String (hex_digit true (Z.land b 15)) EmptyString)).

Definition urlencode (s : string) : string :=
  Str.concat (map urlencode_byte (utf8 s)).

(** [params.toString()] for the pairs appended so far. *)
Definition URLSearchParams_toString (l : list (string * string)) : string :=
  Str.join "&" (map (fun kv => urlencode kv.1 +:+ "=" +:+ urlencode kv.2) l).

(** *** JSON *)

Definition dquote : ascii := Str.chr 34.
Definition backslash : ascii := Str.chr 92.

Definition escape (c : string) : string := String backslash c.

Definition quote_char (c : ascii) : string :=
  let n := Str.code c in
  if n =? 34 then escape (String dquote EmptyString)
  else if n =? 92 then escape (String backslash EmptyString)
  else if n =? 8 then escape "b"
  else if n =? 12 then escape "f"
  else if n =? 10 then escape "n"
  else if n =? 13 then escape "r"
  else if n =? 9 then escape "t"
  else if n <? 32 then
    escape ("u00" +:+ String (hex_digit false (Z.shiftr n 4))
                       (String (hex_digit false (Z.land n 15)) EmptyString))
  else String c EmptyString.

Fixpoint quote_body (s : string) : string :=
  match s with
  | EmptyString => EmptyString
  | String c r => quote_char c +:+ quote_body r
  end.

(** [QuoteJSONString] *)
Definition quote (s : string) : string :=
  String dquote (quote_body s +:+ String dquote EmptyString).

End Builtin.

(** ** [Date] *)

Module Date.

Definition msPerDay : Z := 86400000.

(** The number of days of 400 Gregorian years. *)
Definition daysPerEra : Z := 146097.

(** Year (0 .. 400), month and day for a day [doe] of an era of 400 years
    that begins on the first of March. *)
Definition civil_in_era (doe : Z) : Z * Z * Z :=
  let yoe := (doe - doe / 1460 + doe / 36524 - doe / 146096) / 365 in
  let doy := doe - (365 * yoe + yoe / 4 - yoe / 100) in
  let mp := (5 * doy + 2) / 153 in
  let d := doy - (153 * mp + 2) / 5 + 1 in
  let m := if mp <? 10 then mp + 3 else mp - 9 in
  (if m <=? 2 then yoe + 1 else yoe, m, d).

(** Year, month and day of the proleptic Gregorian calendar for a count of
    days since 1970-01-01. *)
Definition civil_from_days (days : Z) : Z * Z * Z :=
  let z := days + 719468 in
  let era := z / daysPerEra in
  let '(y, m, d) := civil_in_era (z - era * daysPerEra) in
  (y + era * 400, m, d).

(** The character of the last decimal digit of [n]. *)
Definition digit (n : Z) : ascii := Str.chr (48 + n mod 10).

(** The last [k] decimal digits of [n], padded with zeros. *)
Fixpoint pad (k : nat) (n : Z) : string :=
  match k with
  | O => EmptyString
  | S k' => pad k' (n / 10) +:+ String (digit n) EmptyString
  end.

(** [new Date(t).toISOString()] for a time value [t] in milliseconds since
    the epoch. *)
Definition toISOString (t : Z) : string :=
  let tod := t mod msPerDay in
  let '(y, m, d) := civil_from_days (t / msPerDay) in
  let year :=
    if (0 <=? y) && (y <=? 9999) then pad 4 y
    else (if y <? 0 then "-" else "+") +:+ pad 6 (Z.abs y) in
  year +:+ "-" +:+ pad 2 m +:+ "-" +:+ pad 2 d +:+ "T" +:+
  pad 2 (tod / 3600000) +:+ ":" +:+ pad 2 (tod / 60000 mod 60) +:+ ":" +:+
  pad 2 (tod / 1000 mod 60) +:+ "." +:+ pad 3 (tod mod 1000) +:+ "Z".

(** The first time value of the year 10000. *)
Definition year10000 : Z := 253402300800000.

Definition two (a b : ascii) : Z := 10 * (Str.code a - 48) + (Str.code b - 48).

(** The shape [YYYY-MM-DDTHH:mm:ss.sssZ] with every field in its range. *)
Definition is_iso8601 (s : string) : bool :=
  match Str.to_list s with
  | [y1; y2; y3; y4; "-"; m1; m2; "-"; d1; d2; "T"; h1; h2; ":"; n1; n2; ":";
     s1; s2; "."; f1; f2; f3; "Z"]%char =>
      forallb Str.is_digit [y1; y2; y3; y4; m1; m2; d1; d2; h1; h2; n1; n2; s1; s2; f1; f2; f3]
      && (1 <=? two m1 m2) && (two m1 m2 <=? 12)
      && (1 <=? two d1 d2) && (two d1 d2 <=? 31)
      && (two h1 h2 <=? 23) && (two n1 n2 <=? 59) && (two s1 s2 <=? 59)
  | _ => false
  end.

(** A test on every integer from [lo] up to [lo + 2 ^ k], by halving. *)
Fixpoint all_in_range (f : Z -> bool) (k : nat) (lo : Z) : bool :=
  match k with
  | O => f lo
  | S k' => all_in_range f k' lo && all_in_range f k' (lo + 2 ^ Z.of_nat k')
  end.

(** The fields of a day of an era are in their ranges; the year 400 is only
    reached in January and February, from day 146037 on. *)
Definition era_day_ok (doe : Z) : bool :=
  (daysPerEra <=? doe)
  || let '(y, m, d) := civil_in_era doe in
     (0 <=? y) && (y <=? (if doe <? 146037 then 399 else 400))
     && (1 <=? m) && (m <=? 12) && (1 <=? d) && (d <=? 31).

End Date.

(** ** Data of the action *)

(** The execution context: [environment] and [secrets] map names to strings
    and may be absent; [data] is the job context for template resolution. *)
Record ExecContext := {
  environment : option (gmap string string);
  secrets : option (gmap string string);
  data : JsValue
}.

(** Truth value of a property of [secrets] or [environment]: it is there and
    it is not the empty string. *)
Definition truthy (o : option string) : bool :=
  match o with
  | Some s => negb (Str.is_empty s)
  | None => false
  end.

(** The value of such a property as a JavaScript value. *)
Definition value_of (o : option string) : JsValue :=
  match o with
  | Some s => JStr s
  | None => JUndefined
  end.

(** The object [invoke] returns. *)
Record Result := {
  username : JsValue;
  sessionsRevoked : bool;
  userDisabled : JsValue;
  userReEnabled : JsValue;
  revokedAt : string
}.

(** The object [halt] returns. *)
Module HaltResult.
Record t := {
  username : JsValue;
  reason : JsValue;
  haltedAt : string;
  cleanupCompleted : bool
}.
End HaltResult.

(** The configuration object of [getClientCredentialsToken]. *)
Record TokenConfig := {
  tokenUrl : option string;
  clientId : option string;
  clientSecret : option string;
  scope : option string;
  audience : option string;
  authStyle : option string
}.

(** [v.k] for a name [k] that no built-in prototype defines: reading it from
    [undefined] or [null] throws, from a parsed JSON object it gives the own
    property, from anything else [undefined]. *)
Definition member (v : JsValue) (k : string) : Outcome JsValue :=
  match v with
  | JUndefined =>
      Throw (new TypeError ("Cannot read properties of undefined (reading '" +:+ k +:+ "')"))
  | JNull =>
      Throw (new TypeError ("Cannot read properties of null (reading '" +:+ k +:+ "')"))
  | JObj l => Return (assoc k l)
  | _ => Return JUndefined
  end.

(** ** The pure functions of the script *)

(** [validateInputs] *)
Definition validateInputs (params : gmap string JsValue) : Outcome unit :=
  let username := prop params "username" in
  if negb (ToBoolean username)
     || negb (is_string username)
     || match username with
        | JStr s => Str.is_empty (Str.trim s)
        | _ => false
        end
  then Throw (new FatalError "Invalid or missing username parameter")
  else Return tt.

(** [determineTokenType] *)
Definition determineTokenType (authToken : string) : string :=
  if ToBoolean (JStr authToken) && (length (Str.split "." authToken) =? 3)%nat
  then "KEYPAIR_JWT"
  else "OAUTH".

(** [getBaseUrl] of the bundled utilities, imported as [getBaseURL]. *)
Definition getBaseURL (params : gmap string JsValue) (context : ExecContext)
  : Outcome string :=
  let env := default ∅ (environment context) in
  let address := js_or (prop params "address") (value_of (env !! "ADDRESS")) in
  if negb (ToBoolean address) then
    Throw (new Error "No URL specified. Provide address parameter or ADDRESS environment variable")
  else
    match address with
    | JStr a => Return (if Str.endsWith "/" a then Str.dropLast a else a)
    | _ => Throw (new TypeError "address.endsWith is not a function")
    end.

(** The token of the [Bearer] branches of [getAuthorizationHeader]:
    [token.startsWith('Bearer ') ? token : `Bearer ${token}`] *)
Definition bearer (token : string) : string :=
  if Str.startsWith "Bearer " token then token else "Bearer " +:+ token.

(** ** Concrete inputs for the examples *)

(** [Number::toString] on the integers a double holds exactly; the examples
    print no other number. *)
Definition integer_toString (x : float) : string :=
  match Prim2SF x with
  | S754_zero _ => "0"
  | S754_finite s m e =>
      (if s then "-" else EmptyString) +:+
      Str.of_Z (if 0 <=? e then Z.shiftl (Z.pos m) e else Z.shiftr (Z.pos m) (- e))
  | S754_infinity s => if s then "-Infinity" else "Infinity"
  | S754_nan => "NaN"
  end.

(** A resolver for parameters without templates. *)
Definition no_templates (params : gmap string JsValue) (jobContext : JsValue)
  : gmap string JsValue * list JsValue := (params, []).

(** A clock that stands at 2026-11-03T05:02:03.456Z. *)
Definition fixed_clock (t : Trace) : Z := 1793682123456.

Definition response_of (code : Z) (reason body : string) (parsed : string + JsValue)
  : Response :=
  {| status := code; statusText := reason; text := body; json := parsed |}.

(** A warehouse that is down. *)
Definition unavailable (t : Trace) (req : Request) : FetchOutcome :=
  Resolved (response_of 503 "Service Unavailable" "down" (inl "Unexpected token d")).

Definition handle_response (h : string) : Response :=
  response_of 200 "OK" "ok" (inr (JObj [("statementHandle", JStr h)])).

(** A warehouse that answers the first statement with the handle h1 and the
    later ones with h2. *)
Definition warehouse (t : Trace) (req : Request) : FetchOutcome :=
  match statement_calls t with
  | [] => Resolved (handle_response "h1")
  | _ => Resolved (handle_response "h2")
  end.

Definition context_of (env secrets : gmap string string) : ExecContext :=
  {| environment := Some env; secrets := Some secrets; data := JUndefined |}.

Definition bearer_context : ExecContext :=
  context_of {["ADDRESS" := "https://example.snowflakecomputing.com"]}
             {["BEARER_AUTH_TOKEN" := "a.b.c"]}.

(** Both a bearer secret and basic-auth secrets. *)
Definition both_context : ExecContext :=
  context_of ∅ (<["BEARER_AUTH_TOKEN" := "tok"]>
                  (<["BASIC_USERNAME" := "u"]> {["BASIC_PASSWORD" := "p"]})).

(** The bearer secret is there and is the empty string. *)
Definition empty_bearer_context : ExecContext :=
  context_of ∅ (<["BEARER_AUTH_TOKEN" := EmptyString]>
                  (<["BASIC_USERNAME" := "u"]> {["BASIC_PASSWORD" := "p"]})).

Definition empty_token_context : ExecContext :=
  context_of ∅ {["BEARER_AUTH_TOKEN" := EmptyString]}.

Definition alice : gmap string JsValue := {["username" := JStr "alice"]}.

Definition blank : gmap string JsValue := {["username" := JStr "   "]}.

Definition bob_timeout : gmap string JsValue :=
  <["reason" := JStr "timeout"]> {["username" := JStr "bob"]}.

Definition empty_name : gmap string JsValue :=
  <["reason" := JStr "x"]> {["username" := JStr EmptyString]}.

(** The address of alice's tenant, with a slash at its end. *)
Definition slash_address : gmap string JsValue :=
  <["address" := JStr "https://acme.snowflakecomputing.com/"]> alice.

(** Client credentials for an identity provider. *)
Definition client_context : ExecContext :=
  context_of (<["OAUTH2_CLIENT_CREDENTIALS_TOKEN_URL" := "https://idp.example/token"]>
                (<["OAUTH2_CLIENT_CREDENTIALS_CLIENT_ID" := "app"]>
                   {["ADDRESS" := "https://example.snowflakecomputing.com"]}))
             {["OAUTH2_CLIENT_CREDENTIALS_CLIENT_SECRET" := "s3cret"]}.

(** A warehouse that answers every statement with 200 and the body null. *)
Definition null_warehouse (t : Trace) (req : Request) : FetchOutcome :=
  Resolved (response_of 200 "OK" "null" (inr JNull)).

(** ** The effectful functions *)

Section Script.

(** [Number::toString], the decimal rendering of a number. *)
Variable Number_toString : float -> string.

(** [resolveJSONPathTemplates] of [@sgnl-actions/utils]: the resolved
    parameters and the list of resolution errors. *)
Variable resolveJSONPathTemplates :
  gmap string JsValue -> JsValue -> gmap string JsValue * list JsValue.

(** What [fetch] settles to for a request, given everything that happened
    before it. *)
Variable network : Trace -> Request -> FetchOutcome.

(** The time value [new Date()] reads, given everything that happened
    before it. *)
Variable clock : Trace -> Z.

(** [String(v)], the conversion a template literal applies. *)
Fixpoint ToString (v : JsValue) : string :=
  match v with
  | JUndefined => "undefined"
  | JNull => "null"
  | JBool b => if b then "true" else "false"
  | JNum x => Number_toString x
  | JStr s => s
  | JArr l =>
      Str.join ","
        (map (fun i => match i with
                       | JUndefined | JNull => EmptyString
                       | _ => ToString i
                       end) l)
  | JObj _ => "[object Object]"
  end.

(** [JSON.stringify(v)]; [None] stands for [undefined]. *)
Fixpoint JSON_stringify (v : JsValue) : option string :=
  match v with
  | JUndefined => None
  | JNull => Some "null"
  | JBool b => Some (if b then "true" else "false")
  | JNum x => Some (if PrimFloat.is_finite x then Number_toString x else "null")
  | JStr s => Some (Builtin.quote s)
  | JArr l =>
      Some ("[" +:+ Str.join "," (map (fun i => default "null" (JSON_stringify i)) l) +:+ "]")
  | JObj l =>
      Some ("{" +:+
            Str.join ","
              (omap (fun kv => match JSON_stringify kv.2 with
                               | Some s => Some (Builtin.quote kv.1 +:+ ":" +:+ s)
                               | None => None
                               end) l) +:+ "}")
  end.

(** [await fetch(url, options)] *)
Definition fetch (site : Site) (req : Request) : M Response :=
  fun t =>
    match network t req with
    | Resolved r => (Return r, t ++ [Fetch site req (Resolved r)])
    | Rejected msg => (Throw (new TypeError msg), t ++ [Fetch site req (Rejected msg)])
    end.

(** [await response.json()] *)
Definition response_json (r : Response) : M JsValue :=
  match json r with
  | inr v => ret v
  | inl msg => throw (new SyntaxError msg)
  end.

(** [await new Promise(resolve => setTimeout(resolve, ms))] *)
Definition sleep (ms : float) : M unit := emit (Sleep ms).

(** [new Date().toISOString()] *)
Definition now_ISO : M string := fun t => (Return (Date.toISOString (clock t)), t).

(** [parseDuration] *)
Definition parseDuration (durationStr : JsValue) : M float :=
  if negb (ToBoolean durationStr) then ret 100%float
  else
    match durationStr with
    | JStr s =>
        match Builtin.match_duration s with
        | None =>
            run console_warn
                  [JStr ("Invalid duration format: " +:+ s +:+ ", using default 100ms")];
            ret 100%float
        | Some (m1, m2) =>
            let value := Builtin.parseFloat m1 in
            let unit := Str.toLowerCase (default "ms" m2) in
            if String.eqb unit "ms" then ret value
            else if String.eqb unit "s" then ret (value * 1000)%float
            else if String.eqb unit "m" then ret (value * 60 * 1000)%float
            else if String.eqb unit "h" then ret (value * 60 * 60 * 1000)%float
            else ret value
        end
    | _ => throw (new TypeError "durationStr.match is not a function")
    end.

(** The request [executeStatement] sends: its URL, its headers and its
    body. *)
Definition statement_request (statement authHeader baseUrl : string) : Request :=
  let url := baseUrl +:+ "/api/v2/statements" in
  let token := Builtin.strip_bearer authHeader in
  let tokenType := determineTokenType token in
  let headers : gmap string string :=
    <["Accept" := "*/*"]>
      (<["Content-Type" := "application/json"]>
         (<["Authorization" := authHeader]> ∅)) in
  let headers :=
    if ToBoolean (JStr tokenType)
    then <["X-Snowflake-Authorization-Token-Type" := tokenType]> headers
    else headers in
  {| url := url; method := "POST"; headers := headers;
     body := default "undefined"
               (JSON_stringify (JObj [("statement", JStr statement)])) |}.

(** [executeStatement] *)
Definition executeStatement (statement authHeader baseUrl : string) : M JsValue :=
  let* response :=
    fetch StatementCall (statement_request statement authHeader baseUrl) in
  if negb (ok response) then
    let responseText := text response in
    if status response =? 429 then
      throw (new RetryableError "Snowflake API rate limit exceeded")
    else if status response =? 401 then
      throw (new FatalError "Invalid or expired authentication token")
    else if status response =? 403 then
      throw (new FatalError "Insufficient permissions to execute statement")
    else if status response =? 422 then
      throw (new FatalError ("Invalid SQL statement: " +:+ responseText))
    else if status response >=? 500 then
      throw (new RetryableError
               ("Snowflake API server error: " +:+ Str.of_Z (status response)))
    else
      throw (new FatalError
               ("Failed to execute statement: " +:+ Str.of_Z (status response)
                +:+ " " +:+ statusText response +:+ " - " +:+ responseText))
  else
    let* data := response_json response in
    ret data.

(** [getClientCredentialsToken] *)
Definition getClientCredentialsToken (config : TokenConfig) : M JsValue :=
  if negb (truthy (tokenUrl config)) || negb (truthy (clientId config))
     || negb (truthy (clientSecret config))
  then throw (new Error "OAuth2 Client Credentials flow requires tokenUrl, clientId, and clientSecret")
  else
    let id := default EmptyString (clientId config) in
    let secret := default EmptyString (clientSecret config) in
    let params := [("grant_type", "client_credentials")] in
    let params :=
      if truthy (scope config)
      then params ++ [("scope", default EmptyString (scope config))] else params in
    let params :=
      if truthy (audience config)
      then params ++ [("audience", default EmptyString (audience config))] else params in
    let headers : gmap string string :=
      <["Accept" := "application/json"]>
        (<["Content-Type" := "application/x-www-form-urlencoded"]> ∅) in
    let in_params :=
      match authStyle config with
      | Some a => String.eqb a "InParams"
      | None => false
      end in
    let params :=
      if in_params
      then params ++ [("client_id", id); ("client_secret", secret)] else params in
    let headers :=
      if in_params then headers
      else <["Authorization" :=
               "Basic " +:+ Builtin.base64 (Builtin.utf8 (id +:+ ":" +:+ secret))]> headers in
    let* response :=
      fetch TokenCall
        {| url := default EmptyString (tokenUrl config); method := "POST";
           headers := headers; body := Builtin.URLSearchParams_toString params |} in
    if negb (ok response) then
      let errorText :=
        match json response with
        | inr errorData => default "undefined" (JSON_stringify errorData)
        | inl _ => text response
        end in
      throw (new Error ("OAuth2 token request failed: " +:+ Str.of_Z (status response)
                        +:+ " " +:+ statusText response +:+ " - " +:+ errorText))
    else
      let* data := response_json response in
      let* access_token := lift (member data "access_token") in
      if negb (ToBoolean access_token)
      then throw (new Error "No access_token in OAuth2 response")
      else ret access_token.

(** [getAuthorizationHeader] *)
Definition getAuthorizationHeader (context : ExecContext) : M string :=
  let env := default ∅ (environment context) in
  let secrets := default ∅ (secrets context) in
  if truthy (secrets !! "BEARER_AUTH_TOKEN") then
    ret (bearer (default EmptyString (secrets !! "BEARER_AUTH_TOKEN")))
  else if truthy (secrets !! "BASIC_PASSWORD") && truthy (secrets !! "BASIC_USERNAME") then
    let credentials :=
      Builtin.base64
        (Builtin.utf8 (default EmptyString (secrets !! "BASIC_USERNAME") +:+ ":" +:+
                       default EmptyString (secrets !! "BASIC_PASSWORD"))) in
    ret ("Basic " +:+ credentials)
  else if truthy (secrets !! "OAUTH2_AUTHORIZATION_CODE_ACCESS_TOKEN") then
    ret (bearer (default EmptyString (secrets !! "OAUTH2_AUTHORIZATION_CODE_ACCESS_TOKEN")))
  else if truthy (secrets !! "OAUTH2_CLIENT_CREDENTIALS_CLIENT_SECRET") then
    let tokenUrl := env !! "OAUTH2_CLIENT_CREDENTIALS_TOKEN_URL" in
    let clientId := env !! "OAUTH2_CLIENT_CREDENTIALS_CLIENT_ID" in
    let clientSecret := secrets !! "OAUTH2_CLIENT_CREDENTIALS_CLIENT_SECRET" in
    if negb (truthy tokenUrl) || negb (truthy clientId) then
      throw (new Error "OAuth2 Client Credentials flow requires TOKEN_URL and CLIENT_ID in env")
    else
      let* token :=
        getClientCredentialsToken
          {| tokenUrl := tokenUrl; clientId := clientId; clientSecret := clientSecret;
             scope := env !! "OAUTH2_CLIENT_CREDENTIALS_SCOPE";
             audience := env !! "OAUTH2_CLIENT_CREDENTIALS_AUDIENCE";
             authStyle := env !! "OAUTH2_CLIENT_CREDENTIALS_AUTH_STYLE" |} in
      ret ("Bearer " +:+ ToString token)
  else
    throw (new Error ("No authentication configured. Provide one of: " +:+
                      "BEARER_AUTH_TOKEN, BASIC_USERNAME/BASIC_PASSWORD, " +:+
                      "OAUTH2_AUTHORIZATION_CODE_ACCESS_TOKEN, or OAUTH2_CLIENT_CREDENTIALS_*")).

(** The body of the [try] block of [invoke]. *)
Definition invoke_try (resolvedParams : gmap string JsValue) (context : ExecContext)
  : M Result :=
  run lift (validateInputs resolvedParams);
  let username := prop resolvedParams "username" in
  let delay := prop resolvedParams "delay" in
  run console_log [JStr ("Processing username: " +:+ ToString username)];
  let* authHeader := getAuthorizationHeader context in
  let* baseUrl := lift (getBaseURL resolvedParams context) in
  let* delayMs := parseDuration delay in
  run console_log [JStr ("Disabling user: " +:+ ToString username)];
  let disableStatement := "ALTER USER " +:+ ToString username +:+ " SET DISABLED = TRUE" in
  let* disableResult := executeStatement disableStatement authHeader baseUrl in
  run console_log
        [JStr ("Waiting " +:+ Number_toString delayMs +:+ "ms before re-enabling user")];
  run sleep delayMs;
  run console_log [JStr ("Re-enabling user: " +:+ ToString username)];
  let enableStatement := "ALTER USER " +:+ ToString username +:+ " SET DISABLED = FALSE" in
  let* enableResult := executeStatement enableStatement authHeader baseUrl in
  let* disableHandle := lift (member disableResult "statementHandle") in
  let* enableHandle := lift (member enableResult "statementHandle") in
  let* revokedAt := now_ISO in
  let result :=
    {| username := username;
       sessionsRevoked := true;
       userDisabled := js_or disableHandle (JBool true);
       userReEnabled := js_or enableHandle (JBool true);
       revokedAt := revokedAt |} in
  run console_log
        [JStr ("Successfully revoked sessions for user: " +:+ ToString username)];
  ret result.

(** The [catch] block of [invoke]. *)
Definition invoke_catch (error : Exn) : M Result :=
  run console_error [JStr ("Error revoking Snowflake sessions: " +:+ message error)];
  if classified error then throw error
  else throw (new FatalError ("Unexpected error: " +:+ message error)).

(** [invoke] *)
Definition invoke (params : gmap string JsValue) (context : ExecContext) : M Result :=
  run console_log [JStr "Starting Snowflake Revoke Session action"];
  let jobContext := js_or (data context) (JObj []) in
  let resolved := resolveJSONPathTemplates params jobContext in
  let resolvedParams := resolved.1 in
  let errors := resolved.2 in
  run (if (0 <? length errors)%nat
       then console_warn [JStr "Template resolution errors:"; JArr errors]
       else ret tt);
  try_catch (invoke_try resolvedParams context) invoke_catch.

(** [error]: the handler logs and throws the error it was given. *)
Definition error (e : Exn) (_context : ExecContext) : M unit :=
  run console_error [JStr ("Error handler invoked: " +:+ message e)];
  throw e.

(** [halt] *)
Definition halt (params : gmap string JsValue) (_context : ExecContext)
  : M HaltResult.t :=
  let reason := prop params "reason" in
  let username := prop params "username" in
  run console_log [JStr ("Job is being halted (" +:+ ToString reason +:+ ")")];
  let* haltedAt := now_ISO in
  ret {| HaltResult.username := js_or username (JStr "unknown");
         HaltResult.reason := js_or reason (JStr "unknown");
         HaltResult.haltedAt := haltedAt;
         HaltResult.cleanupCompleted := true |}.


(** ** What the specification says, in its own words *)

(** A token has exactly three dot-separated segments. *)
Definition three_segments (s : string) : Prop :=
  exists a b c,
    s = a +:+ "." +:+ b +:+ "." +:+ c
    /\ Str.count "." a = 0%nat /\ Str.count "." b = 0%nat /\ Str.count "." c = 0%nat.

(** A non-empty run of decimal digits. *)
Definition digits1 (s : string) : Prop :=
  s <> EmptyString /\ Str.all Str.is_digit s = true.

(** The duration syntax [<number><unit>]: digits, an optional fraction, an
    optional unit among ms, s, m, h in any case. *)
Definition duration_syntax (s : string) : Prop :=
  exists int frac unit,
    s = int +:+ frac +:+ unit
    /\ digits1 int
    /\ (frac = EmptyString \/ exists f, frac = "." +:+ f /\ digits1 f)
    /\ In (Str.toLowerCase unit) [EmptyString; "ms"; "s"; "m"; "h"].

(** The four authentication methods, in their order of priority. *)
Inductive AuthMethod := Bearer | Basic | AuthorizationCode | ClientCredentials.

Definition auth_methods : list AuthMethod :=
  [Bearer; Basic; AuthorizationCode; ClientCredentials].

(** The credentials of a method are there: each of its secrets is in
    [secrets] and is not the empty string. *)
Definition has_credentials (context : ExecContext) (m : AuthMethod) : bool :=
  let secrets := default ∅ (secrets context) in
  match m with
  | Bearer => truthy (secrets !! "BEARER_AUTH_TOKEN")
  | Basic => truthy (secrets !! "BASIC_USERNAME") && truthy (secrets !! "BASIC_PASSWORD")
  | AuthorizationCode => truthy (secrets !! "OAUTH2_AUTHORIZATION_CODE_ACCESS_TOKEN")
  | ClientCredentials => truthy (secrets !! "OAUTH2_CLIENT_CREDENTIALS_CLIENT_SECRET")
  end.

(** What one method alone produces. *)
Definition header_of (context : ExecContext) (m : AuthMethod) : M string :=
  let env := default ∅ (environment context) in
  let secrets := default ∅ (secrets context) in
  match m with
  | Bearer => ret (bearer (default EmptyString (secrets !! "BEARER_AUTH_TOKEN")))
  | Basic =>
      ret ("Basic " +:+
           Builtin.base64
             (Builtin.utf8 (default EmptyString (secrets !! "BASIC_USERNAME") +:+ ":" +:+
                            default EmptyString (secrets !! "BASIC_PASSWORD"))))
  | AuthorizationCode =>
      ret (bearer (default EmptyString (secrets !! "OAUTH2_AUTHORIZATION_CODE_ACCESS_TOKEN")))
  | ClientCredentials =>
      if negb (truthy (env !! "OAUTH2_CLIENT_CREDENTIALS_TOKEN_URL"))
         || negb (truthy (env !! "OAUTH2_CLIENT_CREDENTIALS_CLIENT_ID"))
      then throw (new Error "OAuth2 Client Credentials flow requires TOKEN_URL and CLIENT_ID in env")
      else
        let* token :=
          getClientCredentialsToken
            {| tokenUrl := env !! "OAUTH2_CLIENT_CREDENTIALS_TOKEN_URL";
               clientId := env !! "OAUTH2_CLIENT_CREDENTIALS_CLIENT_ID";
               clientSecret := secrets !! "OAUTH2_CLIENT_CREDENTIALS_CLIENT_SECRET";
               scope := env !! "OAUTH2_CLIENT_CREDENTIALS_SCOPE";
               audience := env !! "OAUTH2_CLIENT_CREDENTIALS_AUDIENCE";
               authStyle := env !! "OAUTH2_CLIENT_CREDENTIALS_AUTH_STYLE" |} in
        ret ("Bearer " +:+ ToString token)
  end.

(** The resolver as the specification describes it: the methods are tried
    in order and the first one whose credentials are there wins. *)
Definition resolve_by_priority (context : ExecContext) : M string :=
  match find (has_credentials context) auth_methods with
  | Some m => header_of context m
  | None =>
      throw (new Error ("No authentication configured. Provide one of: " +:+
                        "BEARER_AUTH_TOKEN, BASIC_USERNAME/BASIC_PASSWORD, " +:+
                        "OAUTH2_AUTHORIZATION_CODE_ACCESS_TOKEN, or OAUTH2_CLIENT_CREDENTIALS_*"))
  end.

(** A [username] that [validateInputs] is said to reject: missing, not a
    string, or blank after trimming. *)
Definition invalid_username (o : option JsValue) : Prop :=
  match o with
  | None => True
  | Some (JStr s) => Str.trim s = EmptyString
  | Some _ => True
  end.

(** The events a computation adds contain no call of [fetch]. *)
Definition no_fetch (evs : list Event) : Prop := Forall (fun e => is_fetch e = false) evs.

(** The token-type header of a request. *)
Definition token_type_header (req : Request) : option string :=
  headers req !! "X-Snowflake-Authorization-Token-Type".

(** A property of the events a computation adds that holds of no events
    and of the events of two computations in sequence. *)
Record trace_closed (P : list Event -> Prop) : Prop := {
  closed_nil : P [];
  closed_app : forall a b, P a -> P b -> P (a ++ b)
}.

(** Whatever the trace before, [m] appends events that satisfy [P]. *)
Definition extends {A} (P : list Event -> Prop) (m : M A) : Prop :=
  forall t, exists evs, (m t).2 = t ++ evs /\ P evs.

(** The trace when [invoke] enters its [try] block. *)
Definition at_try (params : gmap string JsValue) (context : ExecContext) (t : Trace)
  : Trace :=
  let errors := (resolveJSONPathTemplates params (js_or (data context) (JObj []))).2 in
  (t ++ [Console LLog [JStr "Starting Snowflake Revoke Session action"]])
  ++ (if (0 <? length errors)%nat
      then [Console LWarn [JStr "Template resolution errors:"; JArr errors]]
      else []).

(** The first character of [s], if there is one, does not satisfy [p]. *)
Definition stops (p : ascii -> bool) (s : string) : Prop :=
  match s with
  | EmptyString => True
  | String c _ => p c = false
  end.

(** No statement call among the events. *)
Definition quiet (evs : list Event) : Prop := statement_calls evs = [].

(** ** Further observations of a run *)

Definition is_console (e : Event) : bool :=
  match e with Console _ _ => true | _ => false end.

(** The events other than the lines on the console, oldest first. *)
Fixpoint milestones (t : Trace) : list Event :=
  match t with
  | [] => []
  | Console _ _ :: r => milestones r
  | e :: r => e :: milestones r
  end.

(** The calls of the token endpoint in a trace, oldest first. *)
Fixpoint token_calls (t : Trace) : list (Request * FetchOutcome) :=
  match t with
  | [] => []
  | Fetch TokenCall req out :: r => (req, out) :: token_calls r
  | _ :: r => token_calls r
  end.

(** The two statements of [invoke]. *)
Definition disable_statement (username : JsValue) : string :=
  "ALTER USER " +:+ ToString username +:+ " SET DISABLED = TRUE".

Definition enable_statement (username : JsValue) : string :=
  "ALTER USER " +:+ ToString username +:+ " SET DISABLED = FALSE".

(** [getClientCredentialsToken]: its guard, and the form fields, the headers
    and the request it builds. *)
Definition complete (config : TokenConfig) : bool :=
  truthy (tokenUrl config) && truthy (clientId config) && truthy (clientSecret config).

Definition in_params (config : TokenConfig) : bool :=
  match authStyle config with
  | Some a => String.eqb a "InParams"
  | None => false
  end.

Definition grant_params (config : TokenConfig) : list (string * string) :=
  [("grant_type", "client_credentials")]
  ++ (if truthy (scope config) then [("scope", default EmptyString (scope config))] else [])
  ++ (if truthy (audience config)
      then [("audience", default EmptyString (audience config))] else []).

Definition credential_params (config : TokenConfig) : list (string * string) :=
  [("client_id", default EmptyString (clientId config));
   ("client_secret", default EmptyString (clientSecret config))].

Definition basic_credentials (config : TokenConfig) : string :=
  "Basic " +:+
  Builtin.base64
    (Builtin.utf8 (default EmptyString (clientId config) +:+ ":" +:+
                   default EmptyString (clientSecret config))).

Definition token_request (config : TokenConfig) : Request :=
  {| url := default EmptyString (tokenUrl config);
     method := "POST";
     headers :=
       (if in_params config then (fun h : gmap string string => h)
        else <["Authorization" := basic_credentials config]>)
         (<["Accept" := "application/json"]>
            (<["Content-Type" := "application/x-www-form-urlencoded"]> ∅));
     body :=
       Builtin.URLSearchParams_toString
         (grant_params config
          ++ (if in_params config then credential_params config else [])) |}.

(** The configuration [getAuthorizationHeader] hands to
    [getClientCredentialsToken]. *)
Definition token_config (context : ExecContext) : TokenConfig :=
  let env := default ∅ (environment context) in
  let secrets := default ∅ (secrets context) in
  {| tokenUrl := env !! "OAUTH2_CLIENT_CREDENTIALS_TOKEN_URL";
     clientId := env !! "OAUTH2_CLIENT_CREDENTIALS_CLIENT_ID";
     clientSecret := secrets !! "OAUTH2_CLIENT_CREDENTIALS_CLIENT_SECRET";
     scope := env !! "OAUTH2_CLIENT_CREDENTIALS_SCOPE";
     audience := env !! "OAUTH2_CLIENT_CREDENTIALS_AUDIENCE";
     authStyle := env !! "OAUTH2_CLIENT_CREDENTIALS_AUTH_STYLE" |}.

(** What only lower-cases the unit does to the value of [parseDuration]. *)
Definition scaled (unit : string) (value : float) : float :=
  if String.eqb unit "s" then (value * 1000)%float
  else if String.eqb unit "m" then (value * 60 * 1000)%float
  else if String.eqb unit "h" then (value * 60 * 60 * 1000)%float
  else value.

(** A numeral of the duration syntax: digits and an optional fraction. *)
Definition numeral (s : string) : Prop :=
  exists int frac,
    s = int +:+ frac /\ digits1 int
    /\ (frac = EmptyString \/ exists f, frac = "." +:+ f /\ digits1 f).

(** The trace at three points of the [try] block of [invoke]. *)
Definition after_validate (resolvedParams : gmap string JsValue) (t : Trace) : Trace :=
  t ++ [Console LLog
          [JStr ("Processing username: " +:+ ToString (prop resolvedParams "username"))]].

Definition before_disable (resolvedParams : gmap string JsValue) (t : Trace) : Trace :=
  t ++ [Console LLog
          [JStr ("Disabling user: " +:+ ToString (prop resolvedParams "username"))]].

Definition before_enable (resolvedParams : gmap string JsValue) (delayMs : float)
    (t : Trace) : Trace :=
  t ++ [Console LLog
          [JStr ("Waiting " +:+ Number_toString delayMs +:+ "ms before re-enabling user")];
        Sleep delayMs;
        Console LLog
          [JStr ("Re-enabling user: " +:+ ToString (prop resolvedParams "username"))]].

(** The [try] block has come to its first statement: the input is valid,
    the header, the base URL and the delay are there. *)
Definition reaches_disable (resolvedParams : gmap string JsValue) (context : ExecContext)
    (t : Trace) (authHeader baseUrl : string) (delayMs : float) (t3 : Trace) : Prop :=
  validateInputs resolvedParams = Return tt
  /\ exists t2,
       getAuthorizationHeader context (after_validate resolvedParams t)
       = (Return authHeader, t2)
       /\ getBaseURL resolvedParams context = Return baseUrl
       /\ parseDuration (prop resolvedParams "delay") t2 = (Return delayMs, t3).

(** It has come to its second statement: the first one has returned. *)
Definition reaches_enable (resolvedParams : gmap string JsValue) (context : ExecContext)
    (t : Trace) (authHeader baseUrl : string) (delayMs : float)
    (disableResult : JsValue) (t5 : Trace) : Prop :=
  exists t3,
    reaches_disable resolvedParams context t authHeader baseUrl delayMs t3
    /\ executeStatement (disable_statement (prop resolvedParams "username"))
         authHeader baseUrl (before_disable resolvedParams t3)
       = (Return disableResult, t5).

(** The ways the [try] block of [invoke] ends, one for each place it can
    leave from. *)
Inductive invoke_try_run (resolvedParams : gmap string JsValue) (context : ExecContext)
    (t : Trace) : Outcome Result * Trace -> Prop :=
| run_invalid (e : Exn) :
    validateInputs resolvedParams = Throw e ->
    invoke_try_run resolvedParams context t (Throw e, t)
| run_no_header (e : Exn) (t2 : Trace) :
    validateInputs resolvedParams = Return tt ->
    getAuthorizationHeader context (after_validate resolvedParams t) = (Throw e, t2) ->
    invoke_try_run resolvedParams context t (Throw e, t2)
| run_no_url (authHeader : string) (e : Exn) (t2 : Trace) :
    validateInputs resolvedParams = Return tt ->
    getAuthorizationHeader context (after_validate resolvedParams t)
    = (Return authHeader, t2) ->
    getBaseURL resolvedParams context = Throw e ->
    invoke_try_run resolvedParams context t (Throw e, t2)
| run_no_delay (authHeader baseUrl : string) (e : Exn) (t2 t3 : Trace) :
    validateInputs resolvedParams = Return tt ->
    getAuthorizationHeader context (after_validate resolvedParams t)
    = (Return authHeader, t2) ->
    getBaseURL resolvedParams context = Return baseUrl ->
    parseDuration (prop resolvedParams "delay") t2 = (Throw e, t3) ->
    invoke_try_run resolvedParams context t (Throw e, t3)
| run_disable_fails (authHeader baseUrl : string) (delayMs : float) (e : Exn)
    (t3 t5 : Trace) :
    reaches_disable resolvedParams context t authHeader baseUrl delayMs t3 ->
    executeStatement (disable_statement (prop resolvedParams "username"))
      authHeader baseUrl (before_disable resolvedParams t3)
    = (Throw e, t5) ->
    invoke_try_run resolvedParams context t (Throw e, t5)
| run_enable_fails (authHeader baseUrl : string) (delayMs : float)
    (disableResult : JsValue) (e : Exn) (t5 t7 : Trace) :
    reaches_enable resolvedParams context t authHeader baseUrl delayMs disableResult t5 ->
    executeStatement (enable_statement (prop resolvedParams "username"))
      authHeader baseUrl (before_enable resolvedParams delayMs t5)
    = (Throw e, t7) ->
    invoke_try_run resolvedParams context t (Throw e, t7)
| run_no_result (authHeader baseUrl : string) (delayMs : float)
    (disableResult enableResult : JsValue) (e : Exn) (t5 t7 : Trace) :
    reaches_enable resolvedParams context t authHeader baseUrl delayMs disableResult t5 ->
    executeStatement (enable_statement (prop resolvedParams "username"))
      authHeader baseUrl (before_enable resolvedParams delayMs t5)
    = (Return enableResult, t7) ->
    (member disableResult "statementHandle" = Throw e
     \/ (exists h, member disableResult "statementHandle" = Return h)
        /\ member enableResult "statementHandle" = Throw e) ->
    invoke_try_run resolvedParams context t (Throw e, t7)
| run_success (authHeader baseUrl : string) (delayMs : float)
    (disableResult enableResult disableHandle enableHandle : JsValue) (t5 t7 : Trace) :
    reaches_enable resolvedParams context t authHeader baseUrl delayMs disableResult t5 ->
    executeStatement (enable_statement (prop resolvedParams "username"))
      authHeader baseUrl (before_enable resolvedParams delayMs t5)
    = (Return enableResult, t7) ->
    member disableResult "statementHandle" = Return disableHandle ->
    member enableResult "statementHandle" = Return enableHandle ->
    invoke_try_run resolvedParams context t
      (Return {| username := prop resolvedParams "username";
                 sessionsRevoked := true;
                 userDisabled := js_or disableHandle (JBool true);
                 userReEnabled := js_or enableHandle (JBool true);
                 revokedAt := Date.toISOString (clock t7) |},
       t7 ++ [Console LLog
                [JStr ("Successfully revoked sessions for user: " +:+
                       ToString (prop resolvedParams "username"))]]).

(** The base-64 digits that a pair of neighbouring bytes gives rise to are
    all different from the dot. *)
Definition base64_pair_ok (i : Z) : bool :=
  let x := i / 256 in
  let y := i mod 256 in
  forallb (fun n => negb (Ascii.eqb (Builtin.base64_digit n) "."))
    [Z.shiftr x 2;
     Z.lor (Z.shiftl (Z.land x 3) 4) (Z.shiftr y 4);
     Z.shiftl (Z.land x 3) 4;
     Z.lor (Z.shiftl (Z.land x 15) 2) (Z.shiftr y 6);
     Z.shiftl (Z.land x 15) 2;
     Z.land x 63].

Definition is_byte (b : Z) : bool := (0 <=? b) && (b <? 256).

(** Every error a computation throws satisfies [Q]. *)
Definition raises {A} (Q : Exn -> Prop) (m : M A) : Prop :=
  forall t e, (m t).1 = Throw e -> Q e.

(** The text [getClientCredentialsToken] puts in its error for a response
    that is not 2xx: the JSON of the body when it parses, its text if not. *)
Definition token_error_text (r : Response) : string :=
  match json r with
  | inr errorData => default "undefined" (JSON_stringify errorData)
  | inl _ => text r
  end.

(** [getAuthorizationHeader] goes to the token endpoint: the first method
    whose credentials are there is the client-credentials one, and the
    environment has its token URL and client id. *)
Definition calls_token_endpoint (context : ExecContext) : bool :=
  match find (has_credentials context) auth_methods with
  | Some ClientCredentials =>
      truthy (default ∅ (environment context) !! "OAUTH2_CLIENT_CREDENTIALS_TOKEN_URL")
      && truthy (default ∅ (environment context) !! "OAUTH2_CLIENT_CREDENTIALS_CLIENT_ID")
  | _ => false
  end.

(** The call of the token endpoint made at trace [t], if one is made. *)
Definition token_milestone (context : ExecContext) (t : Trace) : list Event :=
  if calls_token_endpoint context
  then [Fetch TokenCall (token_request (token_config context))
          (network t (token_request (token_config context)))]
  else [].

(** The statement calls and the sleep of a run for the user [u], in the
    order they happen: nothing, the disable statement alone, or the disable
    statement answered 2xx with a JSON body, the sleep and the enable
    statement, sent with the same header to the same base URL. *)
Inductive statements_shape (u : JsValue) : list Event -> Prop :=
| shape_none : statements_shape u []
| shape_disable (authHeader baseUrl : string) (out : FetchOutcome) :
    statements_shape u
      [Fetch StatementCall
         (statement_request (disable_statement u) authHeader baseUrl) out]
| shape_both (authHeader baseUrl : string) (r1 : Response) (v1 : JsValue)
    (delayMs : float) (out : FetchOutcome) :
    ok r1 = true -> json r1 = inr v1 ->
    statements_shape u
      [Fetch StatementCall
         (statement_request (disable_statement u) authHeader baseUrl) (Resolved r1);
       Sleep delayMs;
       Fetch StatementCall
         (statement_request (enable_statement u) authHeader baseUrl) out].

(** A statement call that was answered with the status 429 or with a
    status of 500 or more. *)
Definition overloaded (c : Request * FetchOutcome) : Prop :=
  exists r, c.2 = Resolved r /\ (status r = 429 \/ 500 <= status r).

(** The number of sleeps in a trace. *)
Fixpoint sleeps (t : Trace) : nat :=
  match t with
  | [] => O
  | Sleep _ :: r => S (sleeps r)
  | _ :: r => sleeps r
  end.

(** ** Assumptions on template resolution

    [resolveJSONPathTemplates] rewrites the templates inside string
    values: it does not make a string out of a parameter that is missing
    or is not a string, and it leaves a string without an opening brace as
    it is. *)
Hypothesis resolve_string_only :
  forall params jobContext k,
    is_string (prop (resolveJSONPathTemplates params jobContext).1 k) = true ->
    is_string (prop params k) = true.

Hypothesis resolve_plain :
  forall params jobContext k s,
    params !! k = Some (JStr s) ->
    Str.count "{" s = 0%nat ->
    (resolveJSONPathTemplates params jobContext).1 !! k = Some (JStr s).

(** ** Strings: lemmas *)

Lemma append_cons (c : ascii) (a b : string) :
  String c a +:+ b = String c (a +:+ b).
Proof. reflexivity. Qed.

Lemma append_empty_r (s : string) : s +:+ EmptyString = s.
Proof.
  induction s as [|c s IH]; [reflexivity |].
  rewrite append_cons. now f_equal.
Qed.

Lemma append_assoc (a b c : string) : (a +:+ b) +:+ c = a +:+ b +:+ c.
Proof.
  induction a as [|x a IH]; [reflexivity |].
  rewrite !append_cons. now f_equal.
Qed.

Lemma count_append (c : ascii) (a b : string) :
  Str.count c (a +:+ b) = (Str.count c a + Str.count c b)%nat.
Proof.
  induction a as [|x a IH]; [reflexivity |].
  rewrite append_cons. simpl. rewrite IH. lia.
Qed.

Lemma split_nonempty (sep : ascii) (s : string) : Str.split sep s <> [].
Proof.
  induction s as [|c s IH]; simpl; [discriminate |].
  destruct (Ascii.eqb c sep); [discriminate |].
  destruct (Str.split sep s); [contradiction | discriminate].
Qed.

Lemma split_length (sep : ascii) (s : string) :
  length (Str.split sep s) = S (Str.count sep s).
Proof.
  induction s as [|c s IH]; simpl; [reflexivity |].
  destruct (Ascii.eqb c sep); simpl; [now rewrite IH |].
  destruct (Str.split sep s) eqn:E; [now apply split_nonempty in E |].
  simpl in *. exact IH.
Qed.

Lemma join_cons (sep a b : string) (l : list string) :
  Str.join sep (a :: b :: l) = a +:+ sep +:+ Str.join sep (b :: l).
Proof. reflexivity. Qed.

Lemma split_join (sep : ascii) (s : string) :
  Str.join (String sep EmptyString) (Str.split sep s) = s.
Proof.
  induction s as [|c s IH]; [reflexivity |].
  cbn [Str.split].
  destruct (Ascii.eqb c sep) eqn:Ec.
  - apply Ascii.eqb_eq in Ec. subst c.
    destruct (Str.split sep s) as [|seg segs] eqn:E; [now apply split_nonempty in E |].
    rewrite join_cons, IH. reflexivity.
  - destruct (Str.split sep s) as [|seg segs] eqn:E; [now apply split_nonempty in E |].
    destruct segs as [|seg' segs].
    + cbn in IH |- *. now subst.
    + rewrite join_cons in IH |- *. rewrite append_cons. now f_equal.
Qed.

Lemma split_segments (sep : ascii) (s : string) :
  Forall (fun seg => Str.count sep seg = 0%nat) (Str.split sep s).
Proof.
  induction s as [|c s IH]; simpl; [repeat constructor |].
  destruct (Ascii.eqb c sep) eqn:Ec; [constructor; [reflexivity | exact IH] |].
  destruct (Str.split sep s) as [|seg segs]; [repeat constructor; simpl; now rewrite Ec |].
  inversion IH; subst. constructor; [simpl; now rewrite Ec | assumption].
Qed.

Lemma split_three (s : string) :
  length (Str.split "." s) = 3%nat <-> three_segments s.
Proof.
  split.
  - intros H.
    pose proof (split_join "." s) as J. pose proof (split_segments "." s) as F.
    destruct (Str.split "." s) as [|a [|b [|c [|d l]]]]; try discriminate.
    apply Forall_cons_1 in F as [Ha F]. apply Forall_cons_1 in F as [Hb F].
    apply Forall_cons_1 in F as [Hc _].
    exists a, b, c. rewrite <- J. auto.
  - intros (a & b & c & -> & Ha & Hb & Hc).
    rewrite split_length, !count_append, Ha, Hb, Hc. reflexivity.
Qed.

(** ** Traces: lemmas *)

Lemma statement_calls_app (a b : Trace) :
  statement_calls (a ++ b) = statement_calls a ++ statement_calls b.
Proof.
  induction a as [|e a IH]; [reflexivity |].
  destruct e as [l args|[] req out|ms]; simpl; now rewrite IH.
Qed.

Section Extends.
Context {P : list Event -> Prop} (HP : trace_closed P).

Lemma extends_ret {A} (a : A) : extends P (ret a).
Proof. intros t. exists []. rewrite app_nil_r. split; [reflexivity | apply HP]. Qed.

Lemma extends_throw {A} (e : Exn) : extends P (@throw A e).
Proof. intros t. exists []. rewrite app_nil_r. split; [reflexivity | apply HP]. Qed.

Lemma extends_lift {A} (o : Outcome A) : extends P (lift o).
Proof. intros t. exists []. rewrite app_nil_r. split; [reflexivity | apply HP]. Qed.

Lemma extends_emit (e : Event) : P [e] -> extends P (emit e).
Proof. intros He t. exists [e]. split; [reflexivity | exact He]. Qed.

Lemma extends_bind {A B} (m : M A) (k : A -> M B) :
  extends P m -> (forall a, extends P (k a)) -> extends P (bind m k).
Proof.
  intros Hm Hk t. unfold bind.
  destruct (Hm t) as (evs & E & Hevs).
  destruct (m t) as [[a|e] t1]; simpl in E; subst t1.
  - destruct (Hk a (t ++ evs)) as (evs' & E' & Hevs').
    exists (evs ++ evs'). rewrite E', app_assoc. split; [reflexivity |].
    now apply HP.
  - exists evs. split; [reflexivity | exact Hevs].
Qed.

Lemma extends_try_catch {A} (m : M A) (h : Exn -> M A) :
  extends P m -> (forall e, extends P (h e)) -> extends P (try_catch m h).
Proof.
  intros Hm Hh t. unfold try_catch.
  destruct (Hm t) as (evs & E & Hevs).
  destruct (m t) as [[a|e] t1]; simpl in E; subst t1.
  - exists evs. split; [reflexivity | exact Hevs].
  - destruct (Hh e (t ++ evs)) as (evs' & E' & Hevs').
    exists (evs ++ evs'). rewrite E', app_assoc. split; [reflexivity |].
    now apply HP.
Qed.
End Extends.

(** ** [toISOString] *)

Lemma all_in_range_spec (f : Z -> bool) (k : nat) (lo : Z) :
  Date.all_in_range f k lo = true ->
  forall i, lo <= i < lo + 2 ^ Z.of_nat k -> f i = true.
Proof.
  revert lo. induction k as [|k IH]; intros lo H i Hi.
  - cbn in H, Hi. now replace i with lo by lia.
  - cbn [Date.all_in_range] in H. apply andb_prop in H as [H1 H2].
    rewrite Nat2Z.inj_succ, Z.pow_succ_r in Hi by lia.
    destruct (Z.lt_ge_cases i (lo + 2 ^ Z.of_nat k)).
    + apply (IH lo H1). lia.
    + apply (IH _ H2). lia.
Qed.

Lemma era_days (doe : Z) :
  0 <= doe < Date.daysPerEra -> Date.era_day_ok doe = true.
Proof.
  intros H. unfold Date.daysPerEra in H.
  destruct (Z.lt_ge_cases doe 131072).
  - apply (all_in_range_spec Date.era_day_ok 17 0); [vm_compute; reflexivity |].
    change (2 ^ Z.of_nat 17) with 131072. lia.
  - apply (all_in_range_spec Date.era_day_ok 14 131072); [vm_compute; reflexivity |].
    change (2 ^ Z.of_nat 14) with 16384. lia.
Qed.

Lemma code_chr (n : Z) : 0 <= n < 256 -> Str.code (Str.chr n) = n.
Proof.
  intros H. unfold Str.code, Str.chr.
  rewrite N_ascii_embedding; [apply Z2N.id; lia |].
  change 256%N with (Z.to_N 256). apply Z2N.inj_lt; lia.
Qed.

Lemma code_digit (n : Z) : Str.code (Date.digit n) = 48 + n mod 10.
Proof.
  unfold Date.digit. apply code_chr.
  pose proof (Z.mod_pos_bound n 10). lia.
Qed.

Lemma is_digit_digit (n : Z) : Str.is_digit (Date.digit n) = true.
Proof.
  unfold Str.is_digit. rewrite code_digit.
  pose proof (Z.mod_pos_bound n 10). apply andb_true_intro. split; apply Z.leb_le; lia.
Qed.

Lemma two_digits (n : Z) :
  0 <= n < 100 -> Date.two (Date.digit (n / 10)) (Date.digit n) = n.
Proof.
  intros H. unfold Date.two. rewrite !code_digit.
  rewrite (Z.mod_small (n / 10)).
  - pose proof (Z.div_mod n 10). lia.
  - split; [apply Z.div_pos; lia | apply Z.div_lt_upper_bound; lia].
Qed.

Lemma toISOString_chars (t : Z) :
  let tod := t mod Date.msPerDay in
  let '(y, m, d) := Date.civil_from_days (t / Date.msPerDay) in
  0 <= y <= 9999 ->
  Date.toISOString t
  = Str.of_list
      [Date.digit (y / 10 / 10 / 10); Date.digit (y / 10 / 10); Date.digit (y / 10);
       Date.digit y; "-"; Date.digit (m / 10); Date.digit m; "-";
       Date.digit (d / 10); Date.digit d; "T";
       Date.digit (tod / 3600000 / 10); Date.digit (tod / 3600000); ":";
       Date.digit (tod / 60000 mod 60 / 10); Date.digit (tod / 60000 mod 60); ":";
       Date.digit (tod / 1000 mod 60 / 10); Date.digit (tod / 1000 mod 60); ".";
       Date.digit (tod mod 1000 / 10 / 10); Date.digit (tod mod 1000 / 10);
       Date.digit (tod mod 1000); "Z"]%char.
Proof.
  intros tod. unfold Date.toISOString. fold tod.
  destruct (Date.civil_from_days (t / Date.msPerDay)) as [[y m] d].
  intros Hy.
  replace ((0 <=? y) && (y <=? 9999)) with true
    by (symmetry; apply andb_true_intro; split; apply Z.leb_le; lia).
  reflexivity.
Qed.

Lemma is_iso8601_chars (y1 y2 y3 y4 m1 m2 d1 d2 h1 h2 n1 n2 s1 s2 f1 f2 f3 : ascii) :
  Date.is_iso8601
    (Str.of_list [y1; y2; y3; y4; "-"; m1; m2; "-"; d1; d2; "T"; h1; h2; ":"; n1; n2;
                  ":"; s1; s2; "."; f1; f2; f3; "Z"]%char)
  = forallb Str.is_digit
      [y1; y2; y3; y4; m1; m2; d1; d2; h1; h2; n1; n2; s1; s2; f1; f2; f3]
    && (1 <=? Date.two m1 m2) && (Date.two m1 m2 <=? 12)
    && (1 <=? Date.two d1 d2) && (Date.two d1 d2 <=? 31)
    && (Date.two h1 h2 <=? 23) && (Date.two n1 n2 <=? 59) && (Date.two s1 s2 <=? 59).
Proof. reflexivity. Qed.

(** The fields of a date between 1970 and 9999. *)
Lemma civil_from_days_range (days : Z) :
  0 <= days < 2932897 ->
  let '(y, m, d) := Date.civil_from_days days in
  0 <= y <= 9999 /\ 1 <= m <= 12 /\ 1 <= d <= 31.
Proof.
  intros H. unfold Date.civil_from_days. cbv zeta.
  set (z := days + 719468).
  set (era := z / Date.daysPerEra).
  assert (Hera : 4 <= era <= 24).
  { unfold era, Date.daysPerEra. split.
    - apply Z.div_le_lower_bound; lia.
    - apply Z.lt_succ_r, Z.div_lt_upper_bound; lia. }
  assert (Hdoe : 0 <= z - era * Date.daysPerEra < Date.daysPerEra).
  { pose proof (Z.div_mod z Date.daysPerEra) as D.
    pose proof (Z.mod_pos_bound z Date.daysPerEra) as B.
    fold era in D. unfold Date.daysPerEra in *. lia. }
  pose proof (era_days _ Hdoe) as K. unfold Date.era_day_ok in K.
  set (doe := z - era * Date.daysPerEra) in *.
  replace (Date.daysPerEra <=? doe) with false in K
    by (symmetry; apply Z.leb_gt; lia).
  cbn [orb] in K.
  destruct (Date.civil_in_era doe) as [[y m] d].
  repeat (apply andb_prop in K as [K ?]).
  repeat match goal with
         | B : (_ <=? _) = true |- _ => apply Z.leb_le in B
         end.
  split; [| lia].
  destruct (Z.ltb_spec doe 146037); [lia |].
  assert (era <= 23); [| lia].
  unfold doe, Date.daysPerEra in *. lia.
Qed.

(** From 1970 to the end of 9999 the string has the ISO-8601 shape
    [YYYY-MM-DDTHH:mm:ss.sssZ] with every field in its range. *)
Lemma toISOString_iso8601 (t : Z) :
  0 <= t < Date.year10000 -> Date.is_iso8601 (Date.toISOString t) = true.
Proof.
  intros H. unfold Date.year10000 in H.
  pose proof (toISOString_chars t) as C. cbv zeta in C.
  assert (Hdays : 0 <= t / Date.msPerDay < 2932897).
  { unfold Date.msPerDay. split; [apply Z.div_pos; lia |].
    apply Z.div_lt_upper_bound; lia. }
  pose proof (civil_from_days_range _ Hdays) as R.
  destruct (Date.civil_from_days (t / Date.msPerDay)) as [[y m] d].
  destruct R as (Hy & Hm & Hd). rewrite (C Hy), is_iso8601_chars.
  pose proof (Z.mod_pos_bound t Date.msPerDay) as Htod.
  set (tod := t mod Date.msPerDay) in *. unfold Date.msPerDay in Htod.
  assert (Hh : 0 <= tod / 3600000 <= 23).
  { split; [apply Z.div_pos; lia |]. apply Z.lt_succ_r, Z.div_lt_upper_bound; lia. }
  pose proof (Z.mod_pos_bound (tod / 60000) 60) as Hn.
  pose proof (Z.mod_pos_bound (tod / 1000) 60) as Hs.
  cbn [forallb]. rewrite !is_digit_digit, !two_digits by lia. cbn [andb].
  repeat (apply andb_true_intro; split); apply Z.leb_le; lia.
Qed.

(** ** [determineTokenType] *)

Lemma determineTokenType_cases (authToken : string) :
  determineTokenType authToken =
    if (length (Str.split "." authToken) =? 3)%nat then "KEYPAIR_JWT" else "OAUTH".
Proof.
  unfold determineTokenType. destruct authToken; reflexivity.
Qed.

(** C7: [determineTokenType] has no effects (it is a function from strings
    to strings); it answers KEYPAIR_JWT exactly for the tokens that split
    on the dot into three segments, and OAUTH for every other string. *)
Theorem determineTokenType_three_segments (authToken : string) :
  (three_segments authToken <-> length (Str.split "." authToken) = 3%nat)
  /\ (determineTokenType authToken = "KEYPAIR_JWT" <-> three_segments authToken)
  /\ (determineTokenType authToken = "OAUTH" <-> ~ three_segments authToken).
Proof.
  pose proof (split_three authToken) as S3.
  rewrite determineTokenType_cases.
  destruct (Nat.eqb_spec (length (Str.split "." authToken)) 3) as [E|E].
  - intuition discriminate.
  - intuition discriminate.
Qed.

(** ** [executeStatement] *)

Lemma determineTokenType_truthy (authToken : string) :
  ToBoolean (JStr (determineTokenType authToken)) = true.
Proof.
  rewrite determineTokenType_cases.
  now destruct (length (Str.split "." authToken) =? 3)%nat.
Qed.

Lemma statement_request_header (statement authHeader baseUrl : string) :
  token_type_header (statement_request statement authHeader baseUrl)
  = Some (determineTokenType (Builtin.strip_bearer authHeader)).
Proof.
  unfold token_type_header, statement_request. cbn [headers].
  rewrite determineTokenType_truthy. apply lookup_insert_eq.
Qed.

Lemma executeStatement_trace (statement authHeader baseUrl : string) (t : Trace) :
  let req := statement_request statement authHeader baseUrl in
  (executeStatement statement authHeader baseUrl t).2
  = t ++ [Fetch StatementCall req (network t req)].
Proof.
  intros req. unfold executeStatement, bind, fetch. fold req.
  destruct (network t req) as [r|msg]; [|reflexivity].
  destruct (negb (ok r)).
  - repeat (match goal with |- context [if ?c then _ else _] => destruct c end);
      reflexivity.
  - unfold response_json. destruct (json r); reflexivity.
Qed.

(** What [executeStatement] answers to a response. *)
Lemma executeStatement_resolved (statement authHeader baseUrl : string) (t : Trace)
    (r : Response) :
  network t (statement_request statement authHeader baseUrl) = Resolved r ->
  ok r = true ->
  (executeStatement statement authHeader baseUrl t).1
  = match json r with
    | inr v => Return v
    | inl msg => Throw (new SyntaxError msg)
    end.
Proof.
  intros N Hok. unfold executeStatement, bind, fetch. rewrite N, Hok. simpl.
  unfold response_json. destruct (json r); reflexivity.
Qed.

Lemma executeStatement_rejected (statement authHeader baseUrl : string) (t : Trace)
    (msg : string) :
  network t (statement_request statement authHeader baseUrl) = Rejected msg ->
  (executeStatement statement authHeader baseUrl t).1 = Throw (new TypeError msg).
Proof. intros N. unfold executeStatement, bind, fetch. now rewrite N. Qed.

Lemma includes_middle (pre sub post : string) :
  Str.includes sub (pre +:+ sub +:+ post).
Proof. now exists pre, post. Qed.

Lemma includes_end (pre sub : string) : Str.includes sub (pre +:+ sub).
Proof. exists pre, EmptyString. now rewrite append_empty_r. Qed.

Lemma includes_append_r (sub a b : string) :
  Str.includes sub b -> Str.includes sub (a +:+ b).
Proof.
  intros (pre & post & ->). exists (a +:+ pre), post. now rewrite append_assoc.
Qed.

(** C1: a response that is not 2xx makes [executeStatement] throw the
    error of the status table: 429 a retryable rate-limit error, 401, 403
    and 422 fatal errors (the last with the response body in its message),
    500 and above a retryable server error, everything else a fatal error
    whose message has the status, the reason and the body. *)
Theorem executeStatement_status_mapping
    (statement authHeader baseUrl : string) (t : Trace) (r : Response) :
  network t (statement_request statement authHeader baseUrl) = Resolved r ->
  ok r = false ->
  exists e,
    (executeStatement statement authHeader baseUrl t).1 = Throw e
    /\ (status r = 429 ->
        e = new RetryableError "Snowflake API rate limit exceeded")
    /\ (status r = 401 ->
        e = new FatalError "Invalid or expired authentication token")
    /\ (status r = 403 ->
        e = new FatalError "Insufficient permissions to execute statement")
    /\ (status r = 422 ->
        e = new FatalError ("Invalid SQL statement: " +:+ text r)
        /\ Str.includes (text r) (message e))
    /\ (500 <= status r ->
        e = new RetryableError ("Snowflake API server error: " +:+ Str.of_Z (status r)))
    /\ (status r < 500 -> ~ In (status r) [429; 401; 403; 422] ->
        e = new FatalError ("Failed to execute statement: " +:+ Str.of_Z (status r)
                            +:+ " " +:+ statusText r +:+ " - " +:+ text r)
        /\ Str.includes (Str.of_Z (status r)) (message e)
        /\ Str.includes (statusText r) (message e)
        /\ Str.includes (text r) (message e))
    /\ retryable e = Some ((status r =? 429) || (500 <=? status r)).
Proof.
  intros N Hok. unfold executeStatement, bind, fetch. rewrite N, Hok.
  cbn [negb]. unfold throw. cbn [fst].
  destruct (Z.eqb_spec (status r) 429) as [E1|E1];
    [eexists; split; [reflexivity |]; rewrite E1; cbn;
     repeat split; intros; try reflexivity; try lia; exfalso; cbn in *; lia |].
  destruct (Z.eqb_spec (status r) 401) as [E2|E2];
    [eexists; split; [reflexivity |]; rewrite E2; cbn;
     repeat split; intros; try reflexivity; try lia; exfalso; cbn in *; lia |].
  destruct (Z.eqb_spec (status r) 403) as [E3|E3];
    [eexists; split; [reflexivity |]; rewrite E3; cbn;
     repeat split; intros; try reflexivity; try lia; exfalso; cbn in *; lia |].
  destruct (Z.eqb_spec (status r) 422) as [E4|E4];
    [eexists; split; [reflexivity |]; rewrite E4; cbn;
     repeat split; intros; try reflexivity; try lia;
     try apply includes_end; exfalso; cbn in *; lia |].
  unfold Z.geb. destruct (Z.compare_spec (status r) 500) as [E5|E5|E5].
  - eexists; split; [reflexivity |].
    repeat split; intros; try reflexivity; try lia.
    cbn [retryable ctor new]. destruct (Z.leb_spec 500 (status r)); [reflexivity | lia].
  - eexists; split; [reflexivity |].
    repeat split; intros; try reflexivity; try lia.
    + cbn [message new]. apply includes_middle.
    + cbn [message new]. do 2 apply includes_append_r. apply includes_middle.
    + cbn [message new]. do 4 apply includes_append_r. apply includes_end.
    + cbn [retryable ctor new]. destruct (Z.leb_spec 500 (status r)); [lia | reflexivity].
  - eexists; split; [reflexivity |].
    repeat split; intros; try reflexivity; try lia.
    cbn [retryable ctor new]. destruct (Z.leb_spec 500 (status r)); [reflexivity | lia].
Qed.

(** ** Every function of the script only appends to the trace *)

Section ExtendsScript.
Context {P : list Event -> Prop} (HP : trace_closed P).
Hypothesis P_console : forall l args, P [Console l args].
Hypothesis P_sleep : forall ms, P [Sleep ms].
Hypothesis P_token : forall req out, P [Fetch TokenCall req out].
Hypothesis P_statement :
  forall statement authHeader baseUrl out,
    P [Fetch StatementCall (statement_request statement authHeader baseUrl) out].

Lemma extends_now_ISO : extends P now_ISO.
Proof. intros t. exists []. rewrite app_nil_r. split; [reflexivity | apply HP]. Qed.

Lemma extends_fetch_token (req : Request) : extends P (fetch TokenCall req).
Proof.
  intros t. exists [Fetch TokenCall req (network t req)]. unfold fetch.
  split; [destruct (network t req); reflexivity | apply P_token].
Qed.

Lemma extends_executeStatement (statement authHeader baseUrl : string) :
  extends P (executeStatement statement authHeader baseUrl).
Proof.
  intros t. eexists. split; [apply executeStatement_trace | apply P_statement].
Qed.

Ltac extends_tac :=
  unfold console_log, console_warn, console_error, sleep, response_json;
  repeat first
    [ apply (extends_ret HP) | apply (extends_throw HP) | apply (extends_lift HP)
    | apply extends_now_ISO | apply extends_fetch_token
    | apply extends_executeStatement
    | apply extends_emit; first [apply P_console | apply P_sleep]
    | apply (extends_bind HP); [| intros ?]
    | apply (extends_try_catch HP); [| intros ?]
    | match goal with
      | |- extends _ (if ?c then _ else _) => destruct c
      | |- extends _ (match ?x with _ => _ end) => destruct x
      | |- extends _ (let _ := _ in _) => cbv zeta
      end ].

Lemma extends_getClientCredentialsToken (config : TokenConfig) :
  extends P (getClientCredentialsToken config).
Proof. unfold getClientCredentialsToken. cbv zeta. extends_tac. Qed.

Lemma extends_getAuthorizationHeader (context : ExecContext) :
  extends P (getAuthorizationHeader context).
Proof.
  unfold getAuthorizationHeader. cbv zeta.
  repeat match goal with
         | |- extends _ (if ?c then _ else _) => destruct c
         end;
    try apply (extends_ret HP); try apply (extends_throw HP).
  apply (extends_bind HP); [apply extends_getClientCredentialsToken |].
  intros token. apply (extends_ret HP).
Qed.

Lemma extends_parseDuration (durationStr : JsValue) :
  extends P (parseDuration durationStr).
Proof. unfold parseDuration. extends_tac. Qed.

Lemma extends_invoke_try (resolvedParams : gmap string JsValue) (context : ExecContext) :
  extends P (invoke_try resolvedParams context).
Proof.
  unfold invoke_try. cbv zeta.
  unfold console_log, sleep.
  repeat first
    [ apply extends_getAuthorizationHeader | apply extends_parseDuration
    | apply extends_executeStatement | apply extends_now_ISO
    | apply (extends_ret HP) | apply (extends_lift HP)
    | apply extends_emit; first [apply P_console | apply P_sleep]
    | apply (extends_bind HP); [| intros ?] ].
Qed.

Lemma extends_invoke (params : gmap string JsValue) (context : ExecContext) :
  extends P (invoke params context).
Proof.
  unfold invoke. cbv zeta.
  apply (extends_bind HP); [apply extends_emit, P_console |]. intros _.
  apply (extends_bind HP).
  { destruct (0 <? _)%nat; [apply extends_emit, P_console | apply (extends_ret HP)]. }
  intros _. apply (extends_try_catch HP); [apply extends_invoke_try |].
  intros e. unfold invoke_catch.
  apply (extends_bind HP); [apply extends_emit, P_console |]. intros _.
  destruct (classified e); apply (extends_throw HP).
Qed.
End ExtendsScript.

(** C10: the token-type header is on every statement request.  The type
    [determineTokenType] answers is never empty (it is OAUTH even for the
    empty token), so the guard of [executeStatement] is always taken: the
    request it sends, and so every statement call of [invoke], carries the
    header with one of the two values. *)
Theorem token_type_header_always_sent :
  determineTokenType EmptyString = "OAUTH"
  /\ (forall authToken, ToBoolean (JStr (determineTokenType authToken)) = true)
  /\ (forall statement authHeader baseUrl,
        token_type_header (statement_request statement authHeader baseUrl)
        = Some (determineTokenType (Builtin.strip_bearer authHeader)))
  /\ (forall statement authHeader baseUrl t,
        exists out,
          (executeStatement statement authHeader baseUrl t).2
          = t ++ [Fetch StatementCall (statement_request statement authHeader baseUrl) out])
  /\ (forall params context t,
        exists evs,
          (invoke params context t).2 = t ++ evs
          /\ Forall (fun c => token_type_header c.1 = Some "KEYPAIR_JWT"
                              \/ token_type_header c.1 = Some "OAUTH")
                    (statement_calls evs)).
Proof.
  split; [reflexivity |].
  split; [apply determineTokenType_truthy |].
  split; [apply statement_request_header |].
  split; [intros; eexists; apply executeStatement_trace |].
  intros params context.
  apply (extends_invoke
           (P := fun evs =>
                   Forall (fun c => token_type_header c.1 = Some "KEYPAIR_JWT"
                                    \/ token_type_header c.1 = Some "OAUTH")
                          (statement_calls evs))).
  - split; [constructor |].
    intros a b Ha Hb. rewrite statement_calls_app. apply Forall_app. now split.
  - intros l args. constructor.
  - intros ms. constructor.
  - intros req out. constructor.
  - intros statement authHeader baseUrl out. cbn [statement_calls].
    constructor; [| constructor]. cbn [fst].
    rewrite statement_request_header, determineTokenType_cases.
    destruct (_ =? 3)%nat; auto.
Qed.

(** ** [invoke]: the error path *)

Lemma invoke_unfold (params : gmap string JsValue) (context : ExecContext) (t : Trace) :
  invoke params context t
  = try_catch
      (invoke_try (resolveJSONPathTemplates params (js_or (data context) (JObj []))).1
                  context)
      invoke_catch (at_try params context t).
Proof.
  unfold invoke, at_try, bind, console_log, console_warn, emit. cbv zeta.
  destruct (0 <? _)%nat; [reflexivity |].
  unfold ret. now rewrite app_nil_r.
Qed.

Lemma invoke_catch_outcome (e : Exn) (t : Trace) :
  invoke_catch e t
  = (Throw (if classified e then e
            else new FatalError ("Unexpected error: " +:+ message e)),
     t ++ [Console LError [JStr ("Error revoking Snowflake sessions: " +:+ message e)]]).
Proof.
  unfold invoke_catch, bind, console_error, emit, throw.
  now destruct (classified e).
Qed.

(** C8: every error [invoke] throws has the [retryable] flag.  An error of
    the [try] block that is a [RetryableError] or a [FatalError] is thrown
    again as it is; any other is replaced by a [FatalError] (flag false)
    whose message is "Unexpected error: " and the message of the
    original. *)
Theorem invoke_errors_classified
    (params : gmap string JsValue) (context : ExecContext) (t : Trace) :
  let resolvedParams :=
    (resolveJSONPathTemplates params (js_or (data context) (JObj []))).1 in
  match (invoke_try resolvedParams context (at_try params context t)).1 with
  | Return r => (invoke params context t).1 = Return r
  | Throw e =>
      (invoke params context t).1
      = Throw (if classified e then e
               else new FatalError ("Unexpected error: " +:+ message e))
      /\ (ctor e = RetryableError -> (invoke params context t).1 = Throw e)
      /\ (ctor e = FatalError -> (invoke params context t).1 = Throw e)
      /\ (classified e = false ->
          exists e', (invoke params context t).1 = Throw e'
                     /\ ctor e' = FatalError /\ retryable e' = Some false
                     /\ message e' = "Unexpected error: " +:+ message e)
  end
  /\ match (invoke params context t).1 with
     | Return _ => True
     | Throw e => exists b, retryable e = Some b
     end.
Proof.
  intros resolvedParams. rewrite invoke_unfold. fold resolvedParams.
  unfold try_catch.
  destruct (invoke_try resolvedParams context (at_try params context t))
    as [[r|e] t1]; cbn [fst]; [split; [reflexivity | exact I] |].
  rewrite invoke_catch_outcome. cbn [fst].
  unfold classified, retryable.
  destruct e as [[] msg]; cbn; repeat split; intros; try discriminate; eauto.
Qed.

(** ** [validateInputs] *)

Lemma rev_onto_empty (s acc : string) :
  Str.rev_onto s acc = EmptyString -> s = EmptyString /\ acc = EmptyString.
Proof.
  revert acc. induction s as [|c s IH]; intros acc H; [now split |].
  apply IH in H as [_ H]. discriminate.
Qed.

Lemma all_rev_onto (p : ascii -> bool) (s acc : string) :
  Str.all p (Str.rev_onto s acc) = Str.all p s && Str.all p acc.
Proof.
  revert acc. induction s as [|c s IH]; intros acc; [reflexivity |].
  cbn [Str.rev_onto Str.all]. rewrite IH. cbn [Str.all].
  destruct (p c), (Str.all p s), (Str.all p acc); reflexivity.
Qed.

Lemma dropWhile_empty (p : ascii -> bool) (s : string) :
  Str.dropWhile p s = EmptyString -> Str.all p s = true.
Proof.
  induction s as [|c s IH]; [reflexivity |].
  cbn. destruct (p c); [exact IH | discriminate].
Qed.

Lemma dropWhile_head (p : ascii -> bool) (s : string) (c : ascii) (r : string) :
  Str.dropWhile p s = String c r -> p c = false.
Proof.
  induction s as [|x s IH]; [discriminate |].
  cbn. destruct (p x) eqn:E; [exact IH |].
  intros [= -> _]. exact E.
Qed.

(** A string that trims to nothing is all white space. *)
Lemma trim_empty (s : string) :
  Str.trim s = EmptyString -> Str.all Str.is_white s = true.
Proof.
  unfold Str.trim, Str.trimEnd, Str.trimStart, Str.rev. intros H.
  apply rev_onto_empty in H as [H _]. apply dropWhile_empty in H.
  rewrite all_rev_onto in H. apply andb_prop in H as [H _].
  destruct (Str.dropWhile Str.is_white s) as [|c r] eqn:E.
  - now apply dropWhile_empty.
  - apply dropWhile_head in E. cbn in H. now rewrite E in H.
Qed.

Lemma all_count (p : ascii -> bool) (c : ascii) (s : string) :
  p c = false -> Str.all p s = true -> Str.count c s = 0%nat.
Proof.
  intros Hc. induction s as [|x s IH]; [reflexivity |].
  cbn. intros H. apply andb_prop in H as [Hx Hs].
  destruct (Ascii.eqb_spec x c) as [->|_]; [congruence | now apply IH].
Qed.

Lemma validateInputs_invalid (params : gmap string JsValue) :
  invalid_username (params !! "username") ->
  validateInputs params = Throw (new FatalError "Invalid or missing username parameter").
Proof.
  unfold validateInputs, prop, invalid_username.
  destruct (params !! "username") as [[| |b|x|s|l|l]|]; cbn; intros H;
    try reflexivity.
  - now destruct b.
  - now rewrite orb_true_r.
  - rewrite H. now destruct s.
Qed.

(** C3: when the [username] of [params] is missing, is not a string or is
    blank after trimming, [invoke] throws the [FatalError] (not retryable)
    with the fixed message, and what it adds to the trace has no call of
    [fetch]: neither a statement call nor a token call was made. *)
Theorem invoke_rejects_invalid_username
    (params : gmap string JsValue) (context : ExecContext) (t : Trace) :
  invalid_username (params !! "username") ->
  (invoke params context t).1
  = Throw (new FatalError "Invalid or missing username parameter")
  /\ retryable (new FatalError "Invalid or missing username parameter") = Some false
  /\ exists evs, (invoke params context t).2 = t ++ evs /\ no_fetch evs.
Proof.
  intros Hinv. rewrite invoke_unfold.
  set (resolvedParams := (resolveJSONPathTemplates params _).1).
  assert (Hres : invalid_username (resolvedParams !! "username")).
  { destruct (is_string (prop resolvedParams "username")) eqn:Es.
    - pose proof (resolve_string_only _ _ _ Es) as Ep.
      unfold prop in Ep. destruct (params !! "username") as [[]|] eqn:Eu; try discriminate.
      cbn in Hinv. unfold resolvedParams.
      erewrite resolve_plain; [exact Hinv | exact Eu |].
      apply (all_count Str.is_white); [reflexivity | now apply trim_empty].
    - unfold prop in Es. now destruct (resolvedParams !! "username") as [[]|]. }
  unfold try_catch, invoke_try, bind, lift.
  rewrite (validateInputs_invalid _ Hres), invoke_catch_outcome. cbn [fst snd classified ctor new].
  split; [reflexivity |]. split; [reflexivity |].
  unfold at_try. eexists. rewrite <- !app_assoc. split; [reflexivity |].
  unfold no_fetch. destruct (0 <? _)%nat; repeat constructor.
Qed.

(** ** [parseDuration] *)

Lemma is_empty_false (s : string) : Str.is_empty s = false -> s <> EmptyString.
Proof. now destruct s. Qed.

Lemma takeWhile_dropWhile (p : ascii -> bool) (s : string) :
  Str.takeWhile p s +:+ Str.dropWhile p s = s.
Proof.
  induction s as [|c s IH]; [reflexivity |].
  cbn. destruct (p c); [| reflexivity].
  rewrite append_cons. now f_equal.
Qed.

Lemma all_takeWhile (p : ascii -> bool) (s : string) :
  Str.all p (Str.takeWhile p s) = true.
Proof.
  induction s as [|c s IH]; [reflexivity |].
  cbn. destruct (p c) eqn:E; [| reflexivity]. cbn. now rewrite E.
Qed.

Lemma takeWhile_append (p : ascii -> bool) (a x : string) :
  Str.all p a = true -> stops p x ->
  Str.takeWhile p (a +:+ x) = a /\ Str.dropWhile p (a +:+ x) = x.
Proof.
  intros Ha Hx. induction a as [|c a IH].
  - change (EmptyString +:+ x) with x.
    destruct x as [|d x]; [now split |].
    cbn [Str.takeWhile Str.dropWhile stops] in *. now rewrite Hx.
  - cbn [Str.all] in Ha. apply andb_prop in Ha as [Hc Ha].
    destruct (IH Ha) as [IH1 IH2].
    rewrite append_cons. cbn [Str.takeWhile Str.dropWhile]. rewrite Hc.
    split; [now f_equal | exact IH2].
Qed.

Lemma match_unit_Some (s : string) :
  Builtin.match_unit s <> None <->
  In (Str.toLowerCase s) [EmptyString; "ms"; "s"; "m"; "h"].
Proof.
  unfold Builtin.match_unit.
  destruct s as [|c s]; [split; [now left | discriminate] |].
  cbn [Str.is_empty In].
  set (l := Str.toLowerCase (String c s)).
  assert (N : EmptyString <> l) by discriminate.
  destruct (String.eqb_spec l "ms") as [E|E1];
    [split; [intros _; rewrite E; auto 6 | discriminate] |].
  destruct (String.eqb_spec l "s") as [E|E2];
    [split; [intros _; rewrite E; auto 6 | discriminate] |].
  destruct (String.eqb_spec l "m") as [E|E3];
    [split; [intros _; rewrite E; auto 6 | discriminate] |].
  destruct (String.eqb_spec l "h") as [E|E4];
    [split; [intros _; rewrite E; auto 6 | discriminate] |].
  cbn [orb]. split; [congruence |].
  intros [H|[H|[H|[H|[H|[]]]]]]; congruence.
Qed.

Lemma lower_letter (c : ascii) :
  In (Str.lower c) ["m"; "s"; "h"]%char ->
  Str.is_digit c = false /\ c <> "."%char.
Proof.
  destruct c as [[] [] [] [] [] [] [] []]; vm_compute; intuition discriminate.
Qed.

(** A unit does not begin with a digit or a dot. *)
Lemma unit_head (u : string) :
  In (Str.toLowerCase u) [EmptyString; "ms"; "s"; "m"; "h"] ->
  stops Str.is_digit u
  /\ match u with String "."%char _ => False | _ => True end.
Proof.
  destruct u as [|c u]; [now split |]. cbn [Str.toLowerCase In stops].
  intros H.
  assert (L : In (Str.lower c) ["m"; "s"; "h"]%char).
  { cbn [In]. destruct H as [H|[H|[H|[H|[H|[]]]]]]; try discriminate;
      injection H as H _; auto. }
  destruct (lower_letter c L) as [Hd Hp]. split; [exact Hd |].
  destruct c as [[] [] [] [] [] [] [] []]; try exact I. now contradiction Hp.
Qed.

(** The regular expression of [parseDuration] accepts the duration syntax
    and nothing else. *)
Lemma match_duration_syntax (s : string) :
  Builtin.match_duration s <> None <-> duration_syntax s.
Proof.
  unfold Builtin.match_duration, duration_syntax, digits1. split.
  - pose proof (takeWhile_dropWhile Str.is_digit s) as Hs.
    pose proof (all_takeWhile Str.is_digit s) as Hi.
    destruct (Str.is_empty (Str.takeWhile Str.is_digit s)) eqn:Ei; [congruence |].
    apply is_empty_false in Ei.
    destruct (Str.dropWhile Str.is_digit s) as [|c rest] eqn:Er.
    + intros _. exists (Str.takeWhile Str.is_digit s), EmptyString, EmptyString.
      rewrite <- Hs at 1. cbn. auto 10.
    + destruct (Ascii.eqb_spec c ".") as [->|Hc].
      * pose proof (takeWhile_dropWhile Str.is_digit rest) as Hs'.
        pose proof (all_takeWhile Str.is_digit rest) as Hf.
        destruct (Str.is_empty (Str.takeWhile Str.is_digit rest)) eqn:Ef; [congruence |].
        apply is_empty_false in Ef.
        destruct (Builtin.match_unit (Str.dropWhile Str.is_digit rest)) eqn:Eu; [| congruence].
        intros _.
        exists (Str.takeWhile Str.is_digit s),
               ("." +:+ Str.takeWhile Str.is_digit rest),
               (Str.dropWhile Str.is_digit rest).
        split; [| split; [auto | split]].
        -- rewrite <- Hs at 1. f_equal. rewrite append_assoc, Hs'. reflexivity.
        -- right. eauto.
        -- apply match_unit_Some. congruence.
      * intros H.
        assert (Hu : Builtin.match_unit (String c rest) <> None).
        { destruct c as [[] [] [] [] [] [] [] []];
            now destruct (Builtin.match_unit _). }
        exists (Str.takeWhile Str.is_digit s), EmptyString, (String c rest).
        split; [rewrite <- Hs at 1; reflexivity |].
        split; [auto |]. split; [auto |]. now apply match_unit_Some.
  - intros (int & frac & unit & -> & [Hne Hall] & Hfrac & Hunit).
    destruct (unit_head unit Hunit) as [Hstop Hdot].
    apply match_unit_Some in Hunit.
    destruct Hfrac as [->|(f & -> & Hfne & Hfall)].
    + change (EmptyString +:+ unit) with unit.
      destruct (takeWhile_append Str.is_digit int unit Hall Hstop) as [-> ->].
      destruct int; [contradiction | cbn [Str.is_empty]].
      destruct unit as [|c u].
      * now destruct (Builtin.match_unit EmptyString).
      * destruct c as [[] [] [] [] [] [] [] []];
          now destruct (Builtin.match_unit _).
    + assert (Hstop' : stops Str.is_digit (("." +:+ f) +:+ unit)) by reflexivity.
      destruct (takeWhile_append Str.is_digit int _ Hall Hstop') as [-> ->].
      destruct int; [contradiction | cbn [Str.is_empty]].
      rewrite append_assoc. change ("." +:+ f +:+ unit) with (String "." (f +:+ unit)).
      cbv iota beta.
      destruct (takeWhile_append Str.is_digit f unit Hfall Hstop) as [-> ->].
      destruct f; [contradiction | cbn [Str.is_empty]].
      now destruct (Builtin.match_unit unit).
Qed.


(** C4: on its input, an optional string, [parseDuration] always returns a
    number and never throws.  It maps 100ms to 100, 2s to 2000, 1m to 60000
    and 1h to 3600000; a missing or empty input to the default 100; and a
    string outside the duration syntax to 100 as well, after a warning on
    the console. *)
Theorem parseDuration_total :
  (forall t, parseDuration (JStr "100ms") t = (Return 100%float, t))
  /\ (forall t, parseDuration (JStr "2s") t = (Return 2000%float, t))
  /\ (forall t, parseDuration (JStr "1m") t = (Return 60000%float, t))
  /\ (forall t, parseDuration (JStr "1h") t = (Return 3600000%float, t))
  /\ (forall t, parseDuration JUndefined t = (Return 100%float, t))
  /\ (forall t, parseDuration JNull t = (Return 100%float, t))
  /\ (forall t, parseDuration (JStr EmptyString) t = (Return 100%float, t))
  /\ (forall s t,
        s <> EmptyString -> ~ duration_syntax s ->
        parseDuration (JStr s) t
        = (Return 100%float,
           t ++ [Console LWarn
                   [JStr ("Invalid duration format: " +:+ s +:+ ", using default 100ms")]]))
  /\ (forall s t, exists x, (parseDuration (JStr s) t).1 = Return x)
  /\ (forall s t, duration_syntax s -> (parseDuration (JStr s) t).2 = t).
Proof.
  do 7 (split; [intros t; vm_compute; reflexivity |]).
  split; [| split].
  - intros s t Hne Hsyn. unfold parseDuration.
    destruct s as [|c s]; [contradiction |]. cbn [ToBoolean Str.is_empty negb].
    destruct (Builtin.match_duration (String c s)) eqn:E; [| reflexivity].
    exfalso. apply Hsyn, match_duration_syntax. congruence.
  - intros s t. unfold parseDuration.
    destruct (negb (ToBoolean (JStr s))); [now eexists |].
    destruct (Builtin.match_duration s) as [[m1 m2]|]; [| now eexists].
    cbv zeta.
    repeat match goal with
           | |- context [if ?c then _ else _] => destruct c
           end; now eexists.
  - intros s t Hsyn. apply match_duration_syntax in Hsyn. unfold parseDuration.
    destruct (negb (ToBoolean (JStr s))); [reflexivity |].
    destruct (Builtin.match_duration s) as [[m1 m2]|]; [| contradiction].
    cbv zeta.
    repeat match goal with
           | |- context [if ?c then _ else _] => destruct c
           end; reflexivity.
Qed.


(** ** [getAuthorizationHeader] *)

Lemma getAuthorizationHeader_resolve (context : ExecContext) (t : Trace) :
  getAuthorizationHeader context t = resolve_by_priority context t.
Proof.
  unfold getAuthorizationHeader, resolve_by_priority, auth_methods.
  cbn [find has_credentials]. cbv zeta.
  destruct (truthy (default ∅ (secrets context) !! "BEARER_AUTH_TOKEN")); [reflexivity |].
  destruct (truthy (default ∅ (secrets context) !! "BASIC_PASSWORD")),
           (truthy (default ∅ (secrets context) !! "BASIC_USERNAME")); try reflexivity.
  all: destruct (truthy (default ∅ (secrets context) !! "OAUTH2_AUTHORIZATION_CODE_ACCESS_TOKEN"));
    [reflexivity |].
  all: destruct (truthy (default ∅ (secrets context) !! "OAUTH2_CLIENT_CREDENTIALS_CLIENT_SECRET"));
    reflexivity.
Qed.

Lemma truthy_Some (s : string) : s <> EmptyString -> truthy (Some s) = true.
Proof. now destruct s. Qed.

Lemma getAuthorizationHeader_bearer
    (context : ExecContext) (t : Trace) (m : gmap string string) (token : string) :
  secrets context = Some m ->
  m !! "BEARER_AUTH_TOKEN" = Some token ->
  token <> EmptyString ->
  getAuthorizationHeader context t = (Return (bearer token), t).
Proof.
  intros Hs Hm Hne. unfold getAuthorizationHeader. cbv zeta.
  rewrite Hs. change (default ∅ (Some m)) with m.
  rewrite Hm, (truthy_Some _ Hne). reflexivity.
Qed.

(** C5 (amended): the resolver is the priority chain bearer, basic,
    authorization-code token, client credentials, in which the first method
    whose secrets are there and are not empty wins.  In particular a bearer
    secret that is not empty wins over any basic-auth secrets. *)
Theorem getAuthorizationHeader_priority (context : ExecContext) (t : Trace) :
  getAuthorizationHeader context t = resolve_by_priority context t
  /\ (forall m token user password,
        secrets context = Some m ->
        m !! "BEARER_AUTH_TOKEN" = Some token -> token <> EmptyString ->
        m !! "BASIC_USERNAME" = Some user ->
        m !! "BASIC_PASSWORD" = Some password ->
        getAuthorizationHeader context t = (Return (bearer token), t))
  /\ (forall m, find (has_credentials context) auth_methods = Some m ->
                getAuthorizationHeader context t = header_of context m t)
  /\ (find (has_credentials context) auth_methods = None ->
      exists msg, getAuthorizationHeader context t = (Throw (new Error msg), t)).
Proof.
  split; [apply getAuthorizationHeader_resolve |].
  split; [intros; now apply (getAuthorizationHeader_bearer _ _ m) |].
  rewrite getAuthorizationHeader_resolve. unfold resolve_by_priority.
  split; [now intros m -> | intros ->; now eexists].
Qed.

Lemma bearer_idempotent (token : string) : bearer (bearer token) = bearer token.
Proof.
  unfold bearer. destruct (Str.startsWith "Bearer " token) eqn:E; [now rewrite E |].
  reflexivity.
Qed.

(** C6 (amended): prefixing is idempotent, and for every bearer secret that
    is not empty the resolver returns the secret unchanged when it starts
    with "Bearer " and "Bearer " followed by the secret otherwise. *)
Theorem bearer_prefixing
    (context : ExecContext) (t : Trace) (m : gmap string string) (token : string) :
  secrets context = Some m ->
  m !! "BEARER_AUTH_TOKEN" = Some token ->
  token <> EmptyString ->
  (Str.startsWith "Bearer " token = true ->
   getAuthorizationHeader context t = (Return token, t))
  /\ (Str.startsWith "Bearer " token = false ->
      getAuthorizationHeader context t = (Return ("Bearer " +:+ token), t))
  /\ bearer (bearer token) = bearer token.
Proof.
  intros Hs Hm Hne.
  rewrite (getAuthorizationHeader_bearer _ _ _ _ Hs Hm Hne). unfold bearer at 1 2.
  split; [now intros -> |]. split; [now intros -> | apply bearer_idempotent].
Qed.

(** ** [error] *)

(** The handler throws the error it was given, after one line on the
    console. *)
Lemma error_rethrows (e : Exn) (context : ExecContext) (t : Trace) :
  error e context t
  = (Throw e, t ++ [Console LError [JStr ("Error handler invoked: " +:+ message e)]]).
Proof. reflexivity. Qed.

(** ** [halt] *)

(** C9 (amended): [halt] logs the reason and returns the record of
    [username], [reason], the time of the halt and [cleanupCompleted] set;
    [username] is the one given when that is truthy, and "unknown" when it is
    missing or falsy (the empty string, [null], [false], zero), and the same
    holds of [reason]. *)
Theorem halt_result (params : gmap string JsValue) (context : ExecContext) (t : Trace) :
  let t' :=
    t ++ [Console LLog
            [JStr ("Job is being halted (" +:+ ToString (prop params "reason") +:+ ")")]] in
  halt params context t
  = (Return {| HaltResult.username := js_or (prop params "username") (JStr "unknown");
               HaltResult.reason := js_or (prop params "reason") (JStr "unknown");
               HaltResult.haltedAt := Date.toISOString (clock t');
               HaltResult.cleanupCompleted := true |}, t')
  /\ (forall u, params !! "username" = Some u -> ToBoolean u = true ->
                js_or (prop params "username") (JStr "unknown") = u)
  /\ (params !! "username" = None ->
      js_or (prop params "username") (JStr "unknown") = JStr "unknown")
  /\ (forall u, params !! "username" = Some u -> ToBoolean u = false ->
                js_or (prop params "username") (JStr "unknown") = JStr "unknown")
  /\ (params !! "username" = Some (JStr "bob") ->
      params !! "reason" = Some (JStr "timeout") ->
      exists at_, (halt params context t).1
                  = Return {| HaltResult.username := JStr "bob";
                              HaltResult.reason := JStr "timeout";
                              HaltResult.haltedAt := Date.toISOString at_;
                              HaltResult.cleanupCompleted := true |})
  /\ (0 <= clock t' < Date.year10000 ->
      Date.is_iso8601 (Date.toISOString (clock t')) = true).
Proof.
  intros t'. split; [reflexivity |].
  unfold js_or, prop.
  split; [intros u -> Hu; cbn; now rewrite Hu |].
  split; [now intros -> |].
  split; [intros u -> Hu; cbn; now rewrite Hu |].
  split; [| apply toISOString_iso8601].
  intros Hu Hr. eexists. unfold halt, bind, console_log, emit, now_ISO, ret.
  cbn [fst]. unfold js_or, prop. rewrite Hu, Hr. reflexivity.
Qed.


(** ** [invoke]: the successful path *)

Lemma bind_emit {B} (e : Event) (k : unit -> M B) (t : Trace) :
  bind (emit e) k t = k tt (t ++ [e]).
Proof. reflexivity. Qed.

Lemma bind_lift {B A} (o : Outcome A) (k : A -> M B) (t : Trace) :
  bind (lift o) k t = match o with
                      | Return a => k a t
                      | Throw e => (Throw e, t)
                      end.
Proof. unfold bind, lift. now destruct o. Qed.

Lemma bind_now_ISO {B} (k : string -> M B) (t : Trace) :
  bind now_ISO k t = k (Date.toISOString (clock t)) t.
Proof. reflexivity. Qed.

Lemma bind_Return {A B} (m : M A) (k : A -> M B) (t t' : Trace) (a : A) :
  m t = (Return a, t') -> bind m k t = k a t'.
Proof. intros E. unfold bind. now rewrite E. Qed.

Lemma bind_Throw {A B} (m : M A) (k : A -> M B) (t t' : Trace) (e : Exn) :
  m t = (Throw e, t') -> bind m k t = (Throw e, t').
Proof. intros E. unfold bind. now rewrite E. Qed.

Lemma quiet_closed : trace_closed quiet.
Proof.
  split; [reflexivity |].
  unfold quiet. intros a b Ha Hb. now rewrite statement_calls_app, Ha, Hb.
Qed.

Lemma quiet_getAuthorizationHeader (context : ExecContext) :
  extends quiet (getAuthorizationHeader context).
Proof. apply (extends_getAuthorizationHeader quiet_closed). reflexivity. Qed.

Lemma quiet_parseDuration (durationStr : JsValue) :
  extends quiet (parseDuration durationStr).
Proof. apply (extends_parseDuration quiet_closed). reflexivity. Qed.


Lemma validateInputs_alice (params : gmap string JsValue) :
  params !! "username" = Some (JStr "alice") -> validateInputs params = Return tt.
Proof. unfold validateInputs, prop. now intros ->. Qed.

Ltac step EX E a e t' :=
  match type of EX with
  | _ = bind ?m ?k ?t =>
      destruct (m t) as [[a | e] t'] eqn:E;
      [ rewrite (bind_Return m k t t' a E) in EX
      | rewrite (bind_Throw m k t t' e E) in EX ]
  end.

Ltac calls H :=
  cbn [snd] in H; unfold quiet in *;
  rewrite ?statement_calls_app in H; cbn [statement_calls] in H;
  repeat match goal with
         | Q : statement_calls _ = [] |- _ => rewrite Q in H
         end;
  rewrite ?app_nil_r in H.

Ltac too_few H :=
  calls H; apply (f_equal (@length _)) in H; rewrite ?length_app in H;
  cbn [length] in H; lia.

Lemma invoke_try_two_calls
    (resolvedParams : gmap string JsValue) (context : ExecContext) (t0 : Trace)
    (req1 req2 : Request) (r1 r2 : Response) (o1 o2 : list (string * JsValue)) :
  resolvedParams !! "username" = Some (JStr "alice") ->
  statement_calls (invoke_try resolvedParams context t0).2
  = statement_calls t0 ++ [(req1, Resolved r1); (req2, Resolved r2)] ->
  status r1 = 200 -> json r1 = inr (JObj o1) -> assoc "statementHandle" o1 = JStr "h1" ->
  status r2 = 200 -> json r2 = inr (JObj o2) -> assoc "statementHandle" o2 = JStr "h2" ->
  exists t1,
    invoke_try resolvedParams context t0
    = (Return {| username := JStr "alice";
                 sessionsRevoked := true;
                 userDisabled := JStr "h1";
                 userReEnabled := JStr "h2";
                 revokedAt := Date.toISOString (clock t1) |},
       t1 ++ [Console LLog [JStr "Successfully revoked sessions for user: alice"]]).
Proof.
  intros Hu H S1 J1 A1 S2 J2 A2.
  remember (invoke_try resolvedParams context t0) as X eqn:EX.
  unfold invoke_try in EX. cbv zeta in EX. unfold console_log, sleep in EX.
  assert (Hp : prop resolvedParams "username" = JStr "alice")
    by (unfold prop; now rewrite Hu).
  rewrite Hp in EX. cbn [ToString] in EX.
  rewrite bind_lift, (validateInputs_alice _ Hu), bind_emit in EX.
  match type of EX with
  | _ = bind (getAuthorizationHeader ?c) _ ?t =>
      destruct (quiet_getAuthorizationHeader c t) as (evsA & EA & QA)
  end.
  step EX E authHeader e t2; cbn [snd] in EA; subst t2; [| subst X; too_few H].
  rewrite bind_lift in EX.
  destruct (getBaseURL resolvedParams context) as [baseUrl|e]; [| subst X; too_few H].
  match type of EX with
  | _ = bind (parseDuration ?d) _ ?t =>
      destruct (quiet_parseDuration d t) as (evsD & ED & QD)
  end.
  step EX E' delayMs e t3; cbn [snd] in ED; subst t3; [| subst X; too_few H].
  rewrite bind_emit in EX.
  match type of EX with
  | _ = bind (executeStatement ?s ?a ?b) _ ?t =>
      pose proof (executeStatement_trace s a b t) as T1; cbv zeta in T1
  end.
  step EX E1 disableResult e t4; cbn [snd] in T1; subst t4; [| subst X; too_few H].
  rewrite !bind_emit in EX.
  match type of EX with
  | _ = bind (executeStatement ?s ?a ?b) _ ?t =>
      pose proof (executeStatement_trace s a b t) as T2; cbv zeta in T2
  end.
  assert (Ok1 : ok r1 = true) by (unfold ok; now rewrite S1).
  assert (Ok2 : ok r2 = true) by (unfold ok; now rewrite S2).
  step EX E2 enableResult e t5; cbn [snd] in T2; subst t5.
  - match type of EX with _ = bind _ _ ?t => set (t7 := t) in * end.
    assert (HX : statement_calls X.2 = statement_calls t7).
    { subst X. rewrite bind_lift.
      destruct (member disableResult "statementHandle"); [| reflexivity].
      rewrite bind_lift.
      destruct (member enableResult "statementHandle"); [| reflexivity].
      rewrite bind_now_ISO, bind_emit. unfold ret. cbn [snd].
      rewrite statement_calls_app. apply app_nil_r. }
    rewrite HX in H. subst t7. calls H. rewrite <- app_assoc in H. cbn [app] in H.
    apply app_inv_head in H. injection H as _ N1 _ N2.
    pose proof (executeStatement_resolved _ _ _ _ _ N1 Ok1) as R1.
    rewrite E1, J1 in R1. injection R1 as ->.
    pose proof (executeStatement_resolved _ _ _ _ _ N2 Ok2) as R2.
    rewrite E2, J2 in R2. injection R2 as ->.
    rewrite bind_lift in EX. cbn [member] in EX. rewrite bind_lift in EX.
    cbn [member] in EX. rewrite A1, A2, bind_now_ISO, bind_emit in EX.
    subst X. eexists. reflexivity.
  - subst X. calls H. rewrite <- app_assoc in H. cbn [app] in H.
    apply app_inv_head in H. injection H as _ N1 _ N2.
    pose proof (executeStatement_resolved _ _ _ _ _ N2 Ok2) as R2.
    rewrite E2, J2 in R2. discriminate R2.
Qed.


Lemma at_try_calls (params : gmap string JsValue) (context : ExecContext) (t : Trace) :
  statement_calls (at_try params context t) = statement_calls t.
Proof.
  unfold at_try. cbv zeta. rewrite !statement_calls_app.
  destruct (0 <? _)%nat; cbn [statement_calls]; now rewrite !app_nil_r.
Qed.

Lemma try_catch_calls (m : M Result) (t : Trace) :
  statement_calls (try_catch m invoke_catch t).2 = statement_calls (m t).2.
Proof.
  unfold try_catch. destruct (m t) as [[r|e] t']; [reflexivity |].
  rewrite invoke_catch_outcome. cbn [snd]. rewrite statement_calls_app. apply app_nil_r.
Qed.

(** C2: when the username is alice and the two statement calls of the run
    are answered with status 200, the first with a JSON object whose
    [statementHandle] is h1 and the second with one whose [statementHandle]
    is h2, [invoke] returns the record with that username, [sessionsRevoked]
    set, the two handles, and the time at which the result was built as an
    ISO-8601 string (of the shape YYYY-MM-DDTHH:mm:ss.sssZ for a clock
    between 1970 and 9999). *)
Theorem invoke_end_to_end
    (params : gmap string JsValue) (context : ExecContext) (t : Trace)
    (req1 req2 : Request) (r1 r2 : Response) (o1 o2 : list (string * JsValue)) :
  params !! "username" = Some (JStr "alice") ->
  statement_calls (invoke params context t).2
  = statement_calls t ++ [(req1, Resolved r1); (req2, Resolved r2)] ->
  status r1 = 200 -> json r1 = inr (JObj o1) -> assoc "statementHandle" o1 = JStr "h1" ->
  status r2 = 200 -> json r2 = inr (JObj o2) -> assoc "statementHandle" o2 = JStr "h2" ->
  exists t1,
    invoke params context t
    = (Return {| username := JStr "alice";
                 sessionsRevoked := true;
                 userDisabled := JStr "h1";
                 userReEnabled := JStr "h2";
                 revokedAt := Date.toISOString (clock t1) |},
       t1 ++ [Console LLog [JStr "Successfully revoked sessions for user: alice"]])
    /\ (0 <= clock t1 < Date.year10000 ->
        Date.is_iso8601 (Date.toISOString (clock t1)) = true).
Proof.
  intros Hu H S1 J1 A1 S2 J2 A2.
  rewrite invoke_unfold in H |- *.
  rewrite try_catch_calls, <- (at_try_calls params context t) in H.
  assert (Hr : (resolveJSONPathTemplates params (js_or (data context) (JObj []))).1
               !! "username" = Some (JStr "alice"))
    by (now apply resolve_plain).
  destruct (invoke_try_two_calls _ _ _ _ _ _ _ _ _ Hr H S1 J1 A1 S2 J2 A2) as (t1 & E).
  exists t1. split; [unfold try_catch; now rewrite E | apply toISOString_iso8601].
Qed.


(** ** [validateInputs]: what it accepts *)

Lemma dropWhile_all (p : ascii -> bool) (s : string) :
  Str.all p s = true -> Str.dropWhile p s = EmptyString.
Proof.
  induction s as [|c s IH]; [reflexivity |].
  cbn. destruct (p c); [exact IH | discriminate].
Qed.

Lemma trim_blank (s : string) :
  Str.all Str.is_white s = true -> Str.trim s = EmptyString.
Proof.
  intros H. unfold Str.trim, Str.trimEnd, Str.trimStart.
  now rewrite (dropWhile_all _ _ H).
Qed.

(** X1: [validateInputs] accepts a username exactly when it is a string
    with a character that is not white space, and throws its [FatalError]
    in every other case. *)
Theorem validateInputs_accepts_iff (params : gmap string JsValue) :
  (validateInputs params = Return tt <->
   exists s, params !! "username" = Some (JStr s) /\ Str.all Str.is_white s = false)
  /\ (validateInputs params = Return tt
      \/ validateInputs params
         = Throw (new FatalError "Invalid or missing username parameter")).
Proof.
  assert (C : (exists s, params !! "username" = Some (JStr s)
                         /\ Str.all Str.is_white s = false)
              \/ invalid_username (params !! "username")).
  { destruct (params !! "username") as [[| |b|x|s|l|l]|]; cbn; auto.
    destruct (Str.all Str.is_white s) eqn:A; [right; now apply trim_blank |].
    left. now exists s. }
  destruct C as [(s & Hs & A)|Hinv].
  - assert (V : validateInputs params = Return tt).
    { unfold validateInputs, prop. rewrite Hs. cbn.
      destruct s as [|c s]; [discriminate |]. cbn [Str.is_empty negb orb].
      destruct (Str.trim (String c s)) eqn:T; [| reflexivity].
      apply trim_empty in T. congruence. }
    rewrite V. split; [| now left]. split; [intros _; now exists s | reflexivity].
  - rewrite (validateInputs_invalid _ Hinv). split; [| now right].
    split; [discriminate |]. intros (s & Hs & A). rewrite Hs in Hinv. cbn in Hinv.
    apply trim_empty in Hinv. congruence.
Qed.

(** ** [getBaseUrl] *)

Lemma rev_onto_app (s x acc : string) :
  Str.rev_onto (s +:+ x) acc = Str.rev_onto x (Str.rev_onto s acc).
Proof.
  revert acc. induction s as [|c s IH]; intros acc; [reflexivity |].
  rewrite append_cons. cbn [Str.rev_onto]. apply IH.
Qed.

Lemma rev_snoc (s : string) (c : ascii) :
  Str.rev (s +:+ String c EmptyString) = String c (Str.rev s).
Proof. unfold Str.rev. now rewrite rev_onto_app. Qed.

(** A string is empty or has a last character. *)
Lemma snoc_cases (s : string) :
  s = EmptyString \/ exists b c, s = b +:+ String c EmptyString.
Proof.
  induction s as [|x s IH]; [now left |]. right.
  destruct IH as [->|(b & c & ->)].
  - now exists EmptyString, x.
  - exists (String x b), c. reflexivity.
Qed.

Lemma dropLast_snoc (b : string) (c : ascii) :
  Str.dropLast (b +:+ String c EmptyString) = b.
Proof.
  induction b as [|x b IH]; [reflexivity |].
  rewrite append_cons. cbn [Str.dropLast].
  destruct (b +:+ String c EmptyString) eqn:E.
  - destruct b; discriminate.
  - now rewrite IH.
Qed.

Lemma endsWith_snoc (b : string) (c d : ascii) :
  Str.endsWith (String d EmptyString) (b +:+ String c EmptyString) = Ascii.eqb d c.
Proof.
  unfold Str.endsWith. rewrite rev_snoc. cbn. apply andb_true_r.
Qed.

(** What [getBaseUrl] does to the address it has chosen. *)
Lemma strip_slash (a : string) :
  let b := if Str.endsWith "/" a then Str.dropLast a else a in
  (Str.endsWith "/" a = true -> a = b +:+ "/")
  /\ (Str.endsWith "/" a = false -> b = a)
  /\ (Str.endsWith "/" b = true -> Str.endsWith "/" (Str.dropLast a) = true).
Proof.
  destruct (snoc_cases a) as [->|(b & c & ->)]; [cbn; intuition discriminate |].
  cbv zeta. rewrite endsWith_snoc, dropLast_snoc.
  destruct (Ascii.eqb_spec "/" c) as [<-|N].
  - repeat split; auto. discriminate.
  - repeat split; auto; try discriminate.
    rewrite endsWith_snoc. destruct (Ascii.eqb_spec "/" c); congruence.
Qed.

(** X2: the address of the parameters, when it is a string that is not
    empty, is the one [getBaseUrl] uses whatever the environment holds; when
    the parameters have none (missing or falsy), the [ADDRESS] of the
    environment is used. *)
Theorem getBaseURL_precedence (params : gmap string JsValue) (context : ExecContext)
    (a : string) :
  a <> EmptyString ->
  (params !! "address" = Some (JStr a) ->
   getBaseURL params context
   = Return (if Str.endsWith "/" a then Str.dropLast a else a))
  /\ (ToBoolean (prop params "address") = false ->
      default ∅ (environment context) !! "ADDRESS" = Some a ->
      getBaseURL params context
      = Return (if Str.endsWith "/" a then Str.dropLast a else a)).
Proof.
  intros Ha. unfold getBaseURL, js_or, prop. cbv zeta. split.
  - intros ->. cbn [default ToBoolean]. destruct a; [contradiction | reflexivity].
  - intros F ->. unfold prop in F. rewrite F. cbn [value_of ToBoolean].
    destruct a; [contradiction | reflexivity].
Qed.

(** X3: with no address in the parameters and no [ADDRESS] in the
    environment (missing or empty in both places) [getBaseUrl] throws a plain
    [Error], one that is neither retryable nor fatal. *)
Theorem getBaseURL_missing (params : gmap string JsValue) (context : ExecContext) :
  ToBoolean (prop params "address") = false ->
  truthy (default ∅ (environment context) !! "ADDRESS") = false ->
  exists e,
    getBaseURL params context = Throw e
    /\ ctor e = Error /\ retryable e = None
    /\ message e
       = "No URL specified. Provide address parameter or ADDRESS environment variable".
Proof.
  intros F E. unfold getBaseURL, js_or. cbv zeta. rewrite F.
  destruct (default ∅ (environment context) !! "ADDRESS") as [[|c s]|];
    try discriminate; cbn; eexists; repeat split.
Qed.

(** X4: [getBaseUrl] removes one trailing slash and no more: the address is
    the result, or the result followed by one slash; the result still ends
    with a slash only when the address ended with two. *)
Theorem getBaseURL_strips_one_slash (params : gmap string JsValue) (context : ExecContext)
    (a b : string) :
  js_or (prop params "address")
        (value_of (default ∅ (environment context) !! "ADDRESS")) = JStr a ->
  getBaseURL params context = Return b ->
  (a = b \/ a = b +:+ "/")
  /\ (Str.endsWith "/" a = false -> b = a)
  /\ (Str.endsWith "/" a = true -> a = b +:+ "/")
  /\ (Str.endsWith "/" b = true -> Str.endsWith "/" (Str.dropLast a) = true).
Proof.
  intros A. unfold getBaseURL. cbv zeta. rewrite A.
  destruct (negb (ToBoolean (JStr a))); [discriminate |].
  intros [= <-]. destruct (strip_slash a) as (S1 & S2 & S3). cbv zeta in *.
  repeat split; auto.
  destruct (Str.endsWith "/" a); [right; now apply S1 | now left].
Qed.


(** ** [parseDuration]: numerals and units *)

Lemma match_unit_exact (u : string) :
  In (Str.toLowerCase u) [EmptyString; "ms"; "s"; "m"; "h"] ->
  Builtin.match_unit u = Some (if Str.is_empty u then None else Some u).
Proof.
  intros H. apply match_unit_Some in H. unfold Builtin.match_unit in *.
  destruct (Str.is_empty u); [reflexivity |].
  now destruct (_ || _).
Qed.

Lemma match_duration_exact (int frac unit : string) :
  digits1 int ->
  (frac = EmptyString \/ exists f, frac = "." +:+ f /\ digits1 f) ->
  In (Str.toLowerCase unit) [EmptyString; "ms"; "s"; "m"; "h"] ->
  Builtin.match_duration (int +:+ frac +:+ unit)
  = Some (int +:+ frac, if Str.is_empty unit then None else Some unit).
Proof.
  intros [Hne Hall] Hfrac Hunit. unfold Builtin.match_duration.
  destruct (unit_head unit Hunit) as [Hstop Hdot].
  pose proof (match_unit_exact unit Hunit) as Hu.
  destruct Hfrac as [->|(f & -> & Hfne & Hfall)].
  - change (EmptyString +:+ unit) with unit. rewrite append_empty_r.
    destruct (takeWhile_append Str.is_digit int unit Hall Hstop) as [-> ->].
    destruct int; [contradiction | cbn [Str.is_empty]].
    destruct unit as [|c u]; [now rewrite Hu |].
    destruct c as [[] [] [] [] [] [] [] []]; try contradiction; now rewrite Hu.
  - assert (Hstop' : stops Str.is_digit (("." +:+ f) +:+ unit)) by reflexivity.
    destruct (takeWhile_append Str.is_digit int _ Hall Hstop') as [-> ->].
    destruct int; [contradiction | cbn [Str.is_empty]].
    rewrite append_assoc. change ("." +:+ f +:+ unit) with (String "." (f +:+ unit)).
    cbv iota beta.
    destruct (takeWhile_append Str.is_digit f unit Hfall Hstop) as [-> ->].
    destruct f; [contradiction | cbn [Str.is_empty]].
    now rewrite Hu.
Qed.

(** X5: for every numeral (digits with an optional fraction) followed by a
    unit in any case, [parseDuration] returns, without a warning, the value
    [parseFloat] gives the numeral, as it is for ms and for no unit, times
    1000 for s, times 60 times 1000 for m, and times 60 times 60 times 1000
    for h. *)
Theorem parseDuration_units (num unit : string) (t : Trace) :
  numeral num ->
  In (Str.toLowerCase unit) [EmptyString; "ms"; "s"; "m"; "h"] ->
  parseDuration (JStr (num +:+ unit)) t
  = (Return (scaled (Str.toLowerCase unit) (Builtin.parseFloat num)), t)
  /\ scaled EmptyString (Builtin.parseFloat num) = Builtin.parseFloat num
  /\ scaled "ms" (Builtin.parseFloat num) = Builtin.parseFloat num
  /\ scaled "s" (Builtin.parseFloat num) = (Builtin.parseFloat num * 1000)%float
  /\ scaled "m" (Builtin.parseFloat num) = (Builtin.parseFloat num * 60 * 1000)%float
  /\ scaled "h" (Builtin.parseFloat num)
     = (Builtin.parseFloat num * 60 * 60 * 1000)%float.
Proof.
  intros (int & frac & -> & Hint & Hfrac) Hunit.
  split; [| repeat split].
  unfold parseDuration. rewrite append_assoc.
  rewrite (match_duration_exact int frac unit Hint Hfrac Hunit).
  destruct Hint as [Hne _].
  destruct int as [|c int]; [contradiction |]. rewrite !append_cons.
  cbn [ToBoolean Str.is_empty negb]. cbv zeta. unfold scaled.
  destruct unit as [|u0 unit]; [reflexivity |]. cbn [Str.is_empty].
  change (default "ms" (Some (String u0 unit))) with (String u0 unit).
  cbn [In] in Hunit.
  destruct Hunit as [H|[H|[H|[H|[H|[]]]]]]; rewrite <- H; try discriminate; reflexivity.
Qed.

(** X6: a string that does not begin with a digit (a sign, a space, a dot,
    a letter) is never read as a duration: [parseDuration] warns and returns
    the default 100. *)
Theorem parseDuration_needs_leading_digit (c : ascii) (s : string) (t : Trace) :
  Str.is_digit c = false ->
  parseDuration (JStr (String c s)) t
  = (Return 100%float,
     t ++ [Console LWarn
             [JStr ("Invalid duration format: " +:+ String c s
                    +:+ ", using default 100ms")]]).
Proof.
  intros H. unfold parseDuration. cbn [ToBoolean Str.is_empty negb].
  unfold Builtin.match_duration. cbn [Str.takeWhile]. rewrite H. reflexivity.
Qed.


(** ** The token type of the header that [getAuthorizationHeader] builds *)

Lemma startsWith_split (p s : string) :
  Str.startsWith p s = true -> exists r, s = p +:+ r.
Proof.
  revert s. induction p as [|a p IH]; intros s H; [now exists s |].
  destruct s as [|b s]; [discriminate |]. cbn in H.
  apply andb_prop in H as [Hab H]. apply Ascii.eqb_eq in Hab. subst b.
  destruct (IH s H) as (r & ->). now exists r.
Qed.

Lemma strip_bearer_prefixed (raw : string) :
  Builtin.strip_bearer ("Bearer " +:+ raw) = Str.dropWhile Str.is_white raw.
Proof. reflexivity. Qed.

Lemma dropWhile_stops (p : ascii -> bool) (s : string) :
  stops p s -> Str.dropWhile p s = s.
Proof. destruct s as [|c s]; [reflexivity |]. cbn. now intros ->. Qed.

(** X7: the header of the bearer method is always "Bearer " followed by a
    raw token (the secret itself unless it came with the prefix), and what
    [executeStatement] takes off again is that prefix and the white space
    after it: the token-type header of the request is the type of the raw
    token without its leading white space; for a secret without prefix and
    without leading white space it is the type of the secret. *)
Theorem bearer_token_type (token statement baseUrl : string) :
  exists raw,
    bearer token = "Bearer " +:+ raw
    /\ (Str.startsWith "Bearer " token = false -> raw = token)
    /\ (Str.startsWith "Bearer " token = true -> token = "Bearer " +:+ raw)
    /\ token_type_header (statement_request statement (bearer token) baseUrl)
       = Some (determineTokenType (Str.dropWhile Str.is_white raw))
    /\ (stops Str.is_white raw ->
        token_type_header (statement_request statement (bearer token) baseUrl)
        = Some (determineTokenType raw)).
Proof.
  unfold bearer. destruct (Str.startsWith "Bearer " token) eqn:E.
  - destruct (startsWith_split _ _ E) as (raw & ->). exists raw.
    rewrite statement_request_header, strip_bearer_prefixed.
    repeat split; try discriminate. intros S. now rewrite (dropWhile_stops _ _ S).
  - exists token. rewrite statement_request_header, strip_bearer_prefixed.
    repeat split; try discriminate. intros S. now rewrite (dropWhile_stops _ _ S).
Qed.

Lemma base64_pairs (x y : Z) :
  is_byte x = true -> is_byte y = true -> base64_pair_ok (x * 256 + y) = true.
Proof.
  unfold is_byte. intros Hx Hy.
  apply andb_prop in Hx as [Hx1 Hx2]. apply andb_prop in Hy as [Hy1 Hy2].
  apply (all_in_range_spec base64_pair_ok 16 0); [vm_compute; reflexivity |].
  change (2 ^ Z.of_nat 16) with 65536. lia.
Qed.

Lemma base64_pair_digits (x y : Z) :
  is_byte x = true -> is_byte y = true ->
  forallb (fun n => negb (Ascii.eqb (Builtin.base64_digit n) "."))
    [Z.shiftr x 2;
     Z.lor (Z.shiftl (Z.land x 3) 4) (Z.shiftr y 4);
     Z.shiftl (Z.land x 3) 4;
     Z.lor (Z.shiftl (Z.land x 15) 2) (Z.shiftr y 6);
     Z.shiftl (Z.land x 15) 2;
     Z.land x 63] = true.
Proof.
  intros Hx Hy. pose proof (base64_pairs x y Hx Hy) as H.
  unfold base64_pair_ok in H. cbv zeta in H.
  unfold is_byte in Hx, Hy.
  apply andb_prop in Hx as [Hx1 Hx2]. apply andb_prop in Hy as [Hy1 Hy2].
  replace ((x * 256 + y) / 256) with x in H
    by (apply Z.div_unique with y; lia).
  replace ((x * 256 + y) mod 256) with y in H
    by (apply Z.mod_unique with x; lia).
  exact H.
Qed.

(** The base-64 text of bytes has no dot. *)
Lemma base64_no_dot (n : nat) (bytes : list Z) :
  (length bytes <= n)%nat ->
  forallb is_byte bytes = true ->
  Str.count "." (Builtin.base64 bytes) = 0%nat.
Proof.
  revert bytes. induction n as [|n IH]; intros bytes Hn Hb.
  - destruct bytes; [reflexivity | cbn in Hn; lia].
  - destruct bytes as [|a [|b [|c r]]]; [reflexivity | | |].
    + cbn [forallb] in Hb. apply andb_prop in Hb as [Ha _].
      pose proof (base64_pair_digits a a Ha Ha) as D. cbn [forallb] in D.
      repeat (apply andb_prop in D as [? D]).
      cbn [Builtin.base64 Str.count].
      repeat match goal with
             | E : negb (Ascii.eqb ?d ".") = true |- context [Ascii.eqb ?d "."] =>
                 apply negb_true_iff in E; rewrite E
             end.
      reflexivity.
    + cbn [forallb] in Hb. apply andb_prop in Hb as [Ha Hb].
      apply andb_prop in Hb as [Hb _].
      pose proof (base64_pair_digits a b Ha Hb) as D. cbn [forallb] in D.
      repeat (apply andb_prop in D as [? D]).
      pose proof (base64_pair_digits b b Hb Hb) as D'. cbn [forallb] in D'.
      repeat (apply andb_prop in D' as [? D']).
      cbn [Builtin.base64 Str.count].
      repeat match goal with
             | E : negb (Ascii.eqb ?d ".") = true |- context [Ascii.eqb ?d "."] =>
                 apply negb_true_iff in E; rewrite E
             end.
      reflexivity.
    + cbn [forallb] in Hb. apply andb_prop in Hb as [Ha Hb].
      apply andb_prop in Hb as [Hb Hc]. apply andb_prop in Hc as [Hc Hr].
      pose proof (base64_pair_digits a b Ha Hb) as D. cbn [forallb] in D.
      repeat (apply andb_prop in D as [? D]).
      pose proof (base64_pair_digits b c Hb Hc) as D'. cbn [forallb] in D'.
      repeat (apply andb_prop in D' as [? D']).
      pose proof (base64_pair_digits c c Hc Hc) as D''. cbn [forallb] in D''.
      repeat (apply andb_prop in D'' as [? D'']).
      cbn [Builtin.base64 Str.count].
      repeat match goal with
             | E : negb (Ascii.eqb ?d ".") = true |- context [Ascii.eqb ?d "."] =>
                 apply negb_true_iff in E; rewrite E
             end.
      cbn [Nat.add]. apply IH; [cbn in Hn; lia | exact Hr].
Qed.

Lemma utf8_bytes (s : string) : forallb is_byte (Builtin.utf8 s) = true.
Proof.
  induction s as [|c s IH]; [reflexivity |].
  cbn [Builtin.utf8].
  assert (C : forall r, forallb is_byte r = true ->
                        forallb is_byte
                          (if Str.code c <? 128 then Str.code c :: r
                           else Z.lor 192 (Z.shiftr (Str.code c) 6)
                                :: Z.lor 128 (Z.land (Str.code c) 63) :: r) = true).
  { intros r Hr.
    destruct c as [[] [] [] [] [] [] [] []];
      match goal with
      | |- forallb is_byte (if ?b then _ else _) = true =>
          let v := eval vm_compute in b in change b with v
      end;
      cbv iota; cbn [forallb]; rewrite Hr; vm_compute; reflexivity. }
  destruct (Str.code c <? 128); apply C; exact IH.
Qed.

(** X8: a request made with the header of the basic method is always
    labelled OAUTH: its credentials are base-64 text, which has no dot. *)
Theorem basic_header_is_labelled_OAUTH (user password statement baseUrl : string) :
  let authHeader :=
    "Basic " +:+ Builtin.base64 (Builtin.utf8 (user +:+ ":" +:+ password)) in
  Builtin.strip_bearer authHeader = authHeader
  /\ token_type_header (statement_request statement authHeader baseUrl) = Some "OAUTH".
Proof.
  intros authHeader.
  assert (S : Builtin.strip_bearer authHeader = authHeader) by reflexivity.
  split; [exact S |].
  rewrite statement_request_header, S, determineTokenType_cases, split_length.
  unfold authHeader. rewrite count_append.
  rewrite (base64_no_dot _ _ (le_n _) (utf8_bytes _)). reflexivity.
Qed.


(** ** [getClientCredentialsToken] *)

Lemma token_request_built (config : TokenConfig) (t : Trace) :
  complete config = true ->
  getClientCredentialsToken config t
  = bind (fetch TokenCall (token_request config))
      (fun response =>
         if negb (ok response) then
           throw (new Error ("OAuth2 token request failed: "
                             +:+ Str.of_Z (status response) +:+ " "
                             +:+ statusText response +:+ " - "
                             +:+ token_error_text response))
         else
           let* data := response_json response in
           let* access_token := lift (member data "access_token") in
           if negb (ToBoolean access_token)
           then throw (new Error "No access_token in OAuth2 response")
           else ret access_token) t.
Proof.
  unfold complete, getClientCredentialsToken. intros C.
  apply andb_prop in C as [C C3]. apply andb_prop in C as [C1 C2].
  rewrite C1, C2, C3. cbn [negb orb]. cbv zeta.
  unfold token_request, grant_params, credential_params, in_params, basic_credentials,
    token_error_text.
  destruct (truthy (scope config)), (truthy (audience config));
    destruct (match authStyle config with
              | Some a => String.eqb a "InParams"
              | None => false
              end); reflexivity.
Qed.

Lemma getClientCredentialsToken_trace (config : TokenConfig) (t : Trace) :
  (getClientCredentialsToken config t).2
  = if complete config
    then t ++ [Fetch TokenCall (token_request config) (network t (token_request config))]
    else t.
Proof.
  destruct (complete config) eqn:C.
  - rewrite (token_request_built _ _ C). unfold bind, fetch.
    destruct (network t (token_request config)) as [r|msg]; [| reflexivity].
    destruct (negb (ok r)); [reflexivity |].
    unfold response_json. destruct (json r) as [msg|data]; [reflexivity |].
    cbn. unfold lift. destruct (member data "access_token") as [tok|e]; [| reflexivity].
    now destruct (negb (ToBoolean tok)).
  - unfold getClientCredentialsToken. unfold complete in C.
    destruct (truthy (tokenUrl config)), (truthy (clientId config)),
      (truthy (clientSecret config)); try discriminate; reflexivity.
Qed.

(** X9: without a token URL, a client id or a client secret (missing or
    empty) [getClientCredentialsToken] throws a plain [Error] and makes no
    call; with the three of them it makes exactly one call. *)
Theorem getClientCredentialsToken_calls (config : TokenConfig) (t : Trace) :
  (complete config = false ->
   getClientCredentialsToken config t
   = (Throw (new Error
               "OAuth2 Client Credentials flow requires tokenUrl, clientId, and clientSecret"),
      t))
  /\ (complete config = true ->
      exists out,
        (getClientCredentialsToken config t).2
        = t ++ [Fetch TokenCall (token_request config) out])
  /\ (complete config = true <->
      (exists u i s,
         tokenUrl config = Some u /\ clientId config = Some i
         /\ clientSecret config = Some s
         /\ u <> EmptyString /\ i <> EmptyString /\ s <> EmptyString)).
Proof.
  split; [| split].
  - unfold getClientCredentialsToken, complete.
    destruct (truthy (tokenUrl config)), (truthy (clientId config)),
      (truthy (clientSecret config)); try discriminate; reflexivity.
  - intros C. eexists. rewrite getClientCredentialsToken_trace, C. reflexivity.
  - unfold complete.
    destruct (tokenUrl config) as [[|a u]|], (clientId config) as [[|b i]|],
      (clientSecret config) as [[|c s]|]; cbn;
      (split; [try discriminate | intros (? & ? & ? & ? & ? & ? & ? & ? & ?);
                                   try discriminate; try congruence]).
    intros _. do 3 eexists. repeat split; discriminate.
Qed.

Lemma grant_params_keys (config : TokenConfig) :
  Forall (fun kv => kv.1 <> "client_id" /\ kv.1 <> "client_secret") (grant_params config).
Proof.
  unfold grant_params.
  destruct (truthy (scope config)), (truthy (audience config));
    repeat constructor; discriminate.
Qed.

(** X10: the token request is a POST to the token URL in which the client
    id and secret travel in exactly one place: as two form fields when the
    authentication style is exactly "InParams" (and then there is no
    Authorization header), and in a Basic Authorization header in every
    other case (and then no form field carries them). *)
Theorem token_request_credentials (config : TokenConfig) :
  let req := token_request config in
  method req = "POST"
  /\ url req = default EmptyString (tokenUrl config)
  /\ headers req !! "Content-Type" = Some "application/x-www-form-urlencoded"
  /\ (authStyle config = Some "InParams" ->
      headers req !! "Authorization" = None
      /\ body req
         = Builtin.URLSearchParams_toString (grant_params config ++ credential_params config))
  /\ (authStyle config <> Some "InParams" ->
      headers req !! "Authorization" = Some (basic_credentials config)
      /\ body req = Builtin.URLSearchParams_toString (grant_params config))
  /\ Forall (fun kv => kv.1 <> "client_id" /\ kv.1 <> "client_secret")
            (grant_params config)
  /\ (forall t, complete config = true ->
                (getClientCredentialsToken config t).2
                = t ++ [Fetch TokenCall req (network t req)]).
Proof.
  intros req. unfold req, token_request, in_params. cbn [method url headers body].
  split; [reflexivity |]. split; [reflexivity |].
  split.
  { destruct (match authStyle config with
              | Some a => String.eqb a "InParams"
              | None => false
              end); now simplify_map_eq. }
  split.
  { intros ->. rewrite String.eqb_refl.
    split; [now simplify_map_eq | reflexivity]. }
  split.
  { intros N.
    assert (E : match authStyle config with
                | Some a => String.eqb a "InParams"
                | None => false
                end = false).
    { destruct (authStyle config) as [a|]; [| reflexivity].
      destruct (String.eqb_spec a "InParams"); [congruence | reflexivity]. }
    rewrite E, app_nil_r. split; [now simplify_map_eq | reflexivity]. }
  split; [apply grant_params_keys |].
  intros t C. now rewrite getClientCredentialsToken_trace, C.
Qed.



(** ** What the functions of the script throw *)

Lemma raises_ret {A} (Q : Exn -> Prop) (a : A) : raises Q (ret a).
Proof. intros t e H. discriminate H. Qed.

Lemma raises_throw {A} (Q : Exn -> Prop) (e : Exn) : Q e -> raises Q (@throw A e).
Proof. intros He t e' [= <-]. exact He. Qed.

Lemma raises_emit (Q : Exn -> Prop) (ev : Event) : raises Q (emit ev).
Proof. intros t e H. discriminate H. Qed.

Lemma raises_lift {A} (Q : Exn -> Prop) (o : Outcome A) :
  (forall e, o = Throw e -> Q e) -> raises Q (lift o).
Proof. intros Ho t e H. apply Ho. exact H. Qed.

Lemma raises_bind {A B} (Q : Exn -> Prop) (m : M A) (k : A -> M B) :
  raises Q m -> (forall a, raises Q (k a)) -> raises Q (bind m k).
Proof.
  intros Hm Hk t e. unfold bind.
  specialize (Hm t). destruct (m t) as [[a|e'] t'].
  - apply Hk.
  - cbn. intros [= <-]. now apply Hm.
Qed.

Lemma raises_fetch (site : Site) (req : Request) :
  raises (fun e => classified e = false) (fetch site req).
Proof.
  intros t e. unfold fetch. destruct (network t req); [discriminate |].
  now intros [= <-].
Qed.

Lemma member_unclassified (v : JsValue) (k : string) (e : Exn) :
  member v k = Throw e -> classified e = false.
Proof. destruct v; try discriminate; now intros [= <-]. Qed.

Lemma getBaseURL_unclassified (params : gmap string JsValue) (context : ExecContext)
    (e : Exn) :
  getBaseURL params context = Throw e -> classified e = false.
Proof.
  unfold getBaseURL. cbv zeta.
  destruct (negb (ToBoolean _)); [now intros [= <-] |].
  destruct (js_or _ _); try discriminate; now intros [= <-].
Qed.

Ltac raises_tac :=
  unfold console_log, console_warn, console_error, sleep, response_json;
  repeat first
    [ apply raises_ret | apply raises_emit | apply raises_fetch
    | apply raises_throw; reflexivity
    | apply raises_lift; apply member_unclassified
    | apply raises_bind; [| intros ?]
    | match goal with
      | |- raises _ (if ?c then _ else _) => destruct c
      | |- raises _ (match ?x with _ => _ end) => destruct x
      | |- raises _ (let _ := _ in _) => cbv zeta
      end ].

Lemma getClientCredentialsToken_unclassified (config : TokenConfig) :
  raises (fun e => classified e = false) (getClientCredentialsToken config).
Proof. unfold getClientCredentialsToken. cbv zeta. raises_tac. Qed.

Lemma getAuthorizationHeader_unclassified (context : ExecContext) :
  raises (fun e => classified e = false) (getAuthorizationHeader context).
Proof.
  unfold getAuthorizationHeader. cbv zeta.
  repeat match goal with
         | |- raises _ (if ?c then _ else _) => destruct c
         end;
    try apply raises_ret; try (apply raises_throw; reflexivity).
  apply raises_bind; [apply getClientCredentialsToken_unclassified |].
  intros token. apply raises_ret.
Qed.

Lemma parseDuration_unclassified (durationStr : JsValue) :
  raises (fun e => classified e = false) (parseDuration durationStr).
Proof. unfold parseDuration. raises_tac. Qed.

(** What [executeStatement] throws, and when. *)
Lemma executeStatement_outcome (statement authHeader baseUrl : string) (t : Trace) :
  let req := statement_request statement authHeader baseUrl in
  match network t req with
  | Rejected msg =>
      (executeStatement statement authHeader baseUrl t).1 = Throw (new TypeError msg)
  | Resolved r =>
      if ok r then
        (executeStatement statement authHeader baseUrl t).1
        = match json r with
          | inr v => Return v
          | inl msg => Throw (new SyntaxError msg)
          end
      else
        exists e,
          (executeStatement statement authHeader baseUrl t).1 = Throw e
          /\ retryable e = Some ((status r =? 429) || (500 <=? status r))
  end.
Proof.
  intros req. destruct (network t req) as [r|msg] eqn:N.
  - destruct (ok r) eqn:K.
    + now apply executeStatement_resolved.
    + unfold executeStatement, bind, fetch. fold req. rewrite N, K. cbn [negb].
      unfold throw. cbn [fst].
      destruct (Z.eqb_spec (status r) 429) as [E|E]; [eexists; split; [reflexivity |];
        rewrite E; reflexivity |].
      unfold ok in K.
      repeat match goal with
             | |- context [if ?c then _ else _] => destruct c eqn:?
             end;
        (eexists; split; [reflexivity |]); cbn [retryable ctor new orb];
        f_equal; symmetry; lia.
  - now apply executeStatement_rejected.
Qed.


(** ** [invoke]: every way through the [try] block *)

Lemma invoke_try_runs
    (resolvedParams : gmap string JsValue) (context : ExecContext) (t : Trace) :
  invoke_try_run resolvedParams context t (invoke_try resolvedParams context t).
Proof.
  remember (invoke_try resolvedParams context t) as X eqn:EX.
  unfold invoke_try in EX. cbv zeta in EX. unfold console_log, sleep in EX.
  rewrite bind_lift in EX.
  destruct (validateInputs resolvedParams) as [[]|e] eqn:V;
    [| subst X; now apply run_invalid].
  rewrite bind_emit in EX.
  step EX EA authHeader e t2; [| subst X; now apply run_no_header].
  rewrite bind_lift in EX.
  destruct (getBaseURL resolvedParams context) as [baseUrl|e] eqn:EB;
    [| subst X; now apply (run_no_url _ _ _ authHeader)].
  step EX ED delayMs e t3;
    [| subst X; now apply (run_no_delay _ _ _ authHeader baseUrl e t2)].
  assert (R1 : reaches_disable resolvedParams context t authHeader baseUrl delayMs t3).
  { split; [exact V |]. exists t2. auto. }
  rewrite bind_emit in EX.
  step EX E1 disableResult e t5;
    [| subst X; now apply (run_disable_fails _ _ _ authHeader baseUrl delayMs e t3)].
  assert (R2 : reaches_enable resolvedParams context t authHeader baseUrl delayMs
                 disableResult t5).
  { exists t3. auto. }
  rewrite !bind_emit in EX. rewrite <- !app_assoc in EX. cbn [app] in EX.
  step EX E2 enableResult e t7;
    [| subst X;
       now apply (run_enable_fails _ _ _ authHeader baseUrl delayMs disableResult e t5)].
  rewrite bind_lift in EX.
  destruct (member disableResult "statementHandle") as [disableHandle|e] eqn:M1.
  - rewrite bind_lift in EX.
    destruct (member enableResult "statementHandle") as [enableHandle|e] eqn:M2.
    + rewrite bind_now_ISO, bind_emit in EX. subst X.
      eapply run_success; eauto.
    + subst X.
      apply (run_no_result _ _ _ authHeader baseUrl delayMs disableResult enableResult e t5);
        eauto.
  - subst X.
    apply (run_no_result _ _ _ authHeader baseUrl delayMs disableResult enableResult e t5);
      auto.
Qed.


(** ** The network calls of [getAuthorizationHeader] *)

Lemma milestones_app (a b : Trace) : milestones (a ++ b) = milestones a ++ milestones b.
Proof.
  induction a as [|e a IH]; [reflexivity |].
  destruct e; cbn; now rewrite IH.
Qed.

Lemma milestones_closed : trace_closed (fun evs => milestones evs = []).
Proof.
  split; [reflexivity |].
  intros a b Ha Hb. now rewrite milestones_app, Ha, Hb.
Qed.

Lemma find_has_credentials (context : ExecContext) (m : AuthMethod) :
  find (has_credentials context) auth_methods = Some m ->
  has_credentials context m = true.
Proof. intros H. now apply find_some in H. Qed.

Lemma getAuthorizationHeader_trace (context : ExecContext) (t : Trace) :
  (getAuthorizationHeader context t).2 = t ++ token_milestone context t.
Proof.
  rewrite getAuthorizationHeader_resolve.
  unfold resolve_by_priority, token_milestone, calls_token_endpoint.
  destruct (find (has_credentials context) auth_methods) as [[]|] eqn:F;
    try (cbn; now rewrite app_nil_r).
  apply find_has_credentials in F. cbn [has_credentials] in F.
  unfold header_of. cbv zeta.
  destruct (truthy (default ∅ (environment context)
                    !! "OAUTH2_CLIENT_CREDENTIALS_TOKEN_URL")) eqn:U;
    [| cbn; now rewrite app_nil_r].
  destruct (truthy (default ∅ (environment context)
                    !! "OAUTH2_CLIENT_CREDENTIALS_CLIENT_ID")) eqn:I;
    [| cbn; now rewrite app_nil_r].
  cbn [negb orb andb].
  fold (token_config context).
  pose proof (getClientCredentialsToken_trace (token_config context) t) as T.
  assert (C : complete (token_config context) = true).
  { unfold complete, token_config. cbn [tokenUrl clientId clientSecret].
    now rewrite U, I, F. }
  rewrite C in T. unfold bind.
  destruct (getClientCredentialsToken (token_config context) t) as [[tok|e] t'];
    cbn [snd] in *; exact T.
Qed.

(** X12: of the four methods only the client-credentials one goes to the
    network, and it does so once: [getAuthorizationHeader] adds nothing to
    the trace but, when that method is the first available one and the
    environment has its token URL and client id, one call of the token
    endpoint; when the URL or the id is missing it throws without a call. *)
Theorem getAuthorizationHeader_network (context : ExecContext) (t : Trace) :
  (getAuthorizationHeader context t).2 = t ++ token_milestone context t
  /\ (length (token_milestone context t) <= 1)%nat
  /\ (forall m, find (has_credentials context) auth_methods = Some m ->
                m <> ClientCredentials ->
                exists header, getAuthorizationHeader context t = (Return header, t))
  /\ (find (has_credentials context) auth_methods = Some ClientCredentials ->
      calls_token_endpoint context = false ->
      getAuthorizationHeader context t
      = (Throw (new Error
                  "OAuth2 Client Credentials flow requires TOKEN_URL and CLIENT_ID in env"),
         t))
  /\ (calls_token_endpoint context = true ->
      exists out,
        (getAuthorizationHeader context t).2
        = t ++ [Fetch TokenCall (token_request (token_config context)) out]
        /\ url (token_request (token_config context))
           = default EmptyString
               (default ∅ (environment context) !! "OAUTH2_CLIENT_CREDENTIALS_TOKEN_URL")).
Proof.
  split; [apply getAuthorizationHeader_trace |].
  split; [unfold token_milestone; destruct (calls_token_endpoint context); cbn; lia |].
  split; [| split].
  - intros m F N. rewrite getAuthorizationHeader_resolve. unfold resolve_by_priority.
    rewrite F. destruct m; try contradiction; eexists; reflexivity.
  - intros F. unfold calls_token_endpoint. rewrite F. intros C.
    rewrite getAuthorizationHeader_resolve. unfold resolve_by_priority. rewrite F.
    unfold header_of. cbv zeta.
    destruct (truthy (default ∅ (environment context)
                      !! "OAUTH2_CLIENT_CREDENTIALS_TOKEN_URL")),
      (truthy (default ∅ (environment context)
               !! "OAUTH2_CLIENT_CREDENTIALS_CLIENT_ID")); try discriminate; reflexivity.
  - intros C. eexists. rewrite getAuthorizationHeader_trace. unfold token_milestone.
    rewrite C. split; reflexivity.
Qed.


(** ** [invoke]: what a run does, in order *)

Lemma statement_calls_milestones (evs : list Event) :
  statement_calls evs = statement_calls (milestones evs).
Proof.
  induction evs as [|e evs IH]; [reflexivity |].
  destruct e as [l args|[] req out|ms]; cbn; now rewrite IH.
Qed.

Lemma token_calls_milestones (evs : list Event) :
  token_calls evs = token_calls (milestones evs).
Proof.
  induction evs as [|e evs IH]; [reflexivity |].
  destruct e as [l args|[] req out|ms]; cbn; now rewrite IH.
Qed.

Lemma sleeps_milestones (evs : list Event) : sleeps evs = sleeps (milestones evs).
Proof.
  induction evs as [|e evs IH]; [reflexivity |].
  destruct e as [l args|[] req out|ms]; cbn; now rewrite IH.
Qed.

Lemma statement_calls_token_milestone (context : ExecContext) (t : Trace) :
  statement_calls (token_milestone context t) = []
  /\ sleeps (token_milestone context t) = 0%nat
  /\ (length (token_calls (token_milestone context t)) <= 1)%nat.
Proof.
  unfold token_milestone. destruct (calls_token_endpoint context); cbn; auto.
Qed.

Lemma milestones_token_milestone (context : ExecContext) (t : Trace) :
  milestones (token_milestone context t) = token_milestone context t.
Proof. unfold token_milestone. now destruct (calls_token_endpoint context). Qed.

Lemma parseDuration_milestones (durationStr : JsValue) (t : Trace)
    (o : Outcome float) (t' : Trace) :
  parseDuration durationStr t = (o, t') ->
  exists evs, t' = t ++ evs /\ milestones evs = [].
Proof.
  intros E.
  destruct (extends_parseDuration milestones_closed (fun _ _ => eq_refl) durationStr t)
    as (evs & Ht & Hm).
  rewrite E in Ht. now exists evs.
Qed.

Lemma validateInputs_throws (params : gmap string JsValue) (e : Exn) :
  validateInputs params = Throw e ->
  e = new FatalError "Invalid or missing username parameter".
Proof.
  unfold validateInputs. destruct (_ || _); [now intros [= <-] | discriminate].
Qed.

Lemma unclassified_not_retryable (e : Exn) :
  classified e = false -> retryable e = None.
Proof. unfold classified, retryable. now destruct (ctor e). Qed.

Lemma ok_not_overloaded (req : Request) (r : Response) :
  ok r = true -> ~ overloaded (req, Resolved r).
Proof.
  unfold ok, overloaded. intros K (r' & [= <-] & H). lia.
Qed.

Lemma executeStatement_returns (statement authHeader baseUrl : string) (t t' : Trace)
    (v : JsValue) :
  executeStatement statement authHeader baseUrl t = (Return v, t') ->
  exists r,
    ok r = true /\ json r = inr v
    /\ t' = t ++ [Fetch StatementCall (statement_request statement authHeader baseUrl)
                   (Resolved r)].
Proof.
  intros E.
  pose proof (executeStatement_trace statement authHeader baseUrl t) as T.
  pose proof (executeStatement_outcome statement authHeader baseUrl t) as O.
  cbv zeta in T, O. rewrite E in T, O. cbn [fst snd] in T, O.
  destruct (network t (statement_request statement authHeader baseUrl)) as [r|msg];
    [| discriminate].
  exists r. destruct (ok r).
  - destruct (json r) as [msg|v']; [discriminate |]. injection O as ->. auto.
  - destruct O as (e & [=] & _).
Qed.

Lemma executeStatement_throws (statement authHeader baseUrl : string) (t t' : Trace)
    (e : Exn) :
  executeStatement statement authHeader baseUrl t = (Throw e, t') ->
  exists out,
    t' = t ++ [Fetch StatementCall (statement_request statement authHeader baseUrl) out]
    /\ (retryable e = Some true
        <-> overloaded (statement_request statement authHeader baseUrl, out))
    /\ (retryable e = Some true \/ retryable e = Some false \/ classified e = false).
Proof.
  intros E.
  pose proof (executeStatement_trace statement authHeader baseUrl t) as T.
  pose proof (executeStatement_outcome statement authHeader baseUrl t) as O.
  cbv zeta in T, O. rewrite E in T, O. cbn [fst snd] in T, O.
  exists (network t (statement_request statement authHeader baseUrl)).
  split; [exact T |].
  destruct (network t (statement_request statement authHeader baseUrl)) as [r|msg].
  - destruct (ok r) eqn:K.
    + destruct (json r); [| discriminate]. injection O as ->.
      split; [| now right; right].
      split; [discriminate | intros H; now apply ok_not_overloaded in H].
    + destruct O as (e' & [= <-] & R). rewrite R. unfold overloaded. cbn [snd].
      split.
      * split.
        -- intros [= H]. exists r. split; [reflexivity | lia].
        -- intros (r' & [= <-] & H). f_equal. lia.
      * destruct (_ || _); auto.
  - injection O as ->. split; [| now right; right].
    split; [discriminate | intros (r & [=] & _)].
Qed.

Lemma reaches_disable_events
    (resolvedParams : gmap string JsValue) (context : ExecContext) (t : Trace)
    (authHeader baseUrl : string) (delayMs : float) (t3 : Trace) :
  reaches_disable resolvedParams context t authHeader baseUrl delayMs t3 ->
  exists evs,
    t3 = t ++ evs
    /\ milestones evs = token_milestone context (after_validate resolvedParams t).
Proof.
  intros (V & t2 & EA & EB & ED).
  pose proof (getAuthorizationHeader_trace context (after_validate resolvedParams t)) as TA.
  rewrite EA in TA. cbn [snd] in TA.
  destruct (parseDuration_milestones _ _ _ _ ED) as (evsD & -> & MD). subst t2.
  unfold after_validate. eexists. rewrite <- !app_assoc. split; [reflexivity |].
  rewrite !milestones_app, MD, milestones_token_milestone. cbn [milestones app].
  now rewrite app_nil_r.
Qed.

Lemma reaches_enable_events
    (resolvedParams : gmap string JsValue) (context : ExecContext) (t : Trace)
    (authHeader baseUrl : string) (delayMs : float) (disableResult : JsValue)
    (t5 : Trace) :
  reaches_enable resolvedParams context t authHeader baseUrl delayMs disableResult t5 ->
  validateInputs resolvedParams = Return tt
  /\ exists evs r1,
       t5 = t ++ evs
       /\ ok r1 = true /\ json r1 = inr disableResult
       /\ milestones evs
          = token_milestone context (after_validate resolvedParams t)
            ++ [Fetch StatementCall
                  (statement_request (disable_statement (prop resolvedParams "username"))
                     authHeader baseUrl) (Resolved r1)].
Proof.
  intros (t3 & R & E1). split; [apply R |].
  destruct (reaches_disable_events _ _ _ _ _ _ _ R) as (evs & -> & M).
  destruct (executeStatement_returns _ _ _ _ _ _ E1) as (r1 & K & J & ->).
  exists ((evs ++ [Console LLog
                     [JStr ("Disabling user: " +:+
                            ToString (prop resolvedParams "username"))]])
          ++ [Fetch StatementCall
                (statement_request (disable_statement (prop resolvedParams "username"))
                   authHeader baseUrl) (Resolved r1)]), r1.
  unfold before_disable. rewrite <- !app_assoc. repeat split; auto.
  rewrite !milestones_app, M. cbn [milestones app]. reflexivity.
Qed.


Lemma invoke_try_summary
    (resolvedParams : gmap string JsValue) (context : ExecContext) (t : Trace) :
  exists evs tok stm,
    (invoke_try resolvedParams context t).2 = t ++ evs
    /\ milestones evs = tok ++ stm
    /\ (tok = [] \/ tok = token_milestone context (after_validate resolvedParams t))
    /\ statements_shape (prop resolvedParams "username") stm
    /\ match (invoke_try resolvedParams context t).1 with
       | Return r =>
           validateInputs resolvedParams = Return tt
           /\ exists authHeader baseUrl r1 r2 v1 v2 delayMs h1 h2 t7,
                stm = [Fetch StatementCall
                         (statement_request
                            (disable_statement (prop resolvedParams "username"))
                            authHeader baseUrl) (Resolved r1);
                       Sleep delayMs;
                       Fetch StatementCall
                         (statement_request
                            (enable_statement (prop resolvedParams "username"))
                            authHeader baseUrl) (Resolved r2)]
                /\ ok r1 = true /\ ok r2 = true
                /\ json r1 = inr v1 /\ json r2 = inr v2
                /\ member v1 "statementHandle" = Return h1
                /\ member v2 "statementHandle" = Return h2
                /\ r = {| username := prop resolvedParams "username";
                          sessionsRevoked := true;
                          userDisabled := js_or h1 (JBool true);
                          userReEnabled := js_or h2 (JBool true);
                          revokedAt := Date.toISOString (clock t7) |}
       | Throw e =>
           (retryable e = Some true <-> Exists overloaded (statement_calls stm))
           /\ (retryable e = Some true \/ retryable e = Some false
               \/ classified e = false)
       end.
Proof.
  pose proof (invoke_try_runs resolvedParams context t) as R.
  remember (invoke_try resolvedParams context t) as X eqn:EX. clear EX.
  destruct R as [e V|e t2 V EA|authHeader e t2 V EA EB|authHeader baseUrl e t2 t3 V EA EB ED
                |authHeader baseUrl delayMs e t3 t5 R1 E1
                |authHeader baseUrl delayMs disableResult e t5 t7 R2 E2
                |authHeader baseUrl delayMs disableResult enableResult e t5 t7 R2 E2 M
                |authHeader baseUrl delayMs disableResult enableResult h1 h2 t5 t7 R2 E2 M1 M2];
    cbn [fst snd].
  - (* the input is rejected *)
    exists [], [], []. rewrite app_nil_r.
    apply validateInputs_throws in V. subst e.
    repeat split; auto using shape_none.
    + discriminate.
    + intros H. inversion H.
  - (* no header *)
    pose proof (getAuthorizationHeader_trace context (after_validate resolvedParams t)) as TA.
    rewrite EA in TA. cbn [snd] in TA. subst t2.
    apply (f_equal fst) in EA. cbn [fst] in EA.
    apply getAuthorizationHeader_unclassified in EA.
    eexists. exists (token_milestone context (after_validate resolvedParams t)), [].
    unfold after_validate at 1. rewrite <- app_assoc.
    split; [reflexivity |]. rewrite milestones_app, milestones_token_milestone.
    cbn [milestones app]. split; [now rewrite app_nil_r |]. split; [now right |].
    split; [apply shape_none |]. split; [| now right; right]. split.
    + rewrite (unclassified_not_retryable _ EA). discriminate.
    + intros H. inversion H.
  - (* no base URL *)
    pose proof (getAuthorizationHeader_trace context (after_validate resolvedParams t)) as TA.
    rewrite EA in TA. cbn [snd] in TA. subst t2.
    apply getBaseURL_unclassified in EB.
    eexists. exists (token_milestone context (after_validate resolvedParams t)), [].
    unfold after_validate at 1. rewrite <- app_assoc.
    split; [reflexivity |]. rewrite milestones_app, milestones_token_milestone.
    cbn [milestones app]. split; [now rewrite app_nil_r |]. split; [now right |].
    split; [apply shape_none |]. split; [| now right; right]. split.
    + rewrite (unclassified_not_retryable _ EB). discriminate.
    + intros H. inversion H.
  - (* no delay *)
    pose proof (getAuthorizationHeader_trace context (after_validate resolvedParams t)) as TA.
    rewrite EA in TA. cbn [snd] in TA. subst t2.
    destruct (parseDuration_milestones _ _ _ _ ED) as (evsD & -> & MD).
    apply (f_equal fst) in ED. cbn [fst] in ED.
    apply parseDuration_unclassified in ED.
    eexists. exists (token_milestone context (after_validate resolvedParams t)), [].
    unfold after_validate at 1. rewrite <- !app_assoc.
    split; [reflexivity |].
    rewrite !milestones_app, milestones_token_milestone, MD.
    cbn [milestones app]. split; [now rewrite app_nil_r |]. split; [now right |].
    split; [apply shape_none |]. split; [| now right; right]. split.
    + rewrite (unclassified_not_retryable _ ED). discriminate.
    + intros H. inversion H.
  - (* the disable statement fails *)
    destruct (reaches_disable_events _ _ _ _ _ _ _ R1) as (evs & -> & M).
    destruct (executeStatement_throws _ _ _ _ _ _ E1) as (out & -> & Hr & Hc).
    eexists. exists (token_milestone context (after_validate resolvedParams t)).
    eexists. unfold before_disable. rewrite <- !app_assoc.
    split; [reflexivity |]. rewrite !milestones_app, M. cbn [milestones app].
    split; [reflexivity |]. split; [now right |].
    split; [apply shape_disable |]. split; [| exact Hc].
    cbn [statement_calls]. rewrite Exists_cons, Exists_nil, Hr. tauto.
  - (* the enable statement fails *)
    destruct (reaches_enable_events _ _ _ _ _ _ _ _ R2) as (V & evs & r1 & -> & K1 & J1 & M).
    destruct (executeStatement_throws _ _ _ _ _ _ E2) as (out & -> & Hr & Hc).
    eexists. exists (token_milestone context (after_validate resolvedParams t)).
    eexists. unfold before_enable. rewrite <- !app_assoc.
    split; [reflexivity |]. rewrite !milestones_app, M. cbn [milestones app].
    rewrite <- !app_assoc. cbn [app].
    split; [reflexivity |]. split; [now right |].
    split; [now apply (shape_both _ authHeader baseUrl r1 disableResult) |].
    split; [| exact Hc].
    cbn [statement_calls]. rewrite !Exists_cons, Exists_nil, Hr.
    pose proof (ok_not_overloaded
                  (statement_request (disable_statement (prop resolvedParams "username"))
                     authHeader baseUrl) r1 K1).
    tauto.
  - (* the result cannot be built *)
    destruct (reaches_enable_events _ _ _ _ _ _ _ _ R2) as (V & evs & r1 & -> & K1 & J1 & Mi).
    destruct (executeStatement_returns _ _ _ _ _ _ E2) as (r2 & K2 & J2 & ->).
    assert (C : classified e = false).
    { destruct M as [M|[_ M]]; now apply member_unclassified in M. }
    eexists. exists (token_milestone context (after_validate resolvedParams t)).
    eexists. unfold before_enable. rewrite <- !app_assoc.
    split; [reflexivity |]. rewrite !milestones_app, Mi. cbn [milestones app].
    rewrite <- !app_assoc. cbn [app].
    split; [reflexivity |]. split; [now right |].
    split; [now apply (shape_both _ authHeader baseUrl r1 disableResult) |].
    split; [| now right; right].
    cbn [statement_calls].
    rewrite !Exists_cons, Exists_nil, (unclassified_not_retryable _ C).
    pose proof (ok_not_overloaded
                  (statement_request (disable_statement (prop resolvedParams "username"))
                     authHeader baseUrl) r1 K1).
    pose proof (ok_not_overloaded
                  (statement_request (enable_statement (prop resolvedParams "username"))
                     authHeader baseUrl) r2 K2).
    split; [discriminate | tauto].
  - (* success *)
    destruct (reaches_enable_events _ _ _ _ _ _ _ _ R2) as (V & evs & r1 & -> & K1 & J1 & Mi).
    destruct (executeStatement_returns _ _ _ _ _ _ E2) as (r2 & K2 & J2 & ->).
    eexists. exists (token_milestone context (after_validate resolvedParams t)).
    eexists. unfold before_enable. rewrite <- !app_assoc.
    split; [reflexivity |]. rewrite !milestones_app, Mi. cbn [milestones app].
    rewrite <- !app_assoc. cbn [app].
    split; [reflexivity |]. split; [now right |].
    split; [now apply (shape_both _ authHeader baseUrl r1 disableResult) |].
    split; [exact V |].
    exists authHeader, baseUrl, r1, r2, disableResult, enableResult, delayMs, h1, h2.
    eexists. repeat split; eauto.
Qed.


Lemma validateInputs_Return (params : gmap string JsValue) :
  validateInputs params = Return tt ->
  exists s, params !! "username" = Some (JStr s) /\ Str.all Str.is_white s = false.
Proof.
  intros V.
  destruct (params !! "username") as [[| |b|x|s|l|l]|] eqn:U;
    try (rewrite validateInputs_invalid in V; [discriminate | now rewrite U]).
  exists s. split; [reflexivity |].
  destruct (Str.all Str.is_white s) eqn:A; [| reflexivity].
  rewrite validateInputs_invalid in V; [discriminate |].
  rewrite U. cbn. now apply trim_blank.
Qed.

(** What [invoke] makes of a run of its [try] block: the same result, or
    the error after the [catch] block, and the same milestones. *)
Lemma invoke_via_try (params : gmap string JsValue) (context : ExecContext) (t : Trace)
    (o : Outcome Result) (evs : list Event) :
  invoke_try (resolveJSONPathTemplates params (js_or (data context) (JObj []))).1
    context (at_try params context t)
  = (o, at_try params context t ++ evs) ->
  exists evs0,
    invoke params context t
    = (match o with
       | Return r => Return r
       | Throw e => Throw (if classified e then e
                           else new FatalError ("Unexpected error: " +:+ message e))
       end, t ++ evs0)
    /\ milestones evs0 = milestones evs.
Proof.
  intros E. rewrite invoke_unfold. unfold try_catch. rewrite E.
  unfold at_try. cbv zeta.
  destruct o as [r|e].
  - eexists. rewrite <- !app_assoc. split; [reflexivity |].
    rewrite !milestones_app. destruct (0 <? _)%nat; reflexivity.
  - rewrite invoke_catch_outcome. eexists. rewrite <- !app_assoc. split; [reflexivity |].
    rewrite !milestones_app. cbn [milestones]. rewrite app_nil_r.
    destruct (0 <? _)%nat; reflexivity.
Qed.

Lemma statements_shape_counts (u : JsValue) (stm : list Event) :
  statements_shape u stm ->
  (length (statement_calls stm) <= 2)%nat
  /\ token_calls stm = []
  /\ (sleeps stm <= 1)%nat.
Proof. intros []; cbn; auto. Qed.

(** X13: the effects of [invoke], apart from the lines on the console, are
    in this order: at most one call of the token endpoint; then nothing, or
    the disable statement alone, or the disable statement answered 2xx with
    a JSON body, one sleep, and the enable statement sent with the same
    header to the same base URL.  So a run has at most two statement calls,
    one token call and one sleep: nothing is tried twice, and the user is
    not re-enabled by a run whose disable statement failed. *)
Theorem invoke_effects_in_order
    (params : gmap string JsValue) (context : ExecContext) (t : Trace) :
  let resolvedParams :=
    (resolveJSONPathTemplates params (js_or (data context) (JObj []))).1 in
  exists evs tok stm,
    (invoke params context t).2 = t ++ evs
    /\ milestones evs = tok ++ stm
    /\ (tok = [] \/ exists req out, tok = [Fetch TokenCall req out])
    /\ statements_shape (prop resolvedParams "username") stm
    /\ (length (statement_calls evs) <= 2)%nat
    /\ (length (token_calls evs) <= 1)%nat
    /\ (sleeps evs <= 1)%nat.
Proof.
  intros resolvedParams.
  destruct (invoke_try_summary resolvedParams context (at_try params context t))
    as (evs & tok & stm & T & M & Htok & Hstm & _).
  destruct (invoke_via_try params context t
              (invoke_try resolvedParams context (at_try params context t)).1 evs)
    as (evs0 & E0 & M0).
  { rewrite <- T. now destruct (invoke_try _ _ _). }
  exists evs0, tok, stm. rewrite E0. cbn [snd].
  split; [reflexivity |]. rewrite M0, M. split; [reflexivity |].
  assert (Htok' : tok = [] \/ exists req out, tok = [Fetch TokenCall req out]).
  { destruct Htok as [-> | ->]; [now left |]. unfold token_milestone.
    destruct (calls_token_endpoint context); [right; eauto | now left]. }
  split; [exact Htok' |]. split; [exact Hstm |].
  destruct (statements_shape_counts _ _ Hstm) as (C1 & C2 & C3).
  rewrite statement_calls_milestones, token_calls_milestones, sleeps_milestones, M0, M.
  destruct Htok' as [-> | (req & out & ->)]; cbn [app statement_calls token_calls sleeps];
    rewrite ?C2; cbn [length]; auto.
Qed.

(** X14: [invoke] returns a result only after both statements were
    accepted: the run then has exactly two statement calls, both answered
    2xx with a JSON body; the username of the result is a string that is
    not blank; and each handle of the result is the [statementHandle] of the
    matching body when that is truthy, and [true] when it is missing or
    falsy. *)
Theorem invoke_returns_after_both_statements
    (params : gmap string JsValue) (context : ExecContext) (t : Trace) (r : Result) :
  (invoke params context t).1 = Return r ->
  exists evs req1 req2 r1 r2 v1 v2 h1 h2 s,
    (invoke params context t).2 = t ++ evs
    /\ statement_calls evs = [(req1, Resolved r1); (req2, Resolved r2)]
    /\ ok r1 = true /\ ok r2 = true
    /\ json r1 = inr v1 /\ json r2 = inr v2
    /\ member v1 "statementHandle" = Return h1
    /\ member v2 "statementHandle" = Return h2
    /\ username r = JStr s /\ Str.all Str.is_white s = false
    /\ sessionsRevoked r = true
    /\ userDisabled r = (if ToBoolean h1 then h1 else JBool true)
    /\ userReEnabled r = (if ToBoolean h2 then h2 else JBool true).
Proof.
  intros HR.
  set (resolvedParams :=
         (resolveJSONPathTemplates params (js_or (data context) (JObj []))).1).
  destruct (invoke_try_summary resolvedParams context (at_try params context t))
    as (evs & tok & stm & T & M & Htok & Hstm & Hout).
  destruct (invoke_via_try params context t
              (invoke_try resolvedParams context (at_try params context t)).1 evs)
    as (evs0 & E0 & M0).
  { rewrite <- T. now destruct (invoke_try _ _ _). }
  rewrite E0 in HR |- *. cbn [fst snd] in *.
  destruct (invoke_try resolvedParams context (at_try params context t)).1 as [r'|e];
    [| discriminate].
  injection HR as ->.
  destruct Hout as (V & a & b & r1 & r2 & v1 & v2 & d & h1 & h2 & t7
                    & -> & K1 & K2 & J1 & J2 & M1 & M2 & ->).
  destruct (validateInputs_Return _ V) as (s & Hs & Hw).
  exists evs0. do 2 eexists. exists r1, r2, v1, v2, h1, h2, s.
  split; [reflexivity |].
  split.
  { rewrite statement_calls_milestones, M0, M, statement_calls_app.
    destruct Htok as [-> | ->]; [reflexivity |].
    destruct (statement_calls_token_milestone context
                (after_validate resolvedParams (at_try params context t))) as (-> & _).
    reflexivity. }
  cbn [username sessionsRevoked userDisabled userReEnabled].
  unfold prop. rewrite Hs. repeat split; auto.
Qed.

(** X15: an error thrown by [invoke] is retryable exactly when a statement
    call of the run was answered with the status 429 or with a status of 500
    or more; every other failure (invalid input, authentication, token
    endpoint, missing URL, network, unreadable body) is fatal. *)
Theorem invoke_retryable_iff
    (params : gmap string JsValue) (context : ExecContext) (t : Trace) (e : Exn) :
  (invoke params context t).1 = Throw e ->
  exists evs,
    (invoke params context t).2 = t ++ evs
    /\ (retryable e = Some true <-> Exists overloaded (statement_calls evs))
    /\ (retryable e = Some false <-> ~ Exists overloaded (statement_calls evs)).
Proof.
  intros HE.
  set (resolvedParams :=
         (resolveJSONPathTemplates params (js_or (data context) (JObj []))).1).
  destruct (invoke_try_summary resolvedParams context (at_try params context t))
    as (evs & tok & stm & T & M & Htok & Hstm & Hout).
  destruct (invoke_via_try params context t
              (invoke_try resolvedParams context (at_try params context t)).1 evs)
    as (evs0 & E0 & M0).
  { rewrite <- T. now destruct (invoke_try _ _ _). }
  rewrite E0 in HE |- *. cbn [fst snd] in *.
  destruct (invoke_try resolvedParams context (at_try params context t)).1 as [r'|e0];
    [discriminate |].
  injection HE as <-. destruct Hout as (Hiff & Hc).
  assert (S : statement_calls evs0 = statement_calls stm).
  { rewrite statement_calls_milestones, M0, M, statement_calls_app.
    destruct Htok as [-> | ->]; [reflexivity |].
    destruct (statement_calls_token_milestone context
                (after_validate resolvedParams (at_try params context t))) as (-> & _).
    reflexivity. }
  exists evs0. split; [reflexivity |]. rewrite S, <- Hiff.
  destruct (classified e0) eqn:C.
  - destruct Hc as [Hc|[Hc|Hc]]; [| | congruence]; rewrite Hc;
      (split; split; congruence).
  - rewrite (unclassified_not_retryable _ C). cbn.
    split; split; congruence.
Qed.




(** X17: a statement answered 2xx with the JSON body [null] makes the
    whole run fail, although both statements were executed: when the two
    statement calls of a run were answered, the second with a 2xx status,
    and one of the bodies is [null], [invoke] throws an error that is not
    retryable. *)
Theorem invoke_null_body_is_fatal
    (params : gmap string JsValue) (context : ExecContext) (t : Trace)
    (evs : list Event) (req1 req2 : Request) (r1 r2 : Response) :
  (invoke params context t).2 = t ++ evs ->
  statement_calls evs = [(req1, Resolved r1); (req2, Resolved r2)] ->
  ok r2 = true ->
  json r1 = inr JNull \/ json r2 = inr JNull ->
  ok r1 = true
  /\ exists e, (invoke params context t).1 = Throw e /\ retryable e = Some false.
Proof.
  intros HT HS K2 HN.
  set (resolvedParams :=
         (resolveJSONPathTemplates params (js_or (data context) (JObj []))).1).
  destruct (invoke_try_summary resolvedParams context (at_try params context t))
    as (evs' & tok & stm & T & M & Htok & Hstm & Hout).
  destruct (invoke_via_try params context t
              (invoke_try resolvedParams context (at_try params context t)).1 evs')
    as (evs0 & E0 & M0).
  { rewrite <- T. now destruct (invoke_try _ _ _). }
  rewrite E0 in HT |- *. cbn [fst snd] in *.
  apply app_inv_head in HT. subst evs0.
  assert (S : statement_calls evs = statement_calls stm).
  { rewrite statement_calls_milestones, M0, M, statement_calls_app.
    destruct Htok as [-> | ->]; [reflexivity |].
    destruct (statement_calls_token_milestone context
                (after_validate resolvedParams (at_try params context t))) as (-> & _).
    reflexivity. }
  rewrite HS in S.
  assert (K1 : ok r1 = true).
  { destruct Hstm as [| a b out | a b r1' v1 d out K J]; cbn in S; try discriminate S.
    now injection S as _ <- _ _. }
  split; [exact K1 |].
  destruct (invoke_try resolvedParams context (at_try params context t)).1 as [r'|e0].
  - exfalso.
    destruct Hout as (_ & a & b & r1' & r2' & v1 & v2 & d & h1 & h2 & t7
                      & -> & _ & _ & J1 & J2 & M1 & M2 & _).
    cbn in S. injection S as _ <- _ <-.
    destruct HN as [HN|HN]; [rewrite HN in J1; injection J1 as <- |
                             rewrite HN in J2; injection J2 as <-]; discriminate.
  - eexists. split; [reflexivity |].
    destruct Hout as (Hiff & Hc). rewrite <- S in Hiff.
    assert (NT : retryable e0 <> Some true).
    { rewrite Hiff, !Exists_cons, Exists_nil.
      pose proof (ok_not_overloaded req1 r1 K1).
      pose proof (ok_not_overloaded req2 r2 K2). tauto. }
    destruct (classified e0) eqn:C; [| reflexivity].
    destruct Hc as [Hc|[Hc|Hc]]; congruence.
Qed.


Lemma In_Sleep_milestones (d : float) (evs : list Event) :
  In (Sleep d) evs -> In (Sleep d) (milestones evs).
Proof.
  induction evs as [|e evs IH]; [auto |].
  intros H. apply in_inv in H. destruct H as [-> | H]; [cbn [milestones]; now left |].
  destruct e; cbn [milestones]; auto using in_cons.
Qed.

Lemma In_Sleep_token_milestone (d : float) (context : ExecContext) (t : Trace) :
  ~ In (Sleep d) (token_milestone context t).
Proof.
  unfold token_milestone. destruct (calls_token_endpoint context); [| now intros H].
  intros H. apply in_inv in H. destruct H as [H|H]; [discriminate H | exact H].
Qed.

(** The [try] block of [invoke] makes no statement call, or it has come to
    its first statement; the statement calls and the sleep that follow are
    made with the header, the base URL and the delay it had there. *)
Lemma invoke_try_setup
    (resolvedParams : gmap string JsValue) (context : ExecContext) (t : Trace) :
  (exists evs,
     (invoke_try resolvedParams context t).2 = t ++ evs /\ statement_calls evs = [])
  \/ (exists authHeader baseUrl delayMs t3 evs out more,
        reaches_disable resolvedParams context t authHeader baseUrl delayMs t3
        /\ (invoke_try resolvedParams context t).2 = t ++ evs
        /\ milestones evs
           = token_milestone context (after_validate resolvedParams t)
             ++ Fetch StatementCall
                  (statement_request (disable_statement (prop resolvedParams "username"))
                     authHeader baseUrl) out
                :: more
        /\ (more = []
            \/ exists out2,
                 more = [Sleep delayMs;
                         Fetch StatementCall
                           (statement_request
                              (enable_statement (prop resolvedParams "username"))
                              authHeader baseUrl) out2])).
Proof.
  pose proof (invoke_try_runs resolvedParams context t) as R.
  remember (invoke_try resolvedParams context t) as X eqn:EX. clear EX.
  destruct R as [e V|e t2 V EA|authHeader e t2 V EA EB|authHeader baseUrl e t2 t3 V EA EB ED
                |authHeader baseUrl delayMs e t3 t5 R1 E1
                |authHeader baseUrl delayMs disableResult e t5 t7 R2 E2
                |authHeader baseUrl delayMs disableResult enableResult e t5 t7 R2 E2 M
                |authHeader baseUrl delayMs disableResult enableResult h1 h2 t5 t7 R2 E2 M1 M2];
    cbn [fst snd].
  - left. exists []. now rewrite app_nil_r.
  - left.
    pose proof (getAuthorizationHeader_trace context (after_validate resolvedParams t)) as TA.
    rewrite EA in TA. cbn [snd] in TA. subst t2.
    eexists. unfold after_validate at 1. rewrite <- app_assoc. split; [reflexivity |].
    rewrite statement_calls_app. cbn [statement_calls app].
    apply statement_calls_token_milestone.
  - left.
    pose proof (getAuthorizationHeader_trace context (after_validate resolvedParams t)) as TA.
    rewrite EA in TA. cbn [snd] in TA. subst t2.
    eexists. unfold after_validate at 1. rewrite <- app_assoc. split; [reflexivity |].
    rewrite statement_calls_app. cbn [statement_calls app].
    apply statement_calls_token_milestone.
  - left.
    pose proof (getAuthorizationHeader_trace context (after_validate resolvedParams t)) as TA.
    rewrite EA in TA. cbn [snd] in TA. subst t2.
    destruct (parseDuration_milestones _ _ _ _ ED) as (evsD & -> & MD).
    eexists. unfold after_validate at 1. rewrite <- !app_assoc. split; [reflexivity |].
    rewrite !statement_calls_app. cbn [statement_calls app].
    destruct (statement_calls_token_milestone context
                (after_validate resolvedParams t)) as (-> & _).
    now rewrite (statement_calls_milestones evsD), MD.
  - right. exists authHeader, baseUrl, delayMs, t3.
    destruct (reaches_disable_events _ _ _ _ _ _ _ R1) as (evs & Ht3 & M).
    destruct (executeStatement_throws _ _ _ _ _ _ E1) as (out & -> & _).
    eexists. exists out, []. split; [exact R1 |]. rewrite Ht3.
    unfold before_disable. rewrite <- !app_assoc.
    split; [reflexivity |]. rewrite !milestones_app, M. cbn [milestones app].
    split; [reflexivity | now left].
  - right. exists authHeader, baseUrl, delayMs.
    destruct R2 as (t3 & R1 & E1). exists t3.
    destruct (reaches_disable_events _ _ _ _ _ _ _ R1) as (evs & Ht3 & M).
    destruct (executeStatement_returns _ _ _ _ _ _ E1) as (r1 & _ & _ & ->).
    destruct (executeStatement_throws _ _ _ _ _ _ E2) as (out & -> & _).
    eexists. exists (Resolved r1). eexists. split; [exact R1 |]. rewrite Ht3.
    unfold before_enable, before_disable. rewrite <- !app_assoc.
    split; [reflexivity |]. rewrite !milestones_app, M. cbn [milestones app].
    split; [reflexivity | right; now exists out].
  - right. exists authHeader, baseUrl, delayMs.
    destruct R2 as (t3 & R1 & E1). exists t3.
    destruct (reaches_disable_events _ _ _ _ _ _ _ R1) as (evs & Ht3 & Mi).
    destruct (executeStatement_returns _ _ _ _ _ _ E1) as (r1 & _ & _ & ->).
    destruct (executeStatement_returns _ _ _ _ _ _ E2) as (r2 & _ & _ & ->).
    eexists. exists (Resolved r1). eexists. split; [exact R1 |]. rewrite Ht3.
    unfold before_enable, before_disable. rewrite <- !app_assoc.
    split; [reflexivity |]. rewrite !milestones_app, Mi. cbn [milestones app].
    split; [reflexivity | right; now exists (Resolved r2)].
  - right. exists authHeader, baseUrl, delayMs.
    destruct R2 as (t3 & R1 & E1). exists t3.
    destruct (reaches_disable_events _ _ _ _ _ _ _ R1) as (evs & Ht3 & Mi).
    destruct (executeStatement_returns _ _ _ _ _ _ E1) as (r1 & _ & _ & ->).
    destruct (executeStatement_returns _ _ _ _ _ _ E2) as (r2 & _ & _ & ->).
    eexists. exists (Resolved r1). eexists. split; [exact R1 |]. rewrite Ht3.
    unfold before_enable, before_disable. rewrite <- !app_assoc.
    split; [reflexivity |]. rewrite !milestones_app, Mi. cbn [milestones app].
    split; [reflexivity | right; now exists (Resolved r2)].
Qed.

(** X18: a statement is sent only after the whole set-up succeeded, and
    with what the set-up gave: when a run of [invoke] has a statement call,
    the input was valid, [getAuthorizationHeader] returned a header,
    [getBaseUrl] a base URL and [parseDuration] a delay (so the delay
    parameter is falsy or a string); the first statement call is the disable
    statement and any later one the enable statement, both sent with that
    header to that base URL; and every sleep of the run lasts that delay. *)
Theorem invoke_statements_need_setup
    (params : gmap string JsValue) (context : ExecContext) (t : Trace)
    (evs : list Event) :
  let resolvedParams :=
    (resolveJSONPathTemplates params (js_or (data context) (JObj []))).1 in
  let username := prop resolvedParams "username" in
  let delay := prop resolvedParams "delay" in
  (invoke params context t).2 = t ++ evs ->
  statement_calls evs <> [] ->
  validateInputs resolvedParams = Return tt
  /\ exists authHeader baseUrl delayMs t2 t3,
       getAuthorizationHeader context
         (after_validate resolvedParams (at_try params context t))
       = (Return authHeader, t2)
       /\ getBaseURL resolvedParams context = Return baseUrl
       /\ parseDuration delay t2 = (Return delayMs, t3)
       /\ (ToBoolean delay = false \/ is_string delay = true)
       /\ (exists out rest,
             statement_calls evs
             = (statement_request (disable_statement username) authHeader baseUrl, out)
               :: rest
             /\ Forall (fun c => c.1 = statement_request (enable_statement username)
                                         authHeader baseUrl) rest)
       /\ (forall d, In (Sleep d) evs -> d = delayMs).
Proof.
  intros resolvedParams username delay HT HS.
  destruct (invoke_try_setup resolvedParams context (at_try params context t))
    as [(evs' & T & S)|(authHeader & baseUrl & delayMs & t3 & evs' & out & more
                        & R & T & M & Hmore)];
    destruct (invoke_via_try params context t
                (invoke_try resolvedParams context (at_try params context t)).1 evs')
      as (evs0 & E0 & M0);
    try (rewrite <- T; now destruct (invoke_try _ _ _));
    rewrite E0 in HT; cbn [snd] in HT; apply app_inv_head in HT; subst evs0.
  - exfalso. apply HS. now rewrite statement_calls_milestones, M0, <- statement_calls_milestones.
  - destruct R as (V & t2 & EA & EB & ED). split; [exact V |].
    exists authHeader, baseUrl, delayMs, t2, t3.
    split; [exact EA |]. split; [exact EB |]. split; [exact ED |].
    split.
    { fold delay in ED. unfold parseDuration in ED.
      destruct (ToBoolean delay); [right | now left].
      cbn [negb] in ED. now destruct delay. }
    split.
    { exists out. eexists.
      rewrite statement_calls_milestones, M0, M, statement_calls_app.
      destruct (statement_calls_token_milestone context
                  (after_validate resolvedParams (at_try params context t))) as (-> & _).
      cbn [app statement_calls]. split; [reflexivity |].
      destruct Hmore as [-> | (out2 & ->)]; cbn [statement_calls]; auto. }
    intros d Hd. apply In_Sleep_milestones in Hd. rewrite M0, M in Hd.
    apply in_app_or in Hd. destruct Hd as [Hd|Hd].
    + now apply In_Sleep_token_milestone in Hd.
    + apply in_inv in Hd. destruct Hd as [Hd|Hd]; [discriminate Hd |].
      destruct Hmore as [-> | (out2 & ->)]; [destruct Hd |].
      apply in_inv in Hd. destruct Hd as [[= ->]|Hd]; [reflexivity |].
      apply in_inv in Hd. destruct Hd as [Hd|Hd]; [discriminate Hd | destruct Hd].
Qed.

End Script.

(** ** Examples *)

Lemma executeStatement_status_mapping_witness :
  exists e,
    (executeStatement integer_toString unavailable
       "ALTER USER alice SET DISABLED = TRUE" "Bearer a.b.c" "https://example" []).1
    = Throw e
    /\ retryable e = Some true.
Proof.
  destruct (executeStatement_status_mapping integer_toString unavailable
              "ALTER USER alice SET DISABLED = TRUE" "Bearer a.b.c" "https://example" []
              (response_of 503 "Service Unavailable" "down" (inl "Unexpected token d")))
    as (e & He & _ & _ & _ & _ & _ & _ & Hr).
  - reflexivity.
  - reflexivity.
  - exists e. split; [exact He | exact Hr].
Defined.

(** The two assumptions on template resolution hold of [no_templates]. *)
Lemma no_templates_string_only (params : gmap string JsValue) (jobContext : JsValue)
    (k : string) :
  is_string (prop (no_templates params jobContext).1 k) = true ->
  is_string (prop params k) = true.
Proof. intros H. exact H. Qed.

Lemma no_templates_plain (params : gmap string JsValue) (jobContext : JsValue)
    (k s : string) :
  params !! k = Some (JStr s) ->
  Str.count "{" s = 0%nat ->
  (no_templates params jobContext).1 !! k = Some (JStr s).
Proof. intros H _. exact H. Qed.

(** The action on alice against [warehouse]. *)
Lemma invoke_end_to_end_witness :
  exists t1,
    invoke integer_toString no_templates warehouse fixed_clock alice bearer_context []
    = (Return {| username := JStr "alice";
                 sessionsRevoked := true;
                 userDisabled := JStr "h1";
                 userReEnabled := JStr "h2";
                 revokedAt := Date.toISOString (fixed_clock t1) |},
       t1 ++ [Console LLog [JStr "Successfully revoked sessions for user: alice"]])
    /\ (0 <= fixed_clock t1 < Date.year10000 ->
        Date.is_iso8601 (Date.toISOString (fixed_clock t1)) = true).
Proof.
  apply (invoke_end_to_end integer_toString no_templates warehouse fixed_clock
           no_templates_plain alice bearer_context []
           (statement_request integer_toString "ALTER USER alice SET DISABLED = TRUE"
              "Bearer a.b.c" "https://example.snowflakecomputing.com")
           (statement_request integer_toString "ALTER USER alice SET DISABLED = FALSE"
              "Bearer a.b.c" "https://example.snowflakecomputing.com")
           (handle_response "h1") (handle_response "h2")
           [("statementHandle", JStr "h1")] [("statementHandle", JStr "h2")]).
  - reflexivity.
  - vm_compute. reflexivity.
  - reflexivity.
  - reflexivity.
  - reflexivity.
  - reflexivity.
  - reflexivity.
  - reflexivity.
Defined.

Lemma invoke_rejects_invalid_username_witness :
  (invoke integer_toString no_templates warehouse fixed_clock blank bearer_context []).1
  = Throw (new FatalError "Invalid or missing username parameter")
  /\ retryable (new FatalError "Invalid or missing username parameter") = Some false
  /\ exists evs,
       (invoke integer_toString no_templates warehouse fixed_clock blank bearer_context []).2
       = [] ++ evs
       /\ no_fetch evs.
Proof.
  apply (invoke_rejects_invalid_username integer_toString no_templates warehouse
           fixed_clock no_templates_string_only no_templates_plain blank bearer_context []).
  reflexivity.
Defined.


(** A string outside the duration syntax. *)
Lemma parseDuration_total_witness :
  parseDuration (JStr "soon") []
  = (Return 100%float,
     [Console LWarn [JStr "Invalid duration format: soon, using default 100ms"]]).
Proof.
  destruct parseDuration_total as (_ & _ & _ & _ & _ & _ & _ & H & _).
  apply (H "soon" []).
  - discriminate.
  - intros D. apply match_duration_syntax in D. apply D. reflexivity.
Defined.

(** The claim that a bearer secret that is present wins fails when the
    secret is the empty string: the resolver answers with the Basic header. *)
Lemma present_empty_bearer_loses_to_basic :
  (exists m,
     secrets empty_bearer_context = Some m
     /\ m !! "BEARER_AUTH_TOKEN" = Some EmptyString
     /\ m !! "BASIC_USERNAME" = Some "u"
     /\ m !! "BASIC_PASSWORD" = Some "p")
  /\ getAuthorizationHeader integer_toString unavailable empty_bearer_context []
     = (Return "Basic dTpw", [])
  /\ ~ (forall context t m token user password,
          secrets context = Some m ->
          m !! "BEARER_AUTH_TOKEN" = Some token ->
          m !! "BASIC_USERNAME" = Some user ->
          m !! "BASIC_PASSWORD" = Some password ->
          getAuthorizationHeader integer_toString unavailable context t
          = (Return (bearer token), t)).
Proof.
  assert (S : exists m,
             secrets empty_bearer_context = Some m
             /\ m !! "BEARER_AUTH_TOKEN" = Some EmptyString
             /\ m !! "BASIC_USERNAME" = Some "u"
             /\ m !! "BASIC_PASSWORD" = Some "p").
  { eexists. split; [reflexivity |]. repeat split; vm_compute; reflexivity. }
  assert (R : getAuthorizationHeader integer_toString unavailable empty_bearer_context []
              = (Return "Basic dTpw", [])) by (vm_compute; reflexivity).
  split; [exact S |]. split; [exact R |].
  intros C. destruct S as (m & Hs & Hb & Hu & Hp).
  specialize (C empty_bearer_context [] m EmptyString "u" "p" Hs Hb Hu Hp).
  rewrite R in C. discriminate C.
Qed.

Lemma getAuthorizationHeader_priority_witness :
  getAuthorizationHeader integer_toString unavailable both_context []
  = (Return "Bearer tok", []).
Proof.
  destruct (getAuthorizationHeader_priority integer_toString unavailable both_context [])
    as (_ & H & _).
  apply (H (<["BEARER_AUTH_TOKEN" := "tok"]>
              (<["BASIC_USERNAME" := "u"]> {["BASIC_PASSWORD" := "p"]}))
           "tok" "u" "p").
  - reflexivity.
  - vm_compute. reflexivity.
  - discriminate.
  - vm_compute. reflexivity.
  - vm_compute. reflexivity.
Defined.

(** The claim that a bearer secret without the prefix comes back prefixed
    fails for the empty secret: with no other credentials the resolver
    throws. *)
Lemma empty_bearer_secret_is_not_prefixed :
  (exists m,
     secrets empty_token_context = Some m
     /\ m !! "BEARER_AUTH_TOKEN" = Some EmptyString)
  /\ Str.startsWith "Bearer " EmptyString = false
  /\ (exists msg,
        getAuthorizationHeader integer_toString unavailable empty_token_context []
        = (Throw (new Error msg), []))
  /\ ~ (forall context t m token,
          secrets context = Some m ->
          m !! "BEARER_AUTH_TOKEN" = Some token ->
          Str.startsWith "Bearer " token = false ->
          getAuthorizationHeader integer_toString unavailable context t
          = (Return ("Bearer " +:+ token), t)).
Proof.
  assert (S : exists m,
             secrets empty_token_context = Some m
             /\ m !! "BEARER_AUTH_TOKEN" = Some EmptyString).
  { eexists. split; [reflexivity |]. vm_compute. reflexivity. }
  assert (R : exists msg,
             getAuthorizationHeader integer_toString unavailable empty_token_context []
             = (Throw (new Error msg), [])).
  { eexists. vm_compute. reflexivity. }
  split; [exact S |]. split; [reflexivity |]. split; [exact R |].
  intros C. destruct S as (m & Hs & Hb). destruct R as (msg & R).
  specialize (C empty_token_context [] m EmptyString Hs Hb eq_refl).
  rewrite R in C. discriminate C.
Qed.

Lemma bearer_prefixing_witness :
  (Str.startsWith "Bearer " "a.b.c" = true ->
   getAuthorizationHeader integer_toString unavailable bearer_context []
   = (Return "a.b.c", []))
  /\ (Str.startsWith "Bearer " "a.b.c" = false ->
      getAuthorizationHeader integer_toString unavailable bearer_context []
      = (Return ("Bearer " +:+ "a.b.c"), []))
  /\ bearer (bearer "a.b.c") = bearer "a.b.c".
Proof.
  apply (bearer_prefixing integer_toString unavailable bearer_context []
           {["BEARER_AUTH_TOKEN" := "a.b.c"]} "a.b.c").
  - reflexivity.
  - vm_compute. reflexivity.
  - discriminate.
Defined.

(** The claim that [halt] returns the username it was given unless that is
    absent fails for the empty username: it is given, and the result says
    unknown. *)
Lemma halt_empty_username_is_unknown :
  empty_name !! "username" = Some (JStr EmptyString)
  /\ (exists r,
        (halt integer_toString fixed_clock empty_name bearer_context []).1 = Return r
        /\ HaltResult.username r = JStr "unknown")
  /\ ~ (forall params context t u,
          params !! "username" = Some u ->
          exists r,
            (halt integer_toString fixed_clock params context t).1 = Return r
            /\ HaltResult.username r = u).
Proof.
  assert (U : empty_name !! "username" = Some (JStr EmptyString))
    by (vm_compute; reflexivity).
  split; [exact U |].
  split; [eexists; split; vm_compute; reflexivity |].
  intros C. destruct (C empty_name bearer_context [] _ U) as (r & Hr & Hu).
  vm_compute in Hr. injection Hr as <-. discriminate Hu.
Qed.

Lemma halt_result_witness :
  exists at_,
    (halt integer_toString fixed_clock bob_timeout bearer_context []).1
    = Return {| HaltResult.username := JStr "bob";
                HaltResult.reason := JStr "timeout";
                HaltResult.haltedAt := Date.toISOString at_;
                HaltResult.cleanupCompleted := true |}.
Proof.
  destruct (halt_result integer_toString fixed_clock bob_timeout bearer_context [])
    as (_ & _ & _ & _ & H & _).
  apply H; vm_compute; reflexivity.
Defined.

(** An error that is neither retryable nor fatal, here the missing
    configuration of the authentication, leaves [invoke] as a fatal one. *)
Example invoke_wraps_unclassified :
  exists msg,
    (invoke integer_toString no_templates warehouse fixed_clock alice
       (context_of ∅ ∅) []).1
    = Throw (new FatalError ("Unexpected error: " +:+ msg)).
Proof. eexists. vm_compute. reflexivity. Qed.


(** ** Examples of the further properties *)

Lemma getBaseURL_precedence_witness :
  getBaseURL slash_address bearer_context = Return "https://acme.snowflakecomputing.com".
Proof.
  destruct (getBaseURL_precedence slash_address bearer_context
              "https://acme.snowflakecomputing.com/") as (H & _).
  - discriminate.
  - assert (A : slash_address !! "address"
                = Some (JStr "https://acme.snowflakecomputing.com/"))
      by (vm_compute; reflexivity).
    exact (H A).
Defined.

Lemma getBaseURL_missing_witness :
  exists e,
    getBaseURL alice (context_of ∅ ∅) = Throw e
    /\ ctor e = Error
    /\ retryable e = None
    /\ message e
       = "No URL specified. Provide address parameter or ADDRESS environment variable".
Proof.
  apply (getBaseURL_missing alice (context_of ∅ ∅)); vm_compute; reflexivity.
Defined.

Lemma getBaseURL_strips_one_slash_witness :
  "https://acme.snowflakecomputing.com/" = "https://acme.snowflakecomputing.com" +:+ "/"
  /\ getBaseURL slash_address bearer_context = Return "https://acme.snowflakecomputing.com".
Proof.
  assert (B : getBaseURL slash_address bearer_context
              = Return "https://acme.snowflakecomputing.com") by (vm_compute; reflexivity).
  destruct (getBaseURL_strips_one_slash slash_address bearer_context
              "https://acme.snowflakecomputing.com/" "https://acme.snowflakecomputing.com")
    as (_ & _ & H & _).
  - vm_compute. reflexivity.
  - exact B.
  - split; [apply H; reflexivity | exact B].
Defined.

Lemma parseDuration_units_witness :
  parseDuration (JStr "1.5S") [] = (Return 1500%float, []).
Proof.
  destruct (parseDuration_units "1.5" "S" []) as (H & _).
  - exists "1", ".5". split; [reflexivity |]. split; [split; [discriminate | reflexivity] |].
    right. exists "5". split; [reflexivity |]. split; [discriminate | reflexivity].
  - vm_compute. tauto.
  - etransitivity; [exact H | vm_compute; reflexivity].
Defined.

Lemma parseDuration_needs_leading_digit_witness :
  parseDuration (JStr ".5s") []
  = (Return 100%float,
     [Console LWarn [JStr "Invalid duration format: .5s, using default 100ms"]]).
Proof.
  apply (parseDuration_needs_leading_digit "." "5s" []). reflexivity.
Defined.


(** The action on alice against [warehouse], read backwards from its
    result. *)
Lemma invoke_returns_after_both_statements_witness :
  exists evs req1 req2 r1 r2,
    (invoke integer_toString no_templates warehouse fixed_clock alice bearer_context []).2
    = [] ++ evs
    /\ statement_calls evs = [(req1, Resolved r1); (req2, Resolved r2)]
    /\ ok r1 = true /\ ok r2 = true.
Proof.
  destruct (invoke_returns_after_both_statements integer_toString no_templates warehouse
              fixed_clock alice bearer_context []
              {| username := JStr "alice";
                 sessionsRevoked := true;
                 userDisabled := JStr "h1";
                 userReEnabled := JStr "h2";
                 revokedAt := "2026-11-03T05:02:03.456Z" |})
    as (evs & req1 & req2 & r1 & r2 & v1 & v2 & h1 & h2 & s & T & S & K1 & K2 & _).
  - vm_compute. reflexivity.
  - exists evs, req1, req2, r1, r2. auto.
Defined.

(** The action on alice against a warehouse that is down. *)
Lemma invoke_retryable_iff_witness :
  exists evs,
    (invoke integer_toString no_templates unavailable fixed_clock alice bearer_context []).2
    = [] ++ evs
    /\ (retryable (new RetryableError "Snowflake API server error: 503") = Some true
        <-> Exists overloaded (statement_calls evs))
    /\ (retryable (new RetryableError "Snowflake API server error: 503") = Some false
        <-> ~ Exists overloaded (statement_calls evs)).
Proof.
  apply (invoke_retryable_iff integer_toString no_templates unavailable fixed_clock
           alice bearer_context []).
  vm_compute. reflexivity.
Defined.


(** The action on alice against a warehouse that accepts both statements
    and answers null. *)
Lemma invoke_null_body_is_fatal_witness :
  exists e,
    (invoke integer_toString no_templates null_warehouse fixed_clock alice
       bearer_context []).1 = Throw e
    /\ retryable e = Some false.
Proof.
  apply (invoke_null_body_is_fatal integer_toString no_templates null_warehouse
           fixed_clock alice bearer_context []
           (invoke integer_toString no_templates null_warehouse fixed_clock alice
              bearer_context []).2
           (statement_request integer_toString "ALTER USER alice SET DISABLED = TRUE"
              "Bearer a.b.c" "https://example.snowflakecomputing.com")
           (statement_request integer_toString "ALTER USER alice SET DISABLED = FALSE"
              "Bearer a.b.c" "https://example.snowflakecomputing.com")
           (response_of 200 "OK" "null" (inr JNull))
           (response_of 200 "OK" "null" (inr JNull))).
  - reflexivity.
  - vm_compute. reflexivity.
  - reflexivity.
  - left. reflexivity.
Defined.


Lemma validateInputs_accepts_iff_witness : validateInputs alice = Return tt.
Proof.
  destruct (validateInputs_accepts_iff alice) as ((_ & H) & _).
  apply H. exists "alice". split; vm_compute; reflexivity.
Defined.

Lemma bearer_token_type_witness :
  token_type_header
    (statement_request integer_toString "ALTER USER alice SET DISABLED = TRUE"
       (bearer "a.b.c") "https://example.snowflakecomputing.com")
  = Some "KEYPAIR_JWT".
Proof.
  destruct (bearer_token_type integer_toString "a.b.c"
              "ALTER USER alice SET DISABLED = TRUE"
              "https://example.snowflakecomputing.com")
    as (raw & _ & R & _ & _ & H).
  rewrite (R eq_refl) in H. apply H. reflexivity.
Defined.

Lemma getClientCredentialsToken_calls_witness :
  exists out,
    (getClientCredentialsToken integer_toString unavailable
       (token_config client_context) []).2
    = [] ++ [Fetch TokenCall (token_request (token_config client_context)) out].
Proof.
  destruct (getClientCredentialsToken_calls integer_toString unavailable
              (token_config client_context) []) as (_ & H & _).
  apply H. vm_compute. reflexivity.
Defined.

Lemma token_request_credentials_witness :
  headers (token_request (token_config client_context)) !! "Authorization"
  = Some (basic_credentials (token_config client_context))
  /\ body (token_request (token_config client_context))
     = Builtin.URLSearchParams_toString (grant_params (token_config client_context)).
Proof.
  destruct (token_request_credentials integer_toString unavailable
              (token_config client_context)) as (_ & _ & _ & _ & H & _).
  apply H. vm_compute. discriminate.
Defined.

Lemma getAuthorizationHeader_network_witness :
  exists header,
    getAuthorizationHeader integer_toString unavailable bearer_context []
    = (Return header, []).
Proof.
  destruct (getAuthorizationHeader_network integer_toString unavailable bearer_context [])
    as (_ & _ & H & _).
  apply (H Bearer); [vm_compute; reflexivity | discriminate].
Defined.


(** The action on alice against [warehouse]: its one sleep lasts the
    default delay. *)
Lemma invoke_statements_need_setup_witness :
  exists delayMs,
    parseDuration (prop alice "delay") [] = (Return delayMs, [])
    /\ forall d,
         In (Sleep d)
            (invoke integer_toString no_templates warehouse fixed_clock alice
               bearer_context []).2 ->
         d = delayMs.
Proof.
  destruct (invoke_statements_need_setup integer_toString no_templates warehouse
              fixed_clock alice bearer_context []
              (invoke integer_toString no_templates warehouse fixed_clock alice
                 bearer_context []).2)
    as (_ & a & b & d & t2 & t3 & _ & _ & D & _ & _ & H).
  - reflexivity.
  - vm_compute. discriminate.
  - exists d. split; [| exact H].
    vm_compute in D |- *. now injection D as -> _.
Defined.
